(** * Diagram tool: graph store, history engine, layout, analysis, validator

    A shallow embedding of the Python sources

      - [core/models.py]            (module [Models])
      - [core/validation.py]        (module [Validation])
      - [core/analysis.py]          (module [Analysis], [find_cycles])
      - [core/layout.py]            (module [Layout], [align_nodes], [distribute_nodes])
      - [backend/diagram_manager.py] (module [Manager])

    Conventions.
      - Python [str] is [string], [int] is [Z], [float] is [Q] (rounding of
        binary floating point is not modelled), [list] is [list],
        [dict]/[set] are stdpp's [gmap]/[gset]; a JSON-shaped [dict] whose
        key order is part of the value is an association list.
      - [Node] and [Edge] instances are mutable objects that the diagram's
        lists and the manager's indexes share.  They live in an object store
        ([Heap]); lists and indexes hold references ([loc]).
      - A Python exception is [Raise e]; a normal return is [Ok v].
      - [uuid4] and [datetime.utcnow] are read from an [oracle] argument. *)

From Stdlib Require Import ZArith QArith String Ascii List Lia.
From stdpp Require Import gmap strings list fin_maps sorting.

Local Open Scope string_scope.
Local Open Scope list_scope.
Set Warnings "-clear-no-such-hyp".

(** ** Exceptions and results *)

Inductive exn :=
| ValueError (msg : string)
| ValidationError
| TypeError.

Inductive result (A : Type) :=
| Ok (a : A)
| Raise (e : exn).
Arguments Ok {A} a.
Arguments Raise {A} e.

#[global] Instance result_ret : MRet result := fun A a => Ok a.
#[global] Instance result_bind : MBind result := fun A B f r =>
  match r with
  | Ok a => f a
  | Raise e => Raise e
  end.
#[global] Instance result_fmap : FMap result := fun A B f r =>
  match r with
  | Ok a => Ok (f a)
  | Raise e => Raise e
  end.

(** ** The object store *)

Module Heap.

Definition loc := nat.

Section Store.
Context {A : Type} `{!Inhabited A}.

(** [alloc v h] is the reference of a new object and the extended store. *)
Definition alloc (v : A) (h : list A) : loc * list A := (length h, h ++ [v]).

(** Objects are never freed, so a reference held by a list or an index is
    always allocated; [deref] is made total with the type's default. *)
Definition deref (h : list A) (l : loc) : A := h !!! l.

Definition store (l : loc) (v : A) (h : list A) : list A := <[l := v]> h.

(** Allocation of a list of values, left to right. *)
Fixpoint alloc_all (vs : list A) (h : list A) : list loc * list A :=
  match vs with
  | [] => ([], h)
  | v :: vs =>
      let '(l, h) := alloc v h in
      let '(ls, h) := alloc_all vs h in
      (l :: ls, h)
  end.
End Store.

End Heap.

(** ** core/models.py *)

Module Models.

(** [datetime] is library code.  A value is represented by its ISO-8601 text,
    on which [isoformat] and [fromisoformat] are mutually inverse; the
    rejection of malformed text by [fromisoformat] is not modelled. *)
Module Datetime.
Definition t := string.
Definition isoformat (d : t) : string := d.
Definition fromisoformat (s : string) : result t := Ok s.
End Datetime.

(** The random and clock reads of one call: [uuid4_hex8 k] is the text
    [uuid.uuid4().hex[:8]] of the [k]-th object built by the call. *)
Record oracle := {
  uuid4_hex8 : nat -> string;
  utcnow : Datetime.t
}.

Definition generate_node_id (o : oracle) (k : nat) : string := "n" +:+ uuid4_hex8 o k.
Definition generate_edge_id (o : oracle) (k : nat) : string := "e" +:+ uuid4_hex8 o k.

(** *** JSON-shaped values ([dict], [list], [str], numbers, [bool], [None]) *)

#[warnings="-register-all"]
Inductive json :=
| JNull
| JBool (b : bool)
| JInt (z : Z)
| JFloat (q : Q)
| JStr (s : string)
| JList (l : list json)
| JDict (d : list (string * json)).

Definition dict := list (string * json).

(** [d.get(k)] *)
Fixpoint dict_get (k : string) (d : dict) : option json :=
  match d with
  | [] => None
  | (k', v) :: d => if String.eqb k k' then Some v else dict_get k d
  end.

(** [k in d] *)
Definition dict_has (k : string) (d : dict) : bool :=
  match dict_get k d with Some _ => true | None => false end.

(** [del d[k]] (the value is read with [dict_get] beforehand for [d.pop(k)]) *)
Fixpoint dict_del (k : string) (d : dict) : dict :=
  match d with
  | [] => []
  | (k', v) :: d => if String.eqb k k' then dict_del k d else (k', v) :: dict_del k d
  end.

(** [d[k] = v]: an existing key keeps its position, a new key goes last. *)
Fixpoint dict_set (k : string) (v : json) (d : dict) : dict :=
  match d with
  | [] => [(k, v)]
  | (k', v') :: d => if String.eqb k k' then (k', v) :: d else (k', v') :: dict_set k v d
  end.

(** *** Pydantic field validation.

    A field of a model is read from the keyword arguments: an absent key
    takes the field's default, a value of the field's type is kept, anything
    else is a [ValidationError].  A [float] field also takes an [int].
    Pydantic's further lax-mode coercions (numeric text, booleans as numbers)
    are not modelled: such input is outside this embedding. *)

Definition field_str (k : string) (dflt : string) (d : dict) : result string :=
  match dict_get k d with
  | None => Ok dflt
  | Some (JStr s) => Ok s
  | Some _ => Raise ValidationError
  end.

Definition field_str_required (k : string) (d : dict) : result string :=
  match dict_get k d with
  | Some (JStr s) => Ok s
  | _ => Raise ValidationError
  end.

Definition field_opt_str (k : string) (d : dict) : result (option string) :=
  match dict_get k d with
  | None => Ok None
  | Some JNull => Ok None
  | Some (JStr s) => Ok (Some s)
  | Some _ => Raise ValidationError
  end.

Definition field_float (k : string) (dflt : Q) (d : dict) : result Q :=
  match dict_get k d with
  | None => Ok dflt
  | Some (JFloat q) => Ok q
  | Some (JInt z) => Ok (inject_Z z)
  | Some _ => Raise ValidationError
  end.

Definition field_int (k : string) (dflt : Z) (d : dict) : result Z :=
  match dict_get k d with
  | None => Ok dflt
  | Some (JInt z) => Ok z
  | Some _ => Raise ValidationError
  end.

Definition field_bool (k : string) (dflt : bool) (d : dict) : result bool :=
  match dict_get k d with
  | None => Ok dflt
  | Some (JBool b) => Ok b
  | Some _ => Raise ValidationError
  end.

Fixpoint str_list (l : list json) : result (list string) :=
  match l with
  | [] => Ok []
  | JStr s :: l => ss ← str_list l; Ok (s :: ss)
  | _ :: _ => Raise ValidationError
  end.

Definition field_str_list (k : string) (d : dict) : result (list string) :=
  match dict_get k d with
  | None => Ok []
  | Some (JList l) => str_list l
  | Some _ => Raise ValidationError
  end.

(** *** class Node *)

Module Node.

Record t := {
  id : string;
  label : string;
  type : string;
  shape : string;
  color : string;
  x : Q;
  y : Q;
  width : Q;
  height : Q;
  tags : list string;
  description : string;
  border_style : string;
  fill_opacity : Q;
  z_index : Z;
  rotation : Q
}.

(** The constructor call [Node(n)] with the keys of a JSON object [n] as keyword arguments. *)
Definition of_dict (gen_id : string) (d : dict) : result t :=
  id ← field_str "id" gen_id d;
  label ← field_str "label" "New Node" d;
  type ← field_str "type" "component" d;
  shape ← field_str "shape" "rectangle" d;
  color ← field_str "color" "#3478f6" d;
  x ← field_float "x" 100 d;
  y ← field_float "y" 100 d;
  width ← field_float "width" 150 d;
  height ← field_float "height" 80 d;
  tags ← field_str_list "tags" d;
  description ← field_str "description" "" d;
  border_style ← field_str "border_style" "solid" d;
  fill_opacity ← field_float "fill_opacity" 1 d;
  z_index ← field_int "z_index" 0 d;
  rotation ← field_float "rotation" 0 d;
  Ok {| id := id; label := label; type := type; shape := shape; color := color;
        x := x; y := y; width := width; height := height; tags := tags;
        description := description; border_style := border_style;
        fill_opacity := fill_opacity; z_index := z_index; rotation := rotation |}.

(** [n.model_dump()] *)
Definition model_dump (n : t) : dict :=
  [("id", JStr (id n)); ("label", JStr (label n)); ("type", JStr (type n));
   ("shape", JStr (shape n)); ("color", JStr (color n));
   ("x", JFloat (x n)); ("y", JFloat (y n));
   ("width", JFloat (width n)); ("height", JFloat (height n));
   ("tags", JList (map JStr (tags n)));
   ("description", JStr (description n));
   ("border_style", JStr (border_style n));
   ("fill_opacity", JFloat (fill_opacity n));
   ("z_index", JInt (z_index n)); ("rotation", JFloat (rotation n))].

#[global] Instance inhabited : Inhabited t :=
  populate {| id := ""; label := "New Node"; type := "component"; shape := "rectangle";
              color := "#3478f6"; x := 100; y := 100; width := 150; height := 80;
              tags := []; description := ""; border_style := "solid";
              fill_opacity := 1; z_index := 0; rotation := 0 |}.

End Node.

(** Keyword arguments naming fields of [Node]; [None] is a key that is
    absent (or, for an update, given as [None]). *)
Module NodeKwargs.

Record t := {
  id : option string;
  label : option string;
  type : option string;
  shape : option string;
  color : option string;
  x : option Q;
  y : option Q;
  width : option Q;
  height : option Q;
  tags : option (list string);
  description : option string;
  border_style : option string;
  fill_opacity : option Q;
  z_index : option Z;
  rotation : option Q
}.

Definition empty : t :=
  {| id := None; label := None; type := None; shape := None; color := None;
     x := None; y := None; width := None; height := None; tags := None;
     description := None; border_style := None; fill_opacity := None;
     z_index := None; rotation := None |}.

(** The keyword bag [{x: v}]. *)
Definition only_x (v : Q) : t :=
  {| id := None; label := None; type := None; shape := None; color := None;
     x := Some v; y := None; width := None; height := None; tags := None;
     description := None; border_style := None; fill_opacity := None;
     z_index := None; rotation := None |}.

(** The constructor call [Node(kwargs)]. *)
Definition init (gen_id : string) (kw : t) : Node.t :=
  {| Node.id := default gen_id (id kw);
     Node.label := default "New Node" (label kw);
     Node.type := default "component" (type kw);
     Node.shape := default "rectangle" (shape kw);
     Node.color := default "#3478f6" (color kw);
     Node.x := default 100%Q (x kw);
     Node.y := default 100%Q (y kw);
     Node.width := default 150%Q (width kw);
     Node.height := default 80%Q (height kw);
     Node.tags := default [] (tags kw);
     Node.description := default "" (description kw);
     Node.border_style := default "solid" (border_style kw);
     Node.fill_opacity := default 1%Q (fill_opacity kw);
     Node.z_index := default 0%Z (z_index kw);
     Node.rotation := default 0%Q (rotation kw) |}.

(** [for key, value in kwargs.items():
       if value is not None and hasattr(node, key): setattr(node, key, value)] *)
Definition setattrs (kw : t) (n : Node.t) : Node.t :=
  {| Node.id := default (Node.id n) (id kw);
     Node.label := default (Node.label n) (label kw);
     Node.type := default (Node.type n) (type kw);
     Node.shape := default (Node.shape n) (shape kw);
     Node.color := default (Node.color n) (color kw);
     Node.x := default (Node.x n) (x kw);
     Node.y := default (Node.y n) (y kw);
     Node.width := default (Node.width n) (width kw);
     Node.height := default (Node.height n) (height kw);
     Node.tags := default (Node.tags n) (tags kw);
     Node.description := default (Node.description n) (description kw);
     Node.border_style := default (Node.border_style n) (border_style kw);
     Node.fill_opacity := default (Node.fill_opacity n) (fill_opacity kw);
     Node.z_index := default (Node.z_index n) (z_index kw);
     Node.rotation := default (Node.rotation n) (rotation kw) |}.

End NodeKwargs.

(** *** class Edge *)

Module Edge.

Record t := {
  id : string;
  source : string;
  target : string;
  label : string;
  source_side : option string;
  target_side : option string;
  color : string;
  width : Q;
  style : string;
  arrow_start : string;
  arrow_end : string;
  arrow_size : Q
}.

(** [convert_legacy_fields]: the model validator that runs before field
    validation.  [data['source'] = data.pop('from')] removes the legacy key
    and writes the canonical one. *)
Definition rename_key (legacy canonical : string) (data : dict) : dict :=
  if dict_has legacy data && negb (dict_has canonical data)
  then match dict_get legacy data with
       | Some v => dict_set canonical v (dict_del legacy data)
       | None => data
       end
  else data.

Definition convert_legacy_fields (data : dict) : dict :=
  let data := rename_key "from" "source" data in
  let data := rename_key "from_node" "source" data in
  let data := rename_key "to" "target" data in
  let data := rename_key "to_node" "target" data in
  data.

(** Field validation of [Edge]; keys that name no field are ignored. *)
Definition validate (gen_id : string) (d : dict) : result t :=
  id ← field_str "id" gen_id d;
  source ← field_str_required "source" d;
  target ← field_str_required "target" d;
  label ← field_str "label" "" d;
  source_side ← field_opt_str "source_side" d;
  target_side ← field_opt_str "target_side" d;
  color ← field_str "color" "#666666" d;
  width ← field_float "width" 2 d;
  style ← field_str "style" "solid" d;
  arrow_start ← field_str "arrow_start" "none" d;
  arrow_end ← field_str "arrow_end" "filled" d;
  arrow_size ← field_float "arrow_size" 12 d;
  Ok {| id := id; source := source; target := target; label := label;
        source_side := source_side; target_side := target_side;
        color := color; width := width; style := style;
        arrow_start := arrow_start; arrow_end := arrow_end;
        arrow_size := arrow_size |}.

(** The constructor call [Edge(e)] with the keys of a JSON object [e] as
    keyword arguments. *)
Definition of_dict (gen_id : string) (d : dict) : result t :=
  validate gen_id (convert_legacy_fields d).

(** The truth value of an [Optional[str]]: set and not empty. *)
Definition truthy (s : option string) : bool :=
  match s with
  | Some s => negb (String.eqb s "")
  | None => false
  end.

Definition side_entry (k : string) (s : option string) : dict :=
  match s with
  | Some v => if truthy s then [(k, JStr v)] else []
  | None => []
  end.

Definition to_json_dict (e : t) : dict :=
  [("id", JStr (id e)); ("source", JStr (source e)); ("target", JStr (target e));
   ("label", JStr (label e)); ("color", JStr (color e));
   ("width", JFloat (width e)); ("style", JStr (style e));
   ("arrow_start", JStr (arrow_start e)); ("arrow_end", JStr (arrow_end e));
   ("arrow_size", JFloat (arrow_size e))]
  ++ side_entry "source_side" (source_side e)
  ++ side_entry "target_side" (target_side e).

(** [Edge(source=.., target=.., label=.., source_side=.., target_side=..)] *)
Definition init (gen_id src tgt lbl : string) (s_side t_side : option string) : t :=
  {| id := gen_id; source := src; target := tgt; label := lbl;
     source_side := s_side; target_side := t_side;
     color := "#666666"; width := 2; style := "solid";
     arrow_start := "none"; arrow_end := "filled"; arrow_size := 12 |}.

#[global] Instance inhabited : Inhabited t := populate (init "" "" "" "" None None).

End Edge.

(** Keyword arguments naming fields of [Edge]. *)
Module EdgeKwargs.

Record t := {
  id : option string;
  source : option string;
  target : option string;
  label : option string;
  source_side : option string;
  target_side : option string;
  color : option string;
  width : option Q;
  style : option string;
  arrow_start : option string;
  arrow_end : option string;
  arrow_size : option Q
}.

Definition empty : t :=
  {| id := None; source := None; target := None; label := None;
     source_side := None; target_side := None; color := None; width := None;
     style := None; arrow_start := None; arrow_end := None; arrow_size := None |}.

(** [for key, value in kwargs.items():
       if value is not None and hasattr(edge, key): setattr(edge, key, value)] *)
Definition setattrs (kw : t) (e : Edge.t) : Edge.t :=
  {| Edge.id := default (Edge.id e) (id kw);
     Edge.source := default (Edge.source e) (source kw);
     Edge.target := default (Edge.target e) (target kw);
     Edge.label := default (Edge.label e) (label kw);
     Edge.source_side :=
       match source_side kw with Some s => Some s | None => Edge.source_side e end;
     Edge.target_side :=
       match target_side kw with Some s => Some s | None => Edge.target_side e end;
     Edge.color := default (Edge.color e) (color kw);
     Edge.width := default (Edge.width e) (width kw);
     Edge.style := default (Edge.style e) (style kw);
     Edge.arrow_start := default (Edge.arrow_start e) (arrow_start kw);
     Edge.arrow_end := default (Edge.arrow_end e) (arrow_end kw);
     Edge.arrow_size := default (Edge.arrow_size e) (arrow_size kw) |}.

End EdgeKwargs.

(** *** class DiagramMetadata, class Diagram *)

Record DiagramMetadata := {
  created_at : Datetime.t;
  updated_at : Datetime.t;
  grid_size : Z;
  show_grid : bool
}.

Module Diagram.

(** The diagram object.  [N] and [E] are what its lists hold: node and edge
    values when a diagram is taken by value ([value]), references into the
    object store when its members are shared with the manager's indexes. *)
Record t {N E : Type} := {
  id : string;
  name : string;
  nodes : list N;
  edges : list E;
  metadata : DiagramMetadata
}.
Arguments t : clear implicits.

Abbreviation value := (t Node.t Edge.t).

Definition to_json_dict (d : value) : dict :=
  [("id", JStr (id d)); ("name", JStr (name d));
   ("nodes", JList (map (fun n => JDict (Node.model_dump n)) (nodes d)));
   ("edges", JList (map (fun e => JDict (Edge.to_json_dict e)) (edges d)));
   ("metadata",
    JDict [("created_at", JStr (Datetime.isoformat (created_at (metadata d))));
           ("updated_at", JStr (Datetime.isoformat (updated_at (metadata d))));
           ("grid_size", JInt (grid_size (metadata d)));
           ("show_grid", JBool (show_grid (metadata d)))])].

(** [[Edge(e) for e in l]]; the [k]-th object of the call draws
    [uuid4_hex8 o k]. *)
Fixpoint parse_edges (o : oracle) (k : nat) (l : list json) : result (list Edge.t) :=
  match l with
  | [] => Ok []
  | JDict e :: l =>
      e ← Edge.of_dict (generate_edge_id o k) e;
      es ← parse_edges o (S k) l;
      Ok (e :: es)
  | _ :: _ => Raise TypeError
  end.

Fixpoint parse_nodes (o : oracle) (k : nat) (l : list json) : result (list Node.t) :=
  match l with
  | [] => Ok []
  | JDict n :: l =>
      n ← Node.of_dict (generate_node_id o k) n;
      ns ← parse_nodes o (S k) l;
      Ok (n :: ns)
  | _ :: _ => Raise TypeError
  end.

Definition parse_datetime (o : oracle) (k : string) (meta_data : dict) : result Datetime.t :=
  match dict_get k meta_data with
  | None => Ok (utcnow o)
  | Some (JStr s) => Datetime.fromisoformat s
  | Some _ => Raise TypeError
  end.

Definition from_json_dict (o : oracle) (data : dict) : result value :=
  edges ← match dict_get "edges" data with
          | None => Ok []
          | Some (JList l) => parse_edges o 0 l
          | Some _ => Raise TypeError
          end;
  nodes ← match dict_get "nodes" data with
          | None => Ok []
          | Some (JList l) => parse_nodes o (length edges) l
          | Some _ => Raise TypeError
          end;
  meta_data ← match dict_get "metadata" data with
              | None => Ok []
              | Some (JDict m) => Ok m
              | Some _ => Raise TypeError
              end;
  created_at ← parse_datetime o "created_at" meta_data;
  updated_at ← parse_datetime o "updated_at" meta_data;
  grid_size ← field_int "grid_size" 20 meta_data;
  show_grid ← field_bool "show_grid" false meta_data;
  id ← field_str "id" ("diagram-" +:+ uuid4_hex8 o (length edges + length nodes)) data;
  name ← field_str "name" "Untitled Diagram" data;
  Ok {| id := id; name := name; nodes := nodes; edges := edges;
        metadata := {| created_at := created_at; updated_at := updated_at;
                       grid_size := grid_size; show_grid := show_grid |} |}.

(** [Diagram(name=name)] *)
Definition init (o : oracle) (name : string) : value :=
  {| id := "diagram-" +:+ uuid4_hex8 o 0; name := name; nodes := []; edges := [];
     metadata := {| created_at := utcnow o; updated_at := utcnow o;
                    grid_size := 20; show_grid := true |} |}.

End Diagram.

End Models.

(** ** core/validation.py *)

Module Validation.
Import Models.

Inductive IssueSeverity := ERROR | WARNING | INFO.

Record ValidationIssue := {
  severity : IssueSeverity;
  message : string;
  node_id : option string;
  edge_id : option string
}.

(** Python's [str.isspace] on the ASCII range. *)
Definition is_space (c : ascii) : bool :=
  let n := nat_of_ascii c in
  (Nat.leb 9 n && Nat.leb n 13) || (Nat.leb 28 n && Nat.leb n 32).

Fixpoint lstrip (s : string) : string :=
  match s with
  | String c s' => if is_space c then lstrip s' else s
  | EmptyString => EmptyString
  end.

Definition strip (s : string) : string :=
  String.rev (lstrip (String.rev (lstrip s))).

(** [not node.label or node.label.strip() == "" or node.label == "New Node"] *)
Definition bad_label (l : string) : bool :=
  String.eqb l "" || String.eqb (strip l) "" || String.eqb l "New Node".

(** [connected_nodes] after the loop over the edges. *)
Definition connected_nodes (edges : list Edge.t) : gset string :=
  foldl (fun s e => {[Edge.target e]} ∪ ({[Edge.source e]} ∪ s)) ∅ edges.

Definition orphan_issues (nodes : list Node.t) (orphans : gset string) : list ValidationIssue :=
  if bool_decide (orphans ≠ ∅) then
    let orphan_labels :=
      map (fun n => Node.label n +:+ " (" +:+ Node.id n +:+ ")")
          (filter (fun n => Node.id n ∈ orphans) nodes) in
    [ {| severity := WARNING;
         message := "Orphan nodes (no connections): " +:+ String.concat ", " orphan_labels;
         node_id := None; edge_id := None |} ]
  else [].

Definition label_issues (nodes : list Node.t) : list ValidationIssue :=
  flat_map (fun n =>
    if bad_label (Node.label n)
    then [ {| severity := WARNING; message := "Node has default or empty label";
              node_id := Some (Node.id n); edge_id := None |} ]
    else []) nodes.

Definition reference_issues (node_ids : gset string) (edges : list Edge.t)
  : list ValidationIssue :=
  flat_map (fun e =>
    (if bool_decide (Edge.source e ∉ node_ids)
     then [ {| severity := ERROR;
               message := "Edge references non-existent source node: " +:+ Edge.source e;
               node_id := None; edge_id := Some (Edge.id e) |} ]
     else [])
    ++
    (if bool_decide (Edge.target e ∉ node_ids)
     then [ {| severity := ERROR;
               message := "Edge references non-existent target node: " +:+ Edge.target e;
               node_id := None; edge_id := Some (Edge.id e) |} ]
     else [])) edges.

Definition self_loop_issues (edges : list Edge.t) : list ValidationIssue :=
  flat_map (fun e =>
    if bool_decide (Edge.source e = Edge.target e)
    then [ {| severity := WARNING;
              message := "Self-referencing edge (node points to itself)";
              node_id := Some (Edge.source e); edge_id := Some (Edge.id e) |} ]
    else []) edges.

(** The loop over the edges that threads [seen_pairs]. *)
Fixpoint duplicate_issues (seen_pairs : gset (string * string)) (edges : list Edge.t)
  : list ValidationIssue :=
  match edges with
  | [] => []
  | e :: edges =>
      let pair := (Edge.source e, Edge.target e) in
      if bool_decide (pair ∈ seen_pairs)
      then {| severity := WARNING;
              message := "Duplicate edge from " +:+ Edge.source e +:+ " to " +:+ Edge.target e;
              node_id := None; edge_id := Some (Edge.id e) |}
           :: duplicate_issues seen_pairs edges
      else duplicate_issues ({[pair]} ∪ seen_pairs) edges
  end.

Definition validate_diagram (diagram : Diagram.value) : list ValidationIssue :=
  let nodes := Diagram.nodes diagram in
  let edges := Diagram.edges diagram in
  let node_ids : gset string := list_to_set (map Node.id nodes) in
  match nodes with
  | [] => [ {| severity := INFO; message := "Diagram has no nodes";
               node_id := None; edge_id := None |} ]
  | _ :: _ =>
      let orphans := node_ids ∖ connected_nodes edges in
      orphan_issues nodes orphans
      ++ label_issues nodes
      ++ reference_issues node_ids edges
      ++ self_loop_issues edges
      ++ duplicate_issues ∅ edges
  end.

(** Classification of an issue by what the validator wrote into it. *)
Definition is_error (i : ValidationIssue) : bool :=
  match severity i with ERROR => true | _ => false end.

Definition is_warning (i : ValidationIssue) : bool :=
  match severity i with WARNING => true | _ => false end.

Definition is_self_loop_warning (i : ValidationIssue) : bool :=
  is_warning i && String.eqb (message i) "Self-referencing edge (node points to itself)".

Definition is_orphan_warning (i : ValidationIssue) : bool :=
  is_warning i && String.prefix "Orphan nodes (no connections): " (message i).

Definition is_duplicate_warning (i : ValidationIssue) : bool :=
  is_warning i && String.prefix "Duplicate edge from " (message i).

Definition count (p : ValidationIssue -> bool) (l : list ValidationIssue) : nat :=
  length (List.filter p l).

(** *** Summary *)

Definition is_info (i : ValidationIssue) : bool :=
  match severity i with INFO => true | _ => false end.

(** The dictionary that [validation_summary] returns, by its five keys. *)
Record Summary := {
  total : nat;
  errors : nat;
  warnings : nat;
  info : nat;
  valid : bool
}.

Definition validation_summary (issues : list ValidationIssue) : Summary :=
  {| total := length issues;
     errors := length (List.filter is_error issues);
     warnings := length (List.filter is_warning issues);
     info := length (List.filter is_info issues);
     valid := Nat.eqb (length (List.filter is_error issues)) 0 |}.

End Validation.

(** ** core/analysis.py *)

Module Analysis.
Import Models.

(** [adjacency[edge.source].append(edge.target)] over the edges, on a
    [defaultdict(list)]. *)
Definition adjacency (edges : list Edge.t) : gmap string (list string) :=
  foldl (fun adj e =>
           <[Edge.source e := default [] (adj !! Edge.source e) ++ [Edge.target e]]> adj)
        ∅ edges.

(** The inner [dfs] of [find_cycles].  [path] and [visited] are extended for
    the recursive call and restored after it ([path.pop()],
    [visited.remove(neighbor)]), so each iteration of the loop sees the
    caller's values; [cycles] is the list the calls append to.  The recursion
    is on [fuel]: [None] is returned when it runs out. *)
Fixpoint dfs (fuel : nat) (adj : gmap string (list string)) (start current : string)
    (path : list string) (visited : gset string) (cycles : list (list string))
  : option (list (list string)) :=
  match fuel with
  | O => None
  | S fuel =>
      foldl (fun acc neighbor =>
               match acc with
               | None => None
               | Some cycles =>
                   if bool_decide (neighbor = start) && Nat.ltb 1 (length path)
                   then Some (cycles ++ [path ++ [start]])
                   else if bool_decide (neighbor ∉ visited)
                   then dfs fuel adj start neighbor (path ++ [neighbor])
                            ({[neighbor]} ∪ visited) cycles
                   else Some cycles
               end)
            (Some cycles) (default [] (adj !! current))
  end.

(** The loop over [diagram.nodes] that starts a traversal at every node id
    not yet in [visited_global]. *)
Definition all_cycles (fuel : nat) (adj : gmap string (list string)) (nodes : list Node.t)
  : option (list (list string)) :=
  snd (foldl (fun '(visited_global, acc) node =>
                if bool_decide (Node.id node ∉ visited_global)
                then ({[Node.id node]} ∪ visited_global,
                      match acc with
                      | None => None
                      | Some cycles =>
                          dfs fuel adj (Node.id node) (Node.id node) [Node.id node]
                              {[Node.id node]} cycles
                      end)
                else (visited_global, acc))
             ((∅ : gset string), Some []) nodes).

(** [frozenset(cycle[:-1])] *)
Definition cycle_set (cycle : list string) : gset string :=
  list_to_set (removelast cycle).

(** The loop that keeps the first cycle of every member set. *)
Fixpoint unique_cycles (seen : gset (gset string)) (cycles : list (list string))
  : list (list string) :=
  match cycles with
  | [] => []
  | cycle :: cycles =>
      if bool_decide (cycle_set cycle ∉ seen)
      then cycle :: unique_cycles ({[cycle_set cycle]} ∪ seen) cycles
      else unique_cycles seen cycles
  end.

(** A traversal visits a node id at most once per branch, and every id it
    moves to is the target of an edge: [S (length edges)] calls deep is
    enough (see [find_cycles_total]). *)
Definition find_cycles (diagram : Diagram.value) : option (list (list string)) :=
  let adj := adjacency (Diagram.edges diagram) in
  cycles ← all_cycles (S (length (Diagram.edges diagram))) adj (Diagram.nodes diagram);
  Some (unique_cycles ∅ cycles).

(** Directed reachability along the edges. *)
Definition edge_rel (edges : list Edge.t) (u v : string) : Prop :=
  ∃ e, e ∈ edges ∧ Edge.source e = u ∧ Edge.target e = v.

Definition acyclic (edges : list Edge.t) : Prop :=
  ∀ u, ¬ tc (edge_rel edges) u u.

End Analysis.

(** ** core/layout.py: [align_nodes] and [distribute_nodes] *)

Module Layout.
Import Models Heap.
Local Open Scope Q_scope.

Definition set_x (v : Q) (n : Node.t) : Node.t :=
  {| Node.id := Node.id n; Node.label := Node.label n; Node.type := Node.type n;
     Node.shape := Node.shape n; Node.color := Node.color n;
     Node.x := v; Node.y := Node.y n;
     Node.width := Node.width n; Node.height := Node.height n;
     Node.tags := Node.tags n; Node.description := Node.description n;
     Node.border_style := Node.border_style n; Node.fill_opacity := Node.fill_opacity n;
     Node.z_index := Node.z_index n; Node.rotation := Node.rotation n |}.

Definition set_y (v : Q) (n : Node.t) : Node.t :=
  {| Node.id := Node.id n; Node.label := Node.label n; Node.type := Node.type n;
     Node.shape := Node.shape n; Node.color := Node.color n;
     Node.x := Node.x n; Node.y := v;
     Node.width := Node.width n; Node.height := Node.height n;
     Node.tags := Node.tags n; Node.description := Node.description n;
     Node.border_style := Node.border_style n; Node.fill_opacity := Node.fill_opacity n;
     Node.z_index := Node.z_index n; Node.rotation := Node.rotation n |}.

(** [[n for n in nodes if n.id in node_ids]] *)
Definition targets (h : list Node.t) (nodes : list loc) (node_ids : list string) : list loc :=
  filter (fun l => Node.id (deref h l) ∈ node_ids) nodes.

(** [min(...)] and [max(...)] of a non-empty sequence: the first extremal
    element. *)
Definition min_of (vs : list Q) : Q :=
  match vs with
  | [] => 0
  | v :: vs => foldl (fun m v => if Qle_bool m v then m else v) v vs
  end.

Definition max_of (vs : list Q) : Q :=
  match vs with
  | [] => 0
  | v :: vs => foldl (fun m v => if Qle_bool v m then m else v) v vs
  end.

Definition sum_of (vs : list Q) : Q := foldl Qplus 0 vs.

Definition len (ls : list loc) : Q := inject_Z (Z.of_nat (length ls)).

(** [for n in targets: n.<field> = f(n)] *)
Definition assign_each (f : Node.t -> Node.t) (ts : list loc) (h : list Node.t) : list Node.t :=
  foldl (fun h l => store l (f (deref h l)) h) h ts.

Definition align_nodes (h : list Node.t) (nodes : list loc) (node_ids : list string)
    (alignment : string) : bool * list Node.t :=
  let ts := targets h nodes node_ids in
  if Nat.ltb (length ts) 2 then (false, h)
  else if String.eqb alignment "left" then
    let min_x := min_of (map (fun l => Node.x (deref h l)) ts) in
    (true, assign_each (set_x min_x) ts h)
  else if String.eqb alignment "right" then
    let max_x := max_of (map (fun l => Node.x (deref h l) + Node.width (deref h l)) ts) in
    (true, assign_each (fun n => set_x (max_x - Node.width n) n) ts h)
  else if String.eqb alignment "top" then
    let min_y := min_of (map (fun l => Node.y (deref h l)) ts) in
    (true, assign_each (set_y min_y) ts h)
  else if String.eqb alignment "bottom" then
    let max_y := max_of (map (fun l => Node.y (deref h l) + Node.height (deref h l)) ts) in
    (true, assign_each (fun n => set_y (max_y - Node.height n) n) ts h)
  else if String.eqb alignment "center_h" then
    let center_x :=
      sum_of (map (fun l => Node.x (deref h l) + Node.width (deref h l) / 2) ts) / len ts in
    (true, assign_each (fun n => set_x (center_x - Node.width n / 2) n) ts h)
  else if String.eqb alignment "center_v" then
    let center_y :=
      sum_of (map (fun l => Node.y (deref h l) + Node.height (deref h l) / 2) ts) / len ts in
    (true, assign_each (fun n => set_y (center_y - Node.height n / 2) n) ts h)
  else (false, h).

(** [targets.sort(key=...)]: a stable sort. *)
Fixpoint insert_by (key : loc -> Q) (a : loc) (l : list loc) : list loc :=
  match l with
  | [] => [a]
  | b :: l' => if Qle_bool (key b) (key a) then b :: insert_by key a l' else a :: b :: l'
  end.

Definition sort_by (key : loc -> Q) (l : list loc) : list loc :=
  foldl (fun acc a => insert_by key a acc) [] l.

(** [for i, n in enumerate(targets): n.<field> = lo + i * spacing] *)
Fixpoint assign_spaced (set : Q -> Node.t -> Node.t) (lo spacing : Q) (i : nat)
    (ts : list loc) (h : list Node.t) : list Node.t :=
  match ts with
  | [] => h
  | l :: ts =>
      assign_spaced set lo spacing (S i) ts
        (store l (set (lo + inject_Z (Z.of_nat i) * spacing) (deref h l)) h)
  end.

Definition distribute_nodes (h : list Node.t) (nodes : list loc) (node_ids : list string)
    (axis : string) : bool * list Node.t :=
  let ts := targets h nodes node_ids in
  if Nat.ltb (length ts) 3 then (false, h)
  else if String.eqb axis "horizontal" then
    let ts := sort_by (fun l => Node.x (deref h l)) ts in
    let min_x := Node.x (deref h (List.hd 0%nat ts)) in
    let max_x := Node.x (deref h (List.last ts 0%nat)) in
    let spacing := (max_x - min_x) / (len ts - 1) in
    (true, assign_spaced set_x min_x spacing 0 ts h)
  else if String.eqb axis "vertical" then
    let ts := sort_by (fun l => Node.y (deref h l)) ts in
    let min_y := Node.y (deref h (List.hd 0%nat ts)) in
    let max_y := Node.y (deref h (List.last ts 0%nat)) in
    let spacing := (max_y - min_y) / (len ts - 1) in
    (true, assign_spaced set_y min_y spacing 0 ts h)
  else (false, h).

End Layout.

(** ** backend/diagram_manager.py *)

Module Manager.
Import Models Heap.

(** The state of a [DiagramManager].  [node_store] and [edge_store] hold the
    [Node] and [Edge] objects; [changes] counts the calls of
    [_notify_change].  The file path and the callback lists, used by the
    file operations only, are left out. *)
Record t := {
  node_store : list Node.t;
  edge_store : list Edge.t;
  _diagram : option (Diagram.t loc loc);
  _history : list dict;
  _future : list dict;
  _max_history : Z;
  _dirty : bool;
  changes : nat;
  _node_index : gmap string loc;
  _edge_index : gmap string loc;
  _tag_index : gmap string (gset string);
  _type_index : gmap string (gset string);
  _edges_by_node : gmap string (gset string)
}.

Definition set_node_store (v : list Node.t) (m : t) : t :=
  {| node_store := v; edge_store := edge_store m; _diagram := _diagram m; _history
     := _history m; _future := _future m; _max_history := _max_history m; _dirty :=
     _dirty m; changes := changes m; _node_index := _node_index m; _edge_index :=
     _edge_index m; _tag_index := _tag_index m; _type_index := _type_index m;
     _edges_by_node := _edges_by_node m |}.

Definition set_edge_store (v : list Edge.t) (m : t) : t :=
  {| node_store := node_store m; edge_store := v; _diagram := _diagram m; _history
     := _history m; _future := _future m; _max_history := _max_history m; _dirty :=
     _dirty m; changes := changes m; _node_index := _node_index m; _edge_index :=
     _edge_index m; _tag_index := _tag_index m; _type_index := _type_index m;
     _edges_by_node := _edges_by_node m |}.

Definition set_diagram (v : option (Diagram.t loc loc)) (m : t) : t :=
  {| node_store := node_store m; edge_store := edge_store m; _diagram := v; _history
     := _history m; _future := _future m; _max_history := _max_history m; _dirty :=
     _dirty m; changes := changes m; _node_index := _node_index m; _edge_index :=
     _edge_index m; _tag_index := _tag_index m; _type_index := _type_index m;
     _edges_by_node := _edges_by_node m |}.

Definition set_history (v : list dict) (m : t) : t :=
  {| node_store := node_store m; edge_store := edge_store m; _diagram := _diagram m;
     _history := v; _future := _future m; _max_history := _max_history m; _dirty :=
     _dirty m; changes := changes m; _node_index := _node_index m; _edge_index :=
     _edge_index m; _tag_index := _tag_index m; _type_index := _type_index m;
     _edges_by_node := _edges_by_node m |}.

Definition set_future (v : list dict) (m : t) : t :=
  {| node_store := node_store m; edge_store := edge_store m; _diagram := _diagram m;
     _history := _history m; _future := v; _max_history := _max_history m; _dirty :=
     _dirty m; changes := changes m; _node_index := _node_index m; _edge_index :=
     _edge_index m; _tag_index := _tag_index m; _type_index := _type_index m;
     _edges_by_node := _edges_by_node m |}.

Definition set_dirty (v : bool) (m : t) : t :=
  {| node_store := node_store m; edge_store := edge_store m; _diagram := _diagram m;
     _history := _history m; _future := _future m; _max_history := _max_history m;
     _dirty := v; changes := changes m; _node_index := _node_index m; _edge_index :=
     _edge_index m; _tag_index := _tag_index m; _type_index := _type_index m;
     _edges_by_node := _edges_by_node m |}.

Definition set_changes (v : nat) (m : t) : t :=
  {| node_store := node_store m; edge_store := edge_store m; _diagram := _diagram m;
     _history := _history m; _future := _future m; _max_history := _max_history m;
     _dirty := _dirty m; changes := v; _node_index := _node_index m; _edge_index :=
     _edge_index m; _tag_index := _tag_index m; _type_index := _type_index m;
     _edges_by_node := _edges_by_node m |}.

Definition set_node_index (v : gmap string loc) (m : t) : t :=
  {| node_store := node_store m; edge_store := edge_store m; _diagram := _diagram m;
     _history := _history m; _future := _future m; _max_history := _max_history m;
     _dirty := _dirty m; changes := changes m; _node_index := v; _edge_index :=
     _edge_index m; _tag_index := _tag_index m; _type_index := _type_index m;
     _edges_by_node := _edges_by_node m |}.

Definition set_edge_index (v : gmap string loc) (m : t) : t :=
  {| node_store := node_store m; edge_store := edge_store m; _diagram := _diagram m;
     _history := _history m; _future := _future m; _max_history := _max_history m;
     _dirty := _dirty m; changes := changes m; _node_index := _node_index m;
     _edge_index := v; _tag_index := _tag_index m; _type_index := _type_index m;
     _edges_by_node := _edges_by_node m |}.

Definition set_tag_index (v : gmap string (gset string)) (m : t) : t :=
  {| node_store := node_store m; edge_store := edge_store m; _diagram := _diagram m;
     _history := _history m; _future := _future m; _max_history := _max_history m;
     _dirty := _dirty m; changes := changes m; _node_index := _node_index m;
     _edge_index := _edge_index m; _tag_index := v; _type_index := _type_index m;
     _edges_by_node := _edges_by_node m |}.

Definition set_type_index (v : gmap string (gset string)) (m : t) : t :=
  {| node_store := node_store m; edge_store := edge_store m; _diagram := _diagram m;
     _history := _history m; _future := _future m; _max_history := _max_history m;
     _dirty := _dirty m; changes := changes m; _node_index := _node_index m;
     _edge_index := _edge_index m; _tag_index := _tag_index m; _type_index := v;
     _edges_by_node := _edges_by_node m |}.

Definition set_edges_by_node (v : gmap string (gset string)) (m : t) : t :=
  {| node_store := node_store m; edge_store := edge_store m; _diagram := _diagram m;
     _history := _history m; _future := _future m; _max_history := _max_history m;
     _dirty := _dirty m; changes := changes m; _node_index := _node_index m;
     _edge_index := _edge_index m; _tag_index := _tag_index m; _type_index :=
     _type_index m; _edges_by_node := v |}.

(** [DiagramManager(max_history)] *)
Definition init (max_history : Z) : t :=
  {| node_store := []; edge_store := []; _diagram := None;
     _history := []; _future := []; _max_history := max_history;
     _dirty := false; changes := 0;
     _node_index := ∅; _edge_index := ∅; _tag_index := ∅; _type_index := ∅;
     _edges_by_node := ∅ |}.

(** The diagram by value: its lists read through the object stores. *)
Definition value_of (m : t) (d : Diagram.t loc loc) : Diagram.value :=
  {| Diagram.id := Diagram.id d; Diagram.name := Diagram.name d;
     Diagram.nodes := map (deref (node_store m)) (Diagram.nodes d);
     Diagram.edges := map (deref (edge_store m)) (Diagram.edges d);
     Diagram.metadata := Diagram.metadata d |}.

Definition diagram (m : t) : option Diagram.value := value_of m <$> _diagram m.

(** A diagram built by value becomes the active diagram: its nodes and edges
    are new objects. *)
Definition adopt (v : Diagram.value) (m : t) : t :=
  let '(ns, hn) := alloc_all (Diagram.nodes v) (node_store m) in
  let '(es, he) := alloc_all (Diagram.edges v) (edge_store m) in
  set_diagram
    (Some {| Diagram.id := Diagram.id v; Diagram.name := Diagram.name v;
             Diagram.nodes := ns; Diagram.edges := es;
             Diagram.metadata := Diagram.metadata v |})
    (set_edge_store he (set_node_store hn m)).

Definition set_nodes (ns : list loc) (d : Diagram.t loc loc) : Diagram.t loc loc :=
  {| Diagram.id := Diagram.id d; Diagram.name := Diagram.name d;
     Diagram.nodes := ns; Diagram.edges := Diagram.edges d;
     Diagram.metadata := Diagram.metadata d |}.

Definition set_edges (es : list loc) (d : Diagram.t loc loc) : Diagram.t loc loc :=
  {| Diagram.id := Diagram.id d; Diagram.name := Diagram.name d;
     Diagram.nodes := Diagram.nodes d; Diagram.edges := es;
     Diagram.metadata := Diagram.metadata d |}.

(** *** Index management *)

(** [if k not in idx: idx[k] = set()] then [idx[k].add(v)] *)
Definition index_add (k v : string) (idx : gmap string (gset string))
  : gmap string (gset string) :=
  <[k := {[v]} ∪ default ∅ (idx !! k)]> idx.

(** [if k in idx: idx[k].discard(v)] *)
Definition index_discard (k v : string) (idx : gmap string (gset string))
  : gmap string (gset string) :=
  match idx !! k with
  | Some s => <[k := s ∖ {[v]}]> idx
  | None => idx
  end.

Definition _index_node (node : loc) (m : t) : t :=
  let n := deref (node_store m) node in
  let m := set_node_index (<[Node.id n := node]> (_node_index m)) m in
  let m := set_tag_index
             (foldl (fun idx tag => index_add tag (Node.id n) idx)
                    (_tag_index m) (Node.tags n)) m in
  set_type_index (index_add (Node.type n) (Node.id n) (_type_index m)) m.

Definition _unindex_node (node : loc) (m : t) : t :=
  let n := deref (node_store m) node in
  let m := set_node_index (delete (Node.id n) (_node_index m)) m in
  let m := set_tag_index
             (foldl (fun idx tag => index_discard tag (Node.id n) idx)
                    (_tag_index m) (Node.tags n)) m in
  set_type_index (index_discard (Node.type n) (Node.id n) (_type_index m)) m.

Definition _index_edge (edge : loc) (m : t) : t :=
  let e := deref (edge_store m) edge in
  let m := set_edge_index (<[Edge.id e := edge]> (_edge_index m)) m in
  let m := set_edges_by_node
             (index_add (Edge.source e) (Edge.id e) (_edges_by_node m)) m in
  set_edges_by_node (index_add (Edge.target e) (Edge.id e) (_edges_by_node m)) m.

Definition _unindex_edge (edge : loc) (m : t) : t :=
  let e := deref (edge_store m) edge in
  let m := set_edge_index (delete (Edge.id e) (_edge_index m)) m in
  let m := set_edges_by_node
             (index_discard (Edge.source e) (Edge.id e) (_edges_by_node m)) m in
  set_edges_by_node (index_discard (Edge.target e) (Edge.id e) (_edges_by_node m)) m.

(** The loops of [_rebuild_indexes] have the bodies of [_index_node] and
    [_index_edge]. *)
Definition _rebuild_indexes (m : t) : t :=
  let m := set_node_index ∅ m in
  let m := set_edge_index ∅ m in
  let m := set_tag_index ∅ m in
  let m := set_type_index ∅ m in
  let m := set_edges_by_node ∅ m in
  match _diagram m with
  | None => m
  | Some d =>
      let m := foldl (fun m node => _index_node node m) m (Diagram.nodes d) in
      foldl (fun m edge => _index_edge edge m) m (Diagram.edges d)
  end.

(** *** Properties, callbacks, history *)

Definition can_undo (m : t) : bool :=
  match _history m with [] => false | _ :: _ => true end.

Definition can_redo (m : t) : bool :=
  match _future m with [] => false | _ :: _ => true end.

Definition _notify_change (m : t) : t := set_changes (S (changes m)) m.

(** [history.pop(0)] when the list is longer than [max_history]. *)
Definition trim (max_history : Z) (history : list dict) : list dict :=
  if (max_history <? Z.of_nat (length history))%Z then List.tl history else history.

Definition _save_to_history (m : t) : t :=
  match _diagram m with
  | None => m
  | Some d =>
      let m := set_future [] m in
      let snapshot := Diagram.to_json_dict (value_of m d) in
      let m := set_history (_history m ++ [snapshot]) m in
      set_history (trim (_max_history m) (_history m)) m
  end.

Definition _restore_from_snapshot (o : oracle) (snapshot : dict) : result Diagram.value :=
  Diagram.from_json_dict o snapshot.

(** *** File operations (without the file) *)

(** The diagram that [new_diagram] returns is [_diagram] of the new state. *)
Definition new_diagram (o : oracle) (name : string) (m : t) : t :=
  let m := adopt (Diagram.init o name) m in
  let m := set_history [] m in
  let m := set_future [] m in
  let m := set_dirty false m in
  let m := _rebuild_indexes m in
  _notify_change m.

(** *** Undo and redo *)

Definition undo (o : oracle) (m : t) : result (option (Diagram.t loc loc)) * t :=
  match _diagram m, last (_history m) with
  | Some d, Some snapshot =>
      let m := set_future (_future m ++ [Diagram.to_json_dict (value_of m d)]) m in
      let m := set_history (removelast (_history m)) m in
      match _restore_from_snapshot o snapshot with
      | Raise e => (Raise e, m)
      | Ok v =>
          let m := adopt v m in
          let m := set_dirty true m in
          let m := _rebuild_indexes m in
          let m := _notify_change m in
          (Ok (_diagram m), m)
      end
  | _, _ => (Ok None, m)
  end.

Definition redo (o : oracle) (m : t) : result (option (Diagram.t loc loc)) * t :=
  match _diagram m, last (_future m) with
  | Some d, Some snapshot =>
      let m := set_history (_history m ++ [Diagram.to_json_dict (value_of m d)]) m in
      let m := set_future (removelast (_future m)) m in
      match _restore_from_snapshot o snapshot with
      | Raise e => (Raise e, m)
      | Ok v =>
          let m := adopt v m in
          let m := set_dirty true m in
          let m := _rebuild_indexes m in
          let m := _notify_change m in
          (Ok (_diagram m), m)
      end
  | _, _ => (Ok None, m)
  end.

(** *** Node operations *)

Definition no_diagram {A : Type} : result A := Raise (ValueError "No diagram open").

(** [self._diagram.nodes = ...] and [self._diagram.edges = ...] *)
Definition assign_nodes (ns : list loc) (m : t) : t :=
  set_diagram (set_nodes ns <$> _diagram m) m.

Definition assign_edges (es : list loc) (m : t) : t :=
  set_diagram (set_edges es <$> _diagram m) m.

Definition nodes_of (m : t) : list loc :=
  match _diagram m with Some d => Diagram.nodes d | None => [] end.

Definition edges_of (m : t) : list loc :=
  match _diagram m with Some d => Diagram.edges d | None => [] end.

(** The node is returned by reference. *)
Definition add_node (o : oracle) (kwargs : NodeKwargs.t) (m : t) : result loc * t :=
  match _diagram m with
  | None => (no_diagram, m)
  | Some _ =>
      let m := _save_to_history m in
      let '(node, h) := alloc (NodeKwargs.init (generate_node_id o 0) kwargs) (node_store m) in
      let m := set_node_store h m in
      let m := assign_nodes (nodes_of m ++ [node]) m in
      let m := _index_node node m in
      let m := set_dirty true m in
      let m := _notify_change m in
      (Ok node, m)
  end.

Definition update_node (node_id : string) (kwargs : NodeKwargs.t) (m : t)
  : result (option loc) * t :=
  match _diagram m with
  | None => (no_diagram, m)
  | Some _ =>
      match _node_index m !! node_id with
      | None => (Ok None, m)
      | Some node =>
          let m := _save_to_history m in
          let old := deref (node_store m) node in
          let old_tags : gset string := list_to_set (Node.tags old) in
          let old_type := Node.type old in
          let m := set_node_store (store node (NodeKwargs.setattrs kwargs old) (node_store m)) m in
          let new := deref (node_store m) node in
          let new_tags : gset string := list_to_set (Node.tags new) in
          let m :=
            if bool_decide (old_tags ≠ new_tags) then
              let idx := foldl (fun idx tag => index_discard tag node_id idx)
                               (_tag_index m) (elements (old_tags ∖ new_tags)) in
              let idx := foldl (fun idx tag => index_add tag node_id idx)
                               idx (elements (new_tags ∖ old_tags)) in
              set_tag_index idx m
            else m in
          let m :=
            if bool_decide (old_type ≠ Node.type new) then
              set_type_index
                (index_add (Node.type new) node_id
                   (index_discard old_type node_id (_type_index m))) m
            else m in
          let m := set_dirty true m in
          let m := _notify_change m in
          (Ok (Some node), m)
      end
  end.

(** One iteration of the loop over [connected_edge_ids]. *)
Definition delete_connected (edge_id : string) (m : t) : t :=
  match _edge_index m !! edge_id with
  | None => m
  | Some edge =>
      let m := assign_edges
                 (filter (fun e => Edge.id (deref (edge_store m) e) ≠ edge_id) (edges_of m)) m in
      _unindex_edge edge m
  end.

Definition delete_node (node_id : string) (m : t) : result bool * t :=
  match _diagram m with
  | None => (no_diagram, m)
  | Some _ =>
      match _node_index m !! node_id with
      | None => (Ok false, m)
      | Some node =>
          let m := _save_to_history m in
          let m := assign_nodes
                     (filter (fun n => Node.id (deref (node_store m) n) ≠ node_id)
                             (nodes_of m)) m in
          let m := _unindex_node node m in
          let connected_edge_ids := default ∅ (_edges_by_node m !! node_id) in
          let m := foldl (fun m edge_id => delete_connected edge_id m) m
                         (elements connected_edge_ids) in
          let m := set_dirty true m in
          let m := _notify_change m in
          (Ok true, m)
      end
  end.

Definition get_node (node_id : string) (m : t) : option loc := _node_index m !! node_id.

(** *** Edge operations *)

(** [a or b] on [Optional[str]] *)
Definition or_else (a b : option string) : option string :=
  if Edge.truthy a then a else b.

Definition add_edge (o : oracle) (source target from_node to_node : option string)
    (label : string) (source_side target_side : option string) (m : t)
  : result loc * t :=
  match _diagram m with
  | None => (no_diagram, m)
  | Some _ =>
      let actual_source := or_else source from_node in
      let actual_target := or_else target to_node in
      match actual_source, actual_target with
      | Some src, Some tgt =>
          if negb (Edge.truthy actual_source) || negb (Edge.truthy actual_target)
          then (Raise (ValueError "Both source and target nodes must be specified"), m)
          else if bool_decide (src ∉ dom (_node_index m))
          then (Raise (ValueError ("Source node not found: " +:+ src)), m)
          else if bool_decide (tgt ∉ dom (_node_index m))
          then (Raise (ValueError ("Target node not found: " +:+ tgt)), m)
          else
            let m := _save_to_history m in
            let '(edge, h) :=
              alloc (Edge.init (generate_edge_id o 0) src tgt label source_side target_side)
                    (edge_store m) in
            let m := set_edge_store h m in
            let m := assign_edges (edges_of m ++ [edge]) m in
            let m := _index_edge edge m in
            let m := set_dirty true m in
            let m := _notify_change m in
            (Ok edge, m)
      | _, _ => (Raise (ValueError "Both source and target nodes must be specified"), m)
      end
  end.

Definition update_edge (edge_id : string) (kwargs : EdgeKwargs.t) (m : t)
  : result (option loc) * t :=
  match _diagram m with
  | None => (no_diagram, m)
  | Some _ =>
      match _edge_index m !! edge_id with
      | None => (Ok None, m)
      | Some edge =>
          let m := _save_to_history m in
          let m := set_edge_store
                     (store edge (EdgeKwargs.setattrs kwargs (deref (edge_store m) edge))
                            (edge_store m)) m in
          let m := set_dirty true m in
          let m := _notify_change m in
          (Ok (Some edge), m)
      end
  end.

Definition delete_edge (edge_id : string) (m : t) : result bool * t :=
  match _diagram m with
  | None => (no_diagram, m)
  | Some _ =>
      match _edge_index m !! edge_id with
      | None => (Ok false, m)
      | Some edge =>
          let m := _save_to_history m in
          let m := assign_edges
                     (filter (fun e => Edge.id (deref (edge_store m) e) ≠ edge_id)
                             (edges_of m)) m in
          let m := _unindex_edge edge m in
          let m := set_dirty true m in
          let m := _notify_change m in
          (Ok true, m)
      end
  end.

Definition get_edge (edge_id : string) (m : t) : option loc := _edge_index m !! edge_id.

(** *** Diagram info *)

Definition update_diagram_info (name : option string) (grid_size : option Z)
    (show_grid : option bool) (m : t) : result (Diagram.t loc loc) * t :=
  match _diagram m with
  | None => (no_diagram, m)
  | Some d =>
      let m := _save_to_history m in
      let md := Diagram.metadata d in
      let d :=
        {| Diagram.id := Diagram.id d;
           Diagram.name := default (Diagram.name d) name;
           Diagram.nodes := Diagram.nodes d; Diagram.edges := Diagram.edges d;
           Diagram.metadata :=
             {| created_at := created_at md; updated_at := updated_at md;
                grid_size := default (Models.grid_size md) grid_size;
                show_grid := default (Models.show_grid md) show_grid |} |} in
      let m := set_diagram (Some d) m in
      let m := set_dirty true m in
      let m := _notify_change m in
      (Ok d, m)
  end.

(** *** Bulk operations *)

Definition set_tags (v : list string) (n : Node.t) : Node.t :=
  {| Node.id := Node.id n; Node.label := Node.label n; Node.type := Node.type n;
     Node.shape := Node.shape n; Node.color := Node.color n;
     Node.x := Node.x n; Node.y := Node.y n;
     Node.width := Node.width n; Node.height := Node.height n;
     Node.tags := v; Node.description := Node.description n;
     Node.border_style := Node.border_style n; Node.fill_opacity := Node.fill_opacity n;
     Node.z_index := Node.z_index n; Node.rotation := Node.rotation n |}.

(** [list.remove(v)]: the first occurrence. *)
Fixpoint remove_first (v : string) (l : list string) : list string :=
  match l with
  | [] => []
  | a :: l => if String.eqb a v then l else a :: remove_first v l
  end.

(** [if tag not in node.tags: node.tags.append(tag)] and the index update. *)
Definition bulk_add_tag (node : loc) (node_id : string) (m : t) (tag : string) : t :=
  let n := deref (node_store m) node in
  if bool_decide (tag ∉ Node.tags n) then
    let m := set_node_store (store node (set_tags (Node.tags n ++ [tag]) n) (node_store m)) m in
    set_tag_index (index_add tag node_id (_tag_index m)) m
  else m.

(** [if tag in node.tags: node.tags.remove(tag)] and the index update. *)
Definition bulk_remove_tag (node : loc) (node_id : string) (m : t) (tag : string) : t :=
  let n := deref (node_store m) node in
  if bool_decide (tag ∈ Node.tags n) then
    let m := set_node_store
               (store node (set_tags (remove_first tag (Node.tags n)) n) (node_store m)) m in
    set_tag_index (index_discard tag node_id (_tag_index m)) m
  else m.

(** One iteration of the loop over [node_ids]; [if add_tags:] holds for a
    list that is given and not empty. *)
Definition bulk_update_node (add_tags remove_tags : option (list string))
    (st : t * list loc) (node_id : string) : t * list loc :=
  let '(m, updated) := st in
  match _node_index m !! node_id with
  | None => (m, updated)
  | Some node =>
      let m := foldl (bulk_add_tag node node_id) m (default [] add_tags) in
      let m := foldl (bulk_remove_tag node node_id) m (default [] remove_tags) in
      (m, updated ++ [node])
  end.

Definition bulk_update_tags (node_ids : list string)
    (add_tags remove_tags : option (list string)) (m : t) : result (list loc) * t :=
  match _diagram m with
  | None => (no_diagram, m)
  | Some _ =>
      let m := _save_to_history m in
      let '(m, updated) := foldl (bulk_update_node add_tags remove_tags) (m, []) node_ids in
      let m := match updated with
               | [] => m
               | _ :: _ => _notify_change (set_dirty true m)
               end in
      (Ok updated, m)
  end.

(** *** Layout operations *)

Definition align_nodes (node_ids : list string) (alignment : string) (m : t) : bool * t :=
  match _diagram m with
  | None => (false, m)
  | Some _ =>
      let m := _save_to_history m in
      let '(success, h) := Layout.align_nodes (node_store m) (nodes_of m) node_ids alignment in
      let m := set_node_store h m in
      let m := if success then _notify_change (set_dirty true m) else m in
      (success, m)
  end.

Definition distribute_nodes (node_ids : list string) (axis : string) (m : t) : bool * t :=
  match _diagram m with
  | None => (false, m)
  | Some _ =>
      let m := _save_to_history m in
      let '(success, h) := Layout.distribute_nodes (node_store m) (nodes_of m) node_ids axis in
      let m := set_node_store h m in
      let m := if success then _notify_change (set_dirty true m) else m in
      (success, m)
  end.

(** *** Queries *)

(** [[index[i] for i in ids if i in index]].  Python walks the set in an
    order of its own; [elements] stands for it. *)
Definition lookup_all {A} (index : gmap string A) (ids : gset string) : list A :=
  omap (fun i => index !! i) (elements ids).

Definition get_nodes_by_tag (tag : string) (m : t) : list loc :=
  match _tag_index m !! tag with
  | None => []
  | Some ids => lookup_all (_node_index m) ids
  end.

Definition get_nodes_by_type (node_type : string) (m : t) : list loc :=
  match _type_index m !! node_type with
  | None => []
  | Some ids => lookup_all (_node_index m) ids
  end.

Definition get_edges_for_node (node_id : string) (m : t) : list loc :=
  match _edges_by_node m !! node_id with
  | None => []
  | Some ids => lookup_all (_edge_index m) ids
  end.







End Manager.

(** ** Named snapshots ([backend/diagram_manager.py]) *)

Module Snapshots.
Import Models Heap Manager.

(** *** Named snapshots *)

(** One entry of [DiagramManager._snapshots], by its three keys. *)
Record entry := {
  e_diagram : dict;
  e_file_path : option string;
  e_created_at : string
}.

(** [DiagramManager._snapshots]: a dictionary of the class, so one for all
    managers; its keys in the order they were first written. *)
Definition snapshots := list (string * entry).

Fixpoint get (name : string) (s : snapshots) : option entry :=
  match s with
  | [] => None
  | (k, v) :: s => if String.eqb name k then Some v else get name s
  end.

(** [s[name] = v] *)
Fixpoint put (name : string) (v : entry) (s : snapshots) : snapshots :=
  match s with
  | [] => [(name, v)]
  | (k, v') :: s => if String.eqb name k then (k, v) :: s else (k, v') :: put name v s
  end.

(** [del s[name]]: the key goes, with its value. *)
Definition del (name : string) (s : snapshots) : snapshots :=
  List.filter (fun '(k, _) => negb (String.eqb name k)) s.

(** A manager with its [_file_path], the path as its text; the class-wide
    snapshots are passed along. *)
Record session := {
  manager : Manager.t;
  _file_path : option string
}.

Definition create_snapshot (o : oracle) (name : string) (ss : session) (s : snapshots)
  : result bool * snapshots :=
  match _diagram (manager ss) with
  | None => (no_diagram, s)
  | Some d =>
      (Ok true,
       put name {| e_diagram := Diagram.to_json_dict (value_of (manager ss) d);
                   e_file_path := _file_path ss;
                   e_created_at := Datetime.isoformat (utcnow o) |} s)
  end.

Definition list_snapshots (s : snapshots) : list (string * string) :=
  map (fun '(name, data) => (name, e_created_at data)) s.

Definition restore_snapshot (o : oracle) (name : string) (ss : session) (s : snapshots)
  : result (option (Diagram.t loc loc)) * session :=
  match get name s with
  | None => (Ok None, ss)
  | Some snapshot_data =>
      let m := _save_to_history (manager ss) in
      match Diagram.from_json_dict o (e_diagram snapshot_data) with
      | Raise e => (Raise e, {| manager := m; _file_path := _file_path ss |})
      | Ok v =>
          let m := adopt v m in
          let file_path :=
            if Edge.truthy (e_file_path snapshot_data) then e_file_path snapshot_data
            else _file_path ss in
          let m := set_dirty true m in
          let m := _rebuild_indexes m in
          let m := _notify_change m in
          (Ok (_diagram m), {| manager := m; _file_path := file_path |})
      end
  end.

Definition delete_snapshot (name : string) (s : snapshots) : bool * snapshots :=
  match get name s with
  | Some _ => (true, del name s)
  | None => (false, s)
  end.

End Snapshots.

(** ** Example data *)

Module Examples.
Import Models Heap.

Definition example_oracle : oracle :=
  {| uuid4_hex8 := fun k => "0000000" +:+ String (ascii_of_nat (48 + k)) EmptyString;
     utcnow := "2024-05-01T12:00:00" |}.

(** A manager with a new, empty diagram. *)
Definition empty_manager : Manager.t :=
  Manager.new_diagram example_oracle "Example" (Manager.init 100).

Definition kw (id label : string) (tags : list string) : NodeKwargs.t :=
  {| NodeKwargs.id := Some id; NodeKwargs.label := Some label; NodeKwargs.type := None;
     NodeKwargs.shape := None; NodeKwargs.color := None; NodeKwargs.x := None;
     NodeKwargs.y := None; NodeKwargs.width := None; NodeKwargs.height := None;
     NodeKwargs.tags := Some tags; NodeKwargs.description := None;
     NodeKwargs.border_style := None; NodeKwargs.fill_opacity := None;
     NodeKwargs.z_index := None; NodeKwargs.rotation := None |}.

(** Nodes [a], [b], [c] and the edges [a -> b], [b -> c]. *)
Definition abc_manager : Manager.t :=
  let m := empty_manager in
  let m := snd (Manager.add_node example_oracle (kw "a" "Alpha" ["front"]) m) in
  let m := snd (Manager.add_node example_oracle (kw "b" "Beta" ["front"; "db"]) m) in
  let m := snd (Manager.add_node example_oracle (kw "c" "Gamma" []) m) in
  let m := snd (Manager.add_edge {| uuid4_hex8 := fun _ => "0000ab01"; utcnow := "" |}
                  (Some "a") (Some "b") None None "" None None m) in
  let m := snd (Manager.add_edge {| uuid4_hex8 := fun _ => "0000bc02"; utcnow := "" |}
                  (Some "b") (Some "c") None None "" None None m) in
  m.

(** The diagram object of [abc_manager]. *)
Definition abc_diagram : Diagram.t loc loc :=
  {| Diagram.id := "diagram-00000000"; Diagram.name := "Example";
     Diagram.nodes := [0; 1; 2]; Diagram.edges := [0; 1];
     Diagram.metadata :=
       {| created_at := "2024-05-01T12:00:00"; updated_at := "2024-05-01T12:00:00";
          grid_size := 20; show_grid := true |} |}.

Definition empty_side_diagram : Diagram.t loc loc :=
  Manager.set_edges [0; 1; 2] abc_diagram.

(** [abc_manager] with a third edge, [c -> a], whose source side is the
    empty text. *)
Definition empty_side_manager : Manager.t :=
  snd (Manager.add_edge {| uuid4_hex8 := fun _ => "0000ca03"; utcnow := "" |}
         (Some "c") (Some "a") None None "" (Some "") None abc_manager).

End Examples.

(** * Properties *)

(** ** Serialization *)

Module ModelsFacts.
Import Models.

(** What a round trip through [to_json_dict] makes of an edge: a side that
    is set to the empty text is not written, and so is read back unset. *)
Definition normalize_side (s : option string) : option string :=
  if Edge.truthy s then s else None.

Definition normalize_edge (e : Edge.t) : Edge.t :=
  {| Edge.id := Edge.id e; Edge.source := Edge.source e; Edge.target := Edge.target e;
     Edge.label := Edge.label e;
     Edge.source_side := normalize_side (Edge.source_side e);
     Edge.target_side := normalize_side (Edge.target_side e);
     Edge.color := Edge.color e; Edge.width := Edge.width e; Edge.style := Edge.style e;
     Edge.arrow_start := Edge.arrow_start e; Edge.arrow_end := Edge.arrow_end e;
     Edge.arrow_size := Edge.arrow_size e |}.

Definition normalize (d : Diagram.value) : Diagram.value :=
  {| Diagram.id := Diagram.id d; Diagram.name := Diagram.name d;
     Diagram.nodes := Diagram.nodes d;
     Diagram.edges := map normalize_edge (Diagram.edges d);
     Diagram.metadata := Diagram.metadata d |}.

(** Every side of every edge is unset or a non-empty text. *)
Definition side_ok (s : option string) : Prop := s ≠ Some "".

Definition sides_ok (d : Diagram.value) : Prop :=
  Forall (fun e => side_ok (Edge.source_side e) /\ side_ok (Edge.target_side e))
         (Diagram.edges d).

Lemma normalize_side_ok s : side_ok s -> normalize_side s = s.
Proof.
  unfold side_ok, normalize_side, Edge.truthy. destruct s as [[|a s]|]; simpl; congruence.
Qed.

Lemma normalize_edge_ok e :
  side_ok (Edge.source_side e) -> side_ok (Edge.target_side e) -> normalize_edge e = e.
Proof.
  intros H1 H2. unfold normalize_edge. rewrite !normalize_side_ok by done. by destruct e.
Qed.

Lemma normalize_ok d : sides_ok d -> normalize d = d.
Proof.
  intros H. unfold normalize. replace (map normalize_edge (Diagram.edges d)) with (Diagram.edges d).
  - by destruct d.
  - induction H as [|e es [H1 H2] _ IH]; simpl; [done|].
    by rewrite normalize_edge_ok, <- IH.
Qed.

Lemma normalize_side_idem s : normalize_side (normalize_side s) = normalize_side s.
Proof. unfold normalize_side, Edge.truthy. destruct s as [[|a s]|]; reflexivity. Qed.

Lemma normalize_sides_ok d : sides_ok (normalize d).
Proof.
  unfold sides_ok, normalize. simpl. apply Forall_map, Forall_true. intros e. simpl.
  unfold side_ok, normalize_side, Edge.truthy.
  split; [destruct (Edge.source_side e) as [[|a s]|] | destruct (Edge.target_side e) as [[|a s]|]];
    simpl; congruence.
Qed.

Lemma str_list_map (l : list string) : str_list (map JStr l) = Ok l.
Proof. induction l as [|s l IH]; simpl; [done|]. by rewrite IH. Qed.

Lemma node_roundtrip (gen_id : string) (n : Node.t) :
  Node.of_dict gen_id (Node.model_dump n) = Ok n.
Proof.
  destruct n. unfold Node.model_dump, Node.of_dict. simpl.
  unfold field_str_list. simpl. rewrite str_list_map. reflexivity.
Qed.

Lemma edge_roundtrip (gen_id : string) (e : Edge.t) :
  Edge.of_dict gen_id (Edge.to_json_dict e) = Ok (normalize_edge e).
Proof.
  destruct e as [i s t l [[|a ss]|] [[|b ts]|] c w st a1 a2 sz]; reflexivity.
Qed.

Lemma parse_nodes_roundtrip o k (ns : list Node.t) :
  Diagram.parse_nodes o k (map (fun n => JDict (Node.model_dump n)) ns) = Ok ns.
Proof.
  revert k. induction ns as [|n ns IH]; intros k; [done|].
  cbn [map Diagram.parse_nodes]. rewrite node_roundtrip. simpl. by rewrite IH.
Qed.

Lemma parse_edges_roundtrip o k (es : list Edge.t) :
  Diagram.parse_edges o k (map (fun e => JDict (Edge.to_json_dict e)) es)
  = Ok (map normalize_edge es).
Proof.
  revert k. induction es as [|e es IH]; intros k; [done|].
  cbn [map Diagram.parse_edges]. rewrite edge_roundtrip. simpl. by rewrite IH.
Qed.

(** Reading back what [to_json_dict] wrote never fails and never consults the
    oracle: it gives the diagram, with empty sides unset. *)
Lemma from_to_json_dict o (d : Diagram.value) :
  Diagram.from_json_dict o (Diagram.to_json_dict d) = Ok (normalize d).
Proof.
  unfold Diagram.from_json_dict, Diagram.to_json_dict.
  cbn [dict_get String.eqb Ascii.eqb Bool.eqb].
  rewrite parse_edges_roundtrip. cbn [mbind result_bind].
  rewrite parse_nodes_roundtrip.
  destruct d as [i n ns es [c u g s]]. reflexivity.
Qed.

(** *** Dictionaries *)

Lemma dict_get_set k k' v d :
  dict_get k' (dict_set k v d) = if String.eqb k' k then Some v else dict_get k' d.
Proof.
  induction d as [|[k0 v0] d IH]; simpl.
  - by destruct (String.eqb k' k).
  - destruct (String.eqb_spec k k0) as [->|Hne]; simpl.
    + by destruct (String.eqb k' k0).
    + rewrite IH. destruct (String.eqb_spec k' k0) as [->|]; [|done].
      by destruct (String.eqb_spec k0 k) as [->|].
Qed.

Lemma dict_get_del k k' d :
  dict_get k' (dict_del k d) = if String.eqb k' k then None else dict_get k' d.
Proof.
  induction d as [|[k0 v0] d IH]; simpl.
  - by destruct (String.eqb k' k).
  - destruct (String.eqb_spec k k0) as [->|Hne]; simpl.
    + rewrite IH. by destruct (String.eqb k' k0).
    + rewrite IH. destruct (String.eqb_spec k' k0) as [->|]; [|done].
      by destruct (String.eqb_spec k0 k) as [->|].
Qed.

(** The first of the values that is present. *)
Definition first_of (a b : option json) : option json :=
  match a with Some v => Some v | None => b end.

(** [rename_key] moves the legacy value to the canonical key only when the
    canonical key is absent; other keys keep their values. *)
Lemma rename_key_canonical legacy canonical d :
  legacy ≠ canonical ->
  dict_get canonical (Edge.rename_key legacy canonical d)
  = first_of (dict_get canonical d) (dict_get legacy d).
Proof.
  intros Hne. unfold Edge.rename_key, dict_has, first_of.
  destruct (dict_get legacy d) as [v|] eqn:El, (dict_get canonical d) as [w|] eqn:Ec;
    simpl; try done.
  by rewrite dict_get_set, String.eqb_refl.
Qed.

Lemma rename_key_other legacy canonical k d :
  k ≠ legacy -> k ≠ canonical ->
  dict_get k (Edge.rename_key legacy canonical d) = dict_get k d.
Proof.
  intros H1 H2. unfold Edge.rename_key, dict_has.
  destruct (dict_get legacy d) as [v|] eqn:El, (dict_get canonical d) as [w|] eqn:Ec;
    simpl; try done.
  rewrite dict_get_set, dict_get_del.
  apply String.eqb_neq in H1, H2. by rewrite H1, H2.
Qed.

(** The second alias is not looked at once the first has been applied. *)
Lemma convert_legacy_source d :
  dict_get "source" (Edge.convert_legacy_fields d)
  = first_of (dict_get "source" d) (first_of (dict_get "from" d) (dict_get "from_node" d)).
Proof.
  unfold Edge.convert_legacy_fields.
  rewrite !(rename_key_other _ "target" "source") by done.
  rewrite (rename_key_canonical "from_node" "source") by done.
  rewrite (rename_key_canonical "from" "source") by done.
  rewrite (rename_key_other "from" "source" "from_node") by done.
  unfold first_of. by repeat case_match.
Qed.

Lemma convert_legacy_target d :
  dict_get "target" (Edge.convert_legacy_fields d)
  = first_of (dict_get "target" d) (first_of (dict_get "to" d) (dict_get "to_node" d)).
Proof.
  unfold Edge.convert_legacy_fields.
  rewrite (rename_key_canonical "to_node" "target") by done.
  rewrite (rename_key_canonical "to" "target") by done.
  rewrite (rename_key_other "to" "target" "to_node") by done.
  rewrite !(rename_key_other _ "source" "target") by done.
  rewrite !(rename_key_other _ "source" "to") by done.
  rewrite !(rename_key_other _ "source" "to_node") by done.
  unfold first_of. by repeat case_match.
Qed.

Definition endpoint_keys : list string :=
  ["source"; "target"; "from"; "to"; "from_node"; "to_node"].

Lemma convert_legacy_other k d :
  k ∉ endpoint_keys ->
  dict_get k (Edge.convert_legacy_fields d) = dict_get k d.
Proof.
  intros Hk. unfold Edge.convert_legacy_fields, endpoint_keys in *.
  rewrite !rename_key_other; try done; intros ->; apply Hk; set_solver.
Qed.

Definition legacy_keys : list string := ["from"; "to"; "from_node"; "to_node"].

(** Field validation reads the keys that name fields, and no other. *)
Lemma validate_ext gen_id d1 d2 :
  (forall k, k ∉ legacy_keys -> dict_get k d1 = dict_get k d2) ->
  Edge.validate gen_id d1 = Edge.validate gen_id d2.
Proof.
  intros H. unfold legacy_keys in H.
  assert (Hk : forall k, bool_decide (k ∉ legacy_keys) = true -> dict_get k d1 = dict_get k d2).
  { intros k Hk. apply H. by apply bool_decide_eq_true in Hk. }
  unfold Edge.validate, field_str, field_str_required, field_opt_str, field_float.
  rewrite (Hk "id"), (Hk "source"), (Hk "target"), (Hk "label"), (Hk "source_side"),
    (Hk "target_side"), (Hk "color"), (Hk "width"), (Hk "style"), (Hk "arrow_start"),
    (Hk "arrow_end"), (Hk "arrow_size") by reflexivity.
  reflexivity.
Qed.

(** *** Input documents

    An edge of an input document is given by its two endpoints, written with
    one of the three pairs of keys, and by its other keys. *)

Inductive naming := Canonical | FromTo | FromNodeToNode.

Record edge_input := {
  in_source : string;
  in_target : string;
  in_rest : dict
}.

Definition edge_dict (nm : naming) (i : edge_input) : dict :=
  match nm with
  | Canonical =>
      ("source", JStr (in_source i)) :: ("target", JStr (in_target i)) :: in_rest i
  | FromTo =>
      ("from", JStr (in_source i)) :: ("to", JStr (in_target i)) :: in_rest i
  | FromNodeToNode =>
      ("from_node", JStr (in_source i)) :: ("to_node", JStr (in_target i)) :: in_rest i
  end.

Definition no_endpoint_key (rest : dict) : Prop :=
  forall k, k ∈ endpoint_keys -> dict_get k rest = None.

(** The document with the keys of [top] (id, name, nodes, metadata) and the
    given edges. *)
Definition document (top : dict) (edges : list (naming * edge_input)) : dict :=
  ("edges", JList (map (fun e => JDict (edge_dict (fst e) (snd e))) edges)) :: top.

(** The same document with every edge written with [source] and [target]. *)
Definition direct (edges : list (naming * edge_input)) : list (naming * edge_input) :=
  map (fun e => (Canonical, snd e)) edges.

Lemma edge_dict_naming gen_id nm i :
  no_endpoint_key (in_rest i) ->
  Edge.of_dict gen_id (edge_dict nm i) = Edge.of_dict gen_id (edge_dict Canonical i).
Proof.
  intros Hrest. unfold Edge.of_dict. apply validate_ext. intros k Hk.
  assert (Hr : forall k', bool_decide (k' ∈ endpoint_keys) = true -> dict_get k' (in_rest i) = None).
  { intros k' Hk'. apply Hrest. by apply bool_decide_eq_true in Hk'. }
  destruct (decide (k = "source")) as [->|Hs].
  { rewrite !convert_legacy_source. destruct nm; simpl; by rewrite ?Hr. }
  destruct (decide (k = "target")) as [->|Ht].
  { rewrite !convert_legacy_target. destruct nm; simpl; by rewrite ?Hr. }
  assert (Hne : k ∉ endpoint_keys).
  { intros Hin. apply Hk. unfold endpoint_keys, legacy_keys in *.
    rewrite !elem_of_cons in Hin. rewrite !elem_of_cons. tauto. }
  rewrite !convert_legacy_other by done.
  assert (Hf : forall k', k' ∈ endpoint_keys -> String.eqb k k' = false).
  { intros k' Hk'. apply String.eqb_neq. intros ->. done. }
  unfold endpoint_keys in Hf.
  destruct nm; simpl; rewrite ?Hf; try done;
    repeat first [apply list_elem_of_here | apply list_elem_of_further].
Qed.

Lemma parse_edges_naming o k (edges : list (naming * edge_input)) :
  Forall (fun e => no_endpoint_key (in_rest (snd e))) edges ->
  Diagram.parse_edges o k (map (fun e => JDict (edge_dict (fst e) (snd e))) edges)
  = Diagram.parse_edges o k
      (map (fun e => JDict (edge_dict (fst e) (snd e))) (direct edges)).
Proof.
  intros H. revert k. induction H as [|[nm i] edges Hi _ IH]; intros k; [done|].
  cbn [map Diagram.parse_edges fst snd direct]. rewrite (edge_dict_naming _ nm) by done.
  unfold direct in IH. by rewrite IH.
Qed.

Lemma from_json_dict_naming o top edges :
  Forall (fun e => no_endpoint_key (in_rest (snd e))) edges ->
  Diagram.from_json_dict o (document top edges)
  = Diagram.from_json_dict o (document top (direct edges)).
Proof.
  intros H. unfold Diagram.from_json_dict, document.
  cbn [dict_get String.eqb Ascii.eqb Bool.eqb]. by rewrite parse_edges_naming.
Qed.

(** C6 (amended).  Take an input document whose edges are written with
    [from]/[to] (or [from_node]/[to_node]) and the document that writes the
    same edges with [source]/[target].  Both build the same diagram; when no
    edge of it has an empty side, serializing that diagram and reading it
    back gives it again, field for field.  In every edge the canonical key
    wins over [from], and [from] over [from_node] (likewise for the target):
    a legacy key is used only when the canonical key is absent. *)
Theorem legacy_round_trip
    (o o' : oracle) (top : dict) (edges : list (naming * edge_input)) (d : Diagram.value) :
  Forall (fun e => no_endpoint_key (in_rest (snd e))) edges ->
  Diagram.from_json_dict o (document top (direct edges)) = Ok d ->
  sides_ok d ->
  Diagram.from_json_dict o (document top edges) = Ok d /\
  Diagram.from_json_dict o' (Diagram.to_json_dict d) = Ok d /\
  (forall e : dict,
     dict_get "source" (Edge.convert_legacy_fields e)
     = first_of (dict_get "source" e) (first_of (dict_get "from" e) (dict_get "from_node" e)) /\
     dict_get "target" (Edge.convert_legacy_fields e)
     = first_of (dict_get "target" e) (first_of (dict_get "to" e) (dict_get "to_node" e)) /\
     (forall k, k ∉ endpoint_keys ->
        dict_get k (Edge.convert_legacy_fields e) = dict_get k e)).
Proof.
  intros Hrest Hd Hsides. split; [|split].
  - by rewrite from_json_dict_naming.
  - by rewrite from_to_json_dict, normalize_ok.
  - intros e. split; [apply convert_legacy_source|].
    split; [apply convert_legacy_target|]. intros k. apply convert_legacy_other.
Qed.

(** An input document with one node, non-default metadata and one edge
    written with [from]/[to]. *)
Definition example_top : dict :=
  [("id", JStr "diagram-1"); ("name", JStr "Legacy");
   ("nodes", JList [JDict [("id", JStr "n1"); ("label", JStr "Only")]]);
   ("metadata", JDict [("created_at", JStr "2023-01-02T03:04:05");
                       ("updated_at", JStr "2023-06-07T08:09:10");
                       ("grid_size", JInt 8); ("show_grid", JBool false)])].

Definition example_edges (side : string) : list (naming * edge_input) :=
  [(FromTo, {| in_source := "n1"; in_target := "n1";
               in_rest := [("id", JStr "e1"); ("source_side", JStr side)] |})].

Definition example_diagram (side : string) : Diagram.value :=
  {| Diagram.id := "diagram-1"; Diagram.name := "Legacy";
     Diagram.nodes := [NodeKwargs.init "n1" (Examples.kw "n1" "Only" [])];
     Diagram.edges := [Edge.init "e1" "n1" "n1" "" (Some side) None];
     Diagram.metadata := {| created_at := "2023-01-02T03:04:05";
                            updated_at := "2023-06-07T08:09:10";
                            grid_size := 8; show_grid := false |} |}.

Lemma legacy_round_trip_witness :
  Diagram.from_json_dict Examples.example_oracle (document example_top (example_edges "left"))
  = Ok (example_diagram "left") /\
  Diagram.from_json_dict Examples.example_oracle
    (Diagram.to_json_dict (example_diagram "left"))
  = Ok (example_diagram "left").
Proof.
  assert (Hrest : Forall (fun e => no_endpoint_key (in_rest (snd e))) (example_edges "left")).
  { repeat constructor. intros k Hk. unfold endpoint_keys in Hk.
    repeat (apply elem_of_cons in Hk as [->|Hk]; [reflexivity|]).
    by apply elem_of_nil in Hk. }
  assert (Hsides : sides_ok (example_diagram "left")).
  { repeat constructor; simpl; unfold side_ok; congruence. }
  destruct (legacy_round_trip Examples.example_oracle Examples.example_oracle
              example_top (example_edges "left") (example_diagram "left")
              Hrest ltac:(vm_compute; reflexivity) Hsides) as (H1 & H2 & _).
  split; [exact H1 | exact H2].
Defined.

(** C6 as stated fails: an edge whose side is the empty text is read back
    with that side unset. *)
Lemma legacy_round_trip_counterexample :
  ~ (forall (o o' : oracle) (top : dict) (edges : list (naming * edge_input))
            (d : Diagram.value),
       Forall (fun e => no_endpoint_key (in_rest (snd e))) edges ->
       Diagram.from_json_dict o (document top (direct edges)) = Ok d ->
       forall d', Diagram.from_json_dict o (document top edges) = Ok d' ->
                  Diagram.from_json_dict o' (Diagram.to_json_dict d') = Ok d).
Proof.
  intros H.
  assert (Hrest : Forall (fun e => no_endpoint_key (in_rest (snd e))) (example_edges "")).
  { repeat constructor. intros k Hk. unfold endpoint_keys in Hk.
    repeat (apply elem_of_cons in Hk as [->|Hk]; [reflexivity|]).
    by apply elem_of_nil in Hk. }
  specialize (H Examples.example_oracle Examples.example_oracle example_top
                (example_edges "") (example_diagram "") Hrest
                ltac:(vm_compute; reflexivity)
                (example_diagram "") ltac:(vm_compute; reflexivity)).
  vm_compute in H. discriminate H.
Qed.

End ModelsFacts.

(** ** Layout: the boundary cases of align and distribute *)

Module LayoutFacts.
Import Models Heap.

(** C9. [align_nodes] with a target subset that matches fewer than 2 nodes
    returns [False] and leaves every node (so every position) as it was;
    [distribute_nodes] with a target subset that matches fewer than 3 nodes
    does the same. *)
Theorem align_distribute_boundary
    (h : list Node.t) (nodes : list loc) (ids_a ids_d : list string)
    (alignment axis : string) :
  length (Layout.targets h nodes ids_a) < 2 ->
  length (Layout.targets h nodes ids_d) < 3 ->
  Layout.align_nodes h nodes ids_a alignment = (false, h) /\
  Layout.distribute_nodes h nodes ids_d axis = (false, h).
Proof.
  intros Ha Hd. unfold Layout.align_nodes, Layout.distribute_nodes.
  apply Nat.ltb_lt in Ha, Hd. rewrite Ha, Hd. split; reflexivity.
Qed.

Lemma align_distribute_boundary_witness :
  let h := Manager.node_store Examples.abc_manager in
  let nodes := Manager.nodes_of Examples.abc_manager in
  Layout.align_nodes h nodes ["a"] "left" = (false, h) /\
  Layout.distribute_nodes h nodes ["a"; "b"] "horizontal" = (false, h).
Proof.
  apply (align_distribute_boundary _ _ ["a"] ["a"; "b"] "left" "horizontal");
    vm_compute; lia.
Defined.

End LayoutFacts.

(** ** The history engine *)

Module HistoryFacts.
Import Models Heap Manager.

Lemma save_history m d :
  _diagram m = Some d ->
  _history (_save_to_history m)
  = trim (_max_history m) (_history m ++ [Diagram.to_json_dict (value_of m d)]).
Proof. intros Hd. unfold _save_to_history. rewrite Hd. reflexivity. Qed.

Lemma save_future m d : _diagram m = Some d -> _future (_save_to_history m) = [].
Proof. intros Hd. unfold _save_to_history. rewrite Hd. reflexivity. Qed.

Lemma save_other m :
  _diagram (_save_to_history m) = _diagram m /\
  node_store (_save_to_history m) = node_store m /\
  edge_store (_save_to_history m) = edge_store m /\
  _max_history (_save_to_history m) = _max_history m /\
  _node_index (_save_to_history m) = _node_index m /\
  _edge_index (_save_to_history m) = _edge_index m /\
  _tag_index (_save_to_history m) = _tag_index m /\
  _type_index (_save_to_history m) = _type_index m /\
  _edges_by_node (_save_to_history m) = _edges_by_node m.
Proof.
  unfold _save_to_history. destruct (_diagram m) eqn:E; repeat split; simpl; auto.
Qed.




(** *** Calls that leave the history alone *)

(** [same_log m m']: from [m] to [m'] the two stacks and the bound are
    unchanged and an active diagram stays active. *)
Record same_log (m m' : t) : Prop := {
  sl_history : _history m' = _history m;
  sl_future : _future m' = _future m;
  sl_max : _max_history m' = _max_history m;
  sl_active : is_Some (_diagram m) -> is_Some (_diagram m')
}.

Lemma same_log_refl m : same_log m m.
Proof. by constructor. Qed.

Lemma same_log_trans m1 m2 m3 : same_log m1 m2 -> same_log m2 m3 -> same_log m1 m3.
Proof.
  intros [] []. constructor; try congruence. auto.
Qed.

Lemma same_log_foldl {A} (f : t -> A -> t) (l : list A) m :
  (forall m a, same_log m (f m a)) -> same_log m (foldl f m l).
Proof.
  intros Hf. revert m. induction l as [|a l IH]; intros m; simpl.
  - apply same_log_refl.
  - eapply same_log_trans; [apply Hf | apply IH].
Qed.

Ltac same_log_fields :=
  constructor; simpl; try reflexivity;
  try (intros [? ->]; simpl; eauto); try (intros [? E]; rewrite ?E; simpl; eauto).

Lemma same_log_assign_nodes ns m : same_log m (assign_nodes ns m).
Proof. unfold assign_nodes. same_log_fields. Qed.

Lemma same_log_assign_edges es m : same_log m (assign_edges es m).
Proof. unfold assign_edges. same_log_fields. Qed.

Lemma same_log_index_node l m : same_log m (_index_node l m).
Proof. unfold _index_node. by constructor. Qed.

Lemma same_log_unindex_node l m : same_log m (_unindex_node l m).
Proof. unfold _unindex_node. by constructor. Qed.

Lemma same_log_index_edge l m : same_log m (_index_edge l m).
Proof. unfold _index_edge. by constructor. Qed.

Lemma same_log_unindex_edge l m : same_log m (_unindex_edge l m).
Proof. unfold _unindex_edge. by constructor. Qed.

Lemma same_log_delete_connected m edge_id : same_log m (delete_connected edge_id m).
Proof.
  unfold delete_connected. case_match; [|apply same_log_refl].
  eapply same_log_trans; [apply same_log_assign_edges | apply same_log_unindex_edge].
Qed.

Lemma same_log_bulk_add_tag node node_id m tag : same_log m (bulk_add_tag node node_id m tag).
Proof. unfold bulk_add_tag. case_match; by constructor. Qed.

Lemma same_log_bulk_remove_tag node node_id m tag :
  same_log m (bulk_remove_tag node node_id m tag).
Proof. unfold bulk_remove_tag. case_match; by constructor. Qed.

Lemma same_log_bulk_step add_tags remove_tags st node_id :
  same_log st.1 (bulk_update_node add_tags remove_tags st node_id).1.
Proof.
  destruct st as [m updated]. unfold bulk_update_node.
  case_match; simpl; [|apply same_log_refl].
  eapply same_log_trans;
    [|apply same_log_foldl; intros; apply same_log_bulk_remove_tag].
  apply same_log_foldl; intros; apply same_log_bulk_add_tag.
Qed.

Lemma same_log_bulk_update add_tags remove_tags node_ids st :
  same_log st.1 (foldl (bulk_update_node add_tags remove_tags) st node_ids).1.
Proof.
  revert st. induction node_ids as [|i l IH]; intros st; simpl.
  - apply same_log_refl.
  - eapply same_log_trans; [apply same_log_bulk_step | apply IH].
Qed.

Lemma same_log_rebuild m : same_log m (_rebuild_indexes m).
Proof.
  unfold _rebuild_indexes. simpl. destruct (_diagram m) as [d|] eqn:Hd.
  - eapply same_log_trans; [|apply same_log_foldl; intros; apply same_log_index_edge].
    eapply same_log_trans; [|apply same_log_foldl; intros; apply same_log_index_node].
    by constructor.
  - by constructor.
Qed.

Lemma same_log_save m d :
  _diagram m = Some d ->
  _history (_save_to_history m)
    = trim (_max_history m) (_history m ++ [Diagram.to_json_dict (value_of m d)]) /\
  _future (_save_to_history m) = [] /\
  _max_history (_save_to_history m) = _max_history m /\
  is_Some (_diagram (_save_to_history m)).
Proof.
  intros Hd. destruct (save_other m) as (Hdg & _ & _ & Hmax & _).
  rewrite (save_history m d Hd), (save_future m d Hd), Hmax, Hdg, Hd. eauto.
Qed.

(** *** Sequences of mutating calls *)

Inductive op :=
| AddNode (o : oracle) (kwargs : NodeKwargs.t)
| UpdateNode (node_id : string) (kwargs : NodeKwargs.t)
| DeleteNode (node_id : string)
| AddEdge (o : oracle) (source target from_node to_node : option string) (label : string)
    (source_side target_side : option string)
| UpdateEdge (edge_id : string) (kwargs : EdgeKwargs.t)
| DeleteEdge (edge_id : string)
| BulkUpdateTags (node_ids : list string) (add_tags remove_tags : option (list string))
| UpdateDiagramInfo (name : option string) (grid_size : option Z) (show_grid : option bool).

Definition is_ok {A} (r : result A) : bool :=
  match r with Ok _ => true | Raise _ => false end.

Definition is_found {A} (r : result (option A)) : bool :=
  match r with Ok (Some _) => true | _ => false end.

Definition is_true (r : result bool) : bool :=
  match r with Ok b => b | Raise _ => false end.

(** [call a m]: whether the call went through (it neither raised nor
    answered [None] or [False]), and the state it leaves. *)
Definition call (a : op) (m : t) : bool * t :=
  match a with
  | AddNode o kwargs => let '(r, m) := add_node o kwargs m in (is_ok r, m)
  | UpdateNode node_id kwargs => let '(r, m) := update_node node_id kwargs m in (is_found r, m)
  | DeleteNode node_id => let '(r, m) := delete_node node_id m in (is_true r, m)
  | AddEdge o source target from_node to_node label source_side target_side =>
      let '(r, m) := add_edge o source target from_node to_node label
                       source_side target_side m in
      (is_ok r, m)
  | UpdateEdge edge_id kwargs => let '(r, m) := update_edge edge_id kwargs m in (is_found r, m)
  | DeleteEdge edge_id => let '(r, m) := delete_edge edge_id m in (is_true r, m)
  | BulkUpdateTags node_ids add_tags remove_tags =>
      let '(r, m) := bulk_update_tags node_ids add_tags remove_tags m in (is_ok r, m)
  | UpdateDiagramInfo name grid_size show_grid =>
      let '(r, m) := update_diagram_info name grid_size show_grid m in (is_ok r, m)
  end.

Fixpoint run (ops : list op) (m : t) : t :=
  match ops with
  | [] => m
  | a :: ops => run ops (call a m).2
  end.

(** Every call of the sequence goes through, in the state it is made in. *)
Fixpoint all_mutate (ops : list op) (m : t) : Prop :=
  match ops with
  | [] => True
  | a :: ops => (call a m).1 = true /\ all_mutate ops (call a m).2
  end.

Fixpoint undo_times (o : oracle) (n : nat) (m : t) : t :=
  match n with
  | O => m
  | S n => undo_times o n (undo o m).2
  end.

Fixpoint redo_times (o : oracle) (n : nat) (m : t) : t :=
  match n with
  | O => m
  | S n => redo_times o n (redo o m).2
  end.

Lemma same_log_notify m : same_log m (_notify_change m).
Proof. by constructor. Qed.

Lemma same_log_dirty b m : same_log m (set_dirty b m).
Proof. by constructor. Qed.

Lemma same_log_node_store h m : same_log m (set_node_store h m).
Proof. by constructor. Qed.

Lemma same_log_edge_store h m : same_log m (set_edge_store h m).
Proof. by constructor. Qed.

Lemma same_log_tag_index i m : same_log m (set_tag_index i m).
Proof. by constructor. Qed.

Lemma same_log_type_index i m : same_log m (set_type_index i m).
Proof. by constructor. Qed.

Lemma same_log_node_index i m : same_log m (set_node_index i m).
Proof. by constructor. Qed.

Lemma same_log_edge_index i m : same_log m (set_edge_index i m).
Proof. by constructor. Qed.

Lemma same_log_edges_by_node i m : same_log m (set_edges_by_node i m).
Proof. by constructor. Qed.

Ltac log_step :=
  first [ apply same_log_notify | apply same_log_dirty
        | apply same_log_node_store | apply same_log_edge_store
        | apply same_log_tag_index | apply same_log_type_index
        | apply same_log_node_index | apply same_log_edge_index
        | apply same_log_edges_by_node
        | apply same_log_assign_nodes | apply same_log_assign_edges
        | apply same_log_index_node | apply same_log_unindex_node
        | apply same_log_index_edge | apply same_log_unindex_edge
        | apply same_log_foldl; intros; apply same_log_delete_connected ].

Ltac log_chain :=
  repeat first [ apply same_log_refl | eapply same_log_trans; [|log_step] ].

(** A call that goes through has pushed the diagram it found and emptied the
    redo stack. *)
Lemma call_pushes a m d :
  _diagram m = Some d ->
  (call a m).1 = true ->
  same_log (_save_to_history m) (call a m).2.
Proof.
  intros Hd Hok. destruct a; simpl in *.
  - unfold add_node in *. rewrite Hd in *. simpl. log_chain.
  - unfold update_node in *. rewrite Hd in *.
    destruct (_node_index m !! node_id); [|done]. simpl.
    repeat case_match; log_chain.
  - unfold delete_node in *. rewrite Hd in *.
    destruct (_node_index m !! node_id); [|done]. simpl. log_chain.
  - unfold add_edge in *. rewrite Hd in *.
    repeat case_match; simplify_eq/=; try done; log_chain.
  - unfold update_edge in *. rewrite Hd in *.
    destruct (_edge_index m !! edge_id); [|done]. simpl. log_chain.
  - unfold delete_edge in *. rewrite Hd in *.
    destruct (_edge_index m !! edge_id); [|done]. simpl. log_chain.
  - unfold bulk_update_tags in *. rewrite Hd in *.
    pose proof (same_log_bulk_update add_tags remove_tags node_ids (_save_to_history m, [])) as H.
    destruct (foldl _ _ _) as [m' updated]. simpl in *.
    destruct updated; [done|]. eapply same_log_trans; [exact H | log_chain].
  - unfold update_diagram_info in *. rewrite Hd in *. simpl. by constructor.
Qed.

(** *** Installing a diagram read from a snapshot *)

Lemma alloc_all_spec {A} (vs h : list A) :
  alloc_all vs h = (seq (length h) (length vs), h ++ vs).
Proof.
  revert h. induction vs as [|v vs IH]; intros h; simpl.
  - by rewrite app_nil_r.
  - rewrite IH, length_app, <- app_assoc. simpl. by rewrite Nat.add_1_r.
Qed.

Lemma deref_fresh {A} `{!Inhabited A} (vs h : list A) :
  map (deref (h ++ vs)) (seq (length h) (length vs)) = vs.
Proof.
  revert h. induction vs as [|v vs IH]; intros h; simpl; [done|]. f_equal.
  - unfold deref. by rewrite list_lookup_total_middle.
  - specialize (IH (h ++ [v])). rewrite length_app, Nat.add_1_r, <- app_assoc in IH.
    exact IH.
Qed.

Lemma diagram_adopt v m : diagram (adopt v m) = Some v.
Proof.
  unfold adopt. rewrite !alloc_all_spec. unfold diagram, value_of. simpl.
  rewrite !deref_fresh. by destruct v.
Qed.

(** [same_diagram m m']: the diagram object and the objects are unchanged. *)
Record same_diagram (m m' : t) : Prop := {
  sd_diagram : _diagram m' = _diagram m;
  sd_nodes : node_store m' = node_store m;
  sd_edges : edge_store m' = edge_store m
}.

Lemma same_diagram_value m m' : same_diagram m m' -> diagram m' = diagram m.
Proof. intros [H1 H2 H3]. unfold diagram, value_of. by rewrite H1, H2, H3. Qed.

Lemma same_diagram_foldl {A} (f : t -> A -> t) (l : list A) m :
  (forall m a, same_diagram m (f m a)) -> same_diagram m (foldl f m l).
Proof.
  intros Hf. revert m. induction l as [|a l IH]; intros m; simpl; [by constructor|].
  pose proof (Hf m a) as [? ? ?]. pose proof (IH (f m a)) as [? ? ?].
  constructor; etransitivity; eauto.
Qed.

Lemma same_diagram_rebuild m : same_diagram m (_rebuild_indexes m).
Proof.
  unfold _rebuild_indexes. simpl. destruct (_diagram m) as [d|] eqn:Hd; [|by constructor].
  pose proof (same_diagram_foldl (fun m edge => _index_edge edge m) (Diagram.edges d)) as He.
  pose proof (same_diagram_foldl (fun m node => _index_node node m) (Diagram.nodes d)) as Hn.
  match goal with |- same_diagram _ (foldl _ (foldl _ ?m0 _) _) =>
    destruct (Hn m0) as [? ? ?]; [by constructor|];
    destruct (He (foldl (fun m node => _index_node node m) m0 (Diagram.nodes d)))
      as [? ? ?]; [by constructor|]
  end.
  simpl in *. constructor; congruence.
Qed.

Lemma same_log_adopt v m : same_log m (adopt v m).
Proof.
  unfold adopt. rewrite !alloc_all_spec. constructor; try reflexivity.
  intros _. simpl. eauto.
Qed.

Lemma same_diagram_notify m : same_diagram m (_notify_change m).
Proof. constructor; reflexivity. Qed.

Lemma same_diagram_dirty b m : same_diagram m (set_dirty b m).
Proof. constructor; reflexivity. Qed.

(** The state after the restore step shared by [undo] and [redo]. *)
Lemma restored v m :
  let m' := _notify_change (_rebuild_indexes (set_dirty true (adopt v m))) in
  diagram m' = Some v /\ same_log m m'.
Proof.
  intros m'. subst m'. split.
  - rewrite (same_diagram_value _ _ (same_diagram_notify _)).
    rewrite (same_diagram_value _ _ (same_diagram_rebuild _)).
    rewrite (same_diagram_value _ _ (same_diagram_dirty _ _)).
    apply diagram_adopt.
  - eapply same_log_trans; [|apply same_log_notify].
    eapply same_log_trans; [|apply same_log_rebuild].
    eapply same_log_trans; [|apply same_log_dirty].
    apply same_log_adopt.
Qed.

(** *** One undo, one redo *)

Lemma undo_step o m d h v :
  _diagram m = Some d ->
  _history m = h ++ [Diagram.to_json_dict v] ->
  diagram (undo o m).2 = Some (ModelsFacts.normalize v) /\
  _history (undo o m).2 = h /\
  _future (undo o m).2 = _future m ++ [Diagram.to_json_dict (value_of m d)] /\
  _max_history (undo o m).2 = _max_history m.
Proof.
  intros Hd Hh. unfold undo. rewrite Hd, Hh, last_snoc.
  unfold _restore_from_snapshot. rewrite ModelsFacts.from_to_json_dict.
  cbn [snd].
  match goal with |- context [adopt ?v ?m0] =>
    destruct (restored v m0) as (R1 & [R2 R3 R4 _])
  end.
  rewrite R1, R2, R3, R4. cbn [set_history set_future _history _future _max_history].
  by rewrite Hh, removelast_last.
Qed.

Lemma redo_step o m d f v :
  _diagram m = Some d ->
  _future m = f ++ [Diagram.to_json_dict v] ->
  diagram (redo o m).2 = Some (ModelsFacts.normalize v) /\
  _future (redo o m).2 = f /\
  _history (redo o m).2 = _history m ++ [Diagram.to_json_dict (value_of m d)] /\
  _max_history (redo o m).2 = _max_history m.
Proof.
  intros Hd Hf. unfold redo. rewrite Hd, Hf, last_snoc.
  unfold _restore_from_snapshot. rewrite ModelsFacts.from_to_json_dict.
  cbn [snd].
  match goal with |- context [adopt ?v ?m0] =>
    destruct (restored v m0) as (R1 & [R2 R3 R4 _])
  end.
  rewrite R1, R2, R3, R4. cbn [set_history set_future _history _future _max_history].
  by rewrite Hf, removelast_last.
Qed.

(** *** Undo and redo, several times *)

Lemma diagram_active m v : diagram m = Some v -> exists d, _diagram m = Some d /\ value_of m d = v.
Proof.
  unfold diagram. destruct (_diagram m) as [d|]; [|discriminate].
  intros [= <-]. eauto.
Qed.

Lemma undo_times_spec o (vs : list Diagram.value) :
  forall v0 m d pre,
    _diagram m = Some d ->
    _history m = pre ++ map Diagram.to_json_dict (v0 :: vs) ->
    let m' := undo_times o (S (length vs)) m in
    diagram m' = Some (ModelsFacts.normalize v0) /\
    _history m' = pre /\
    _future m' = _future m
                 ++ map Diagram.to_json_dict
                      (value_of m d :: rev (map ModelsFacts.normalize vs)) /\
    _max_history m' = _max_history m.
Proof.
  induction vs as [|v vs IH] using rev_ind; intros v0 m d pre Hd Hh.
  - exact (undo_step o m d pre v0 Hd Hh).
  - rewrite length_app, Nat.add_1_r. cbn [undo_times].
    change (v0 :: vs ++ [v]) with ((v0 :: vs) ++ [v]) in Hh.
    rewrite map_app, app_assoc in Hh.
    destruct (undo_step o m d _ v Hd Hh) as (U1 & U2 & U3 & U4).
    destruct (diagram_active _ _ U1) as (d1 & Hd1 & Hv1).
    destruct (IH v0 _ d1 pre Hd1 U2) as (I1 & I2 & I3 & I4).
    cbn [undo_times] in I1, I2, I3, I4.
    split; [exact I1|]. split; [exact I2|]. split; [|congruence].
    rewrite I3, U3, Hv1, (map_app ModelsFacts.normalize).
    change (map ModelsFacts.normalize [v]) with [ModelsFacts.normalize v].
    rewrite rev_unit, <- app_assoc. reflexivity.
Qed.

Lemma redo_times_spec o (ws : list Diagram.value) :
  forall w0 m d pre,
    _diagram m = Some d ->
    _future m = pre ++ map Diagram.to_json_dict (w0 :: ws) ->
    diagram (redo_times o (S (length ws)) m) = Some (ModelsFacts.normalize w0).
Proof.
  induction ws as [|w ws IH] using rev_ind; intros w0 m d pre Hd Hf.
  - exact (proj1 (redo_step o m d pre w0 Hd Hf)).
  - rewrite length_app, Nat.add_1_r. cbn [redo_times].
    change (w0 :: ws ++ [w]) with ((w0 :: ws) ++ [w]) in Hf.
    rewrite map_app, app_assoc in Hf.
    destruct (redo_step o m d _ w Hd Hf) as (R1 & R2 & _).
    destruct (diagram_active _ _ R1) as (d1 & Hd1 & _).
    exact (IH w0 _ d1 pre Hd1 R2).
Qed.

(** The diagrams that the calls of a sequence find, in order. *)
Fixpoint views (ops : list op) (m : t) : list Diagram.value :=
  match ops with
  | [] => []
  | a :: ops => option_list (diagram m) ++ views ops (call a m).2
  end.

(** A sequence of calls that fits under the bound leaves its snapshots on
    top of the history, in order. *)
Lemma run_history (ops : list op) :
  forall m d pre suf,
    _diagram m = Some d ->
    all_mutate ops m ->
    _history m = pre ++ suf ->
    (Z.of_nat (length suf + length ops) <= _max_history m)%Z ->
    exists pre',
      _history (run ops m) = pre' ++ suf ++ map Diagram.to_json_dict (views ops m) /\
      is_Some (_diagram (run ops m)) /\
      _max_history (run ops m) = _max_history m /\
      length (views ops m) = length ops /\
      (ops <> [] -> _future (run ops m) = []).
Proof.
  induction ops as [|a ops IH]; intros m d pre suf Hd Hall Hh Hlen.
  - exists pre. simpl. rewrite app_nil_r. rewrite Hd. repeat split; eauto. done.
  - destruct Hall as [Hok Hall].
    destruct (call_pushes a m d Hd Hok) as [L1 L2 L3 L4].
    destruct (same_log_save m d Hd) as (S1 & S2 & S3 & S4).
    rewrite S1 in L1. rewrite S2 in L2. rewrite S3 in L3. specialize (L4 S4).
    destruct L4 as [d1 Hd1].
    assert (Hpre : exists pre1,
               _history (call a m).2 = pre1 ++ (suf ++ [Diagram.to_json_dict (value_of m d)])).
    { rewrite L1, Hh. unfold trim.
      destruct (Z.ltb_spec (_max_history m)
                  (Z.of_nat (length ((pre ++ suf) ++ [Diagram.to_json_dict (value_of m d)]))))
        as [Hlt|_].
      - destruct pre as [|x pre].
        + rewrite !length_app in Hlt. simpl in *. lia.
        + exists pre. simpl. by rewrite <- app_assoc.
      - exists pre. by rewrite <- app_assoc. }
    destruct Hpre as [pre1 Hh1].
    destruct (IH (call a m).2 d1 pre1 _ Hd1 Hall Hh1) as (pre' & I1 & I2 & I3 & I4 & I5).
    { rewrite L3, length_app. simpl in *. lia. }
    assert (Hdm : diagram m = Some (value_of m d)) by (unfold diagram; by rewrite Hd).
    exists pre'. cbn [run views]. rewrite Hdm. cbn [option_list].
    split; [rewrite I1, <- app_assoc; reflexivity|].
    split; [exact I2|]. split; [congruence|].
    split; [rewrite length_app, I4; reflexivity|].
    intros _. destruct ops; [exact L2 | by apply I5].
Qed.

(** C1 (amended).  Take an active diagram and [N] mutating calls (adding,
    updating or deleting a node or an edge, a bulk tag update, a metadata
    update), each of which goes through, with [N] no larger than the history
    bound.  Undoing [N] times gives back the initial diagram, value for
    value, provided no edge of it has an empty side; redoing [N] times then
    gives back the diagram the calls had produced, provided no edge of that
    one has an empty side. *)
Theorem undo_redo_symmetry (m0 : t) (d0 : Diagram.t loc loc) (ops : list op) (o : oracle) :
  _diagram m0 = Some d0 ->
  all_mutate ops m0 ->
  (Z.of_nat (length ops) <= _max_history m0)%Z ->
  let m1 := run ops m0 in
  let m2 := undo_times o (length ops) m1 in
  let m3 := redo_times o (length ops) m2 in
  (ModelsFacts.sides_ok (value_of m0 d0) -> diagram m2 = diagram m0) /\
  (forall v1, diagram m1 = Some v1 -> ModelsFacts.sides_ok v1 -> diagram m3 = Some v1).
Proof.
  intros Hd Hall Hlen m1 m2 m3.
  destruct ops as [|a ops]; [by split|].
  destruct (run_history (a :: ops) m0 d0 (_history m0) [] Hd Hall) as
    (pre' & H1 & [d1 Hd1] & H3 & H4 & H5); [by rewrite app_nil_r | exact Hlen |].
  specialize (H5 ltac:(discriminate)). fold m1 in H1, Hd1, H3, H4, H5.
  assert (Hv : exists vs, views (a :: ops) m0 = value_of m0 d0 :: vs /\
                          length vs = length ops) .
  { cbn [views] in *. unfold diagram at 1 in H4. unfold diagram at 1.
    rewrite Hd in *. cbn [fmap option_fmap option_map option_list app] in *.
    eexists. split; [reflexivity|]. simpl in H4. lia. }
  destruct Hv as (vs & Hvs & Hvl). rewrite Hvs in H1. cbn [app] in H1.
  assert (Hn : length (a :: ops) = S (length vs)) by (simpl; lia).
  destruct (undo_times_spec o vs (value_of m0 d0) m1 d1 pre' Hd1 H1) as (U1 & _ & U3 & _).
  subst m2 m3. rewrite Hn. split.
  - intros Hs. rewrite U1, ModelsFacts.normalize_ok by done. unfold diagram. by rewrite Hd.
  - intros v1 Hv1 Hs.
    destruct (diagram_active _ _ U1) as (d2 & Hd2 & _).
    rewrite H5 in U3. cbn [app] in U3.
    assert (Hl : S (length vs) = S (length (rev (map ModelsFacts.normalize vs)))).
    { by rewrite length_rev, length_map. }
    rewrite Hl at 1.
    rewrite (redo_times_spec o _ (value_of m1 d1) _ d2 [] Hd2 U3).
    unfold diagram in Hv1. rewrite Hd1 in Hv1. injection Hv1 as <-.
    by rewrite ModelsFacts.normalize_ok.
Qed.

Definition example_ops : list op :=
  [ AddNode Examples.example_oracle (Examples.kw "d" "Delta" ["db"]);
    DeleteNode "b";
    UpdateNode "a" (NodeKwargs.only_x 5);
    BulkUpdateTags ["a"; "c"] (Some ["hot"]) (Some ["front"]);
    UpdateDiagramInfo (Some "Renamed") None (Some false) ].

Lemma undo_redo_symmetry_witness :
  diagram (undo_times Examples.example_oracle 5 (run example_ops Examples.abc_manager))
  = diagram Examples.abc_manager /\
  diagram (redo_times Examples.example_oracle 5
             (undo_times Examples.example_oracle 5 (run example_ops Examples.abc_manager)))
  = diagram (run example_ops Examples.abc_manager).
Proof.
  assert (Hd : _diagram Examples.abc_manager = Some Examples.abc_diagram)
    by (vm_compute; reflexivity).
  assert (Hall : all_mutate example_ops Examples.abc_manager)
    by (vm_compute; tauto).
  assert (Hlen : (Z.of_nat (length example_ops) <= _max_history Examples.abc_manager)%Z)
    by (vm_compute; discriminate).
  destruct (undo_redo_symmetry Examples.abc_manager Examples.abc_diagram example_ops
              Examples.example_oracle Hd Hall Hlen) as [H1 H2].
  split.
  - apply H1. vm_compute. repeat constructor; discriminate.
  - destruct (diagram (run example_ops Examples.abc_manager)) as [v1|] eqn:E;
      [|vm_compute in E; discriminate E].
    apply (H2 v1 eq_refl). vm_compute in E. injection E as <-.
    repeat constructor; discriminate.
Defined.

(** C1 as stated fails: a side that is set to the empty text is not written
    to the snapshot, so the undo brings the edge back with the side unset. *)
Lemma undo_redo_symmetry_counterexample :
  ~ (forall (m0 : t) (d0 : Diagram.t loc loc) (ops : list op) (o : oracle),
       _diagram m0 = Some d0 ->
       all_mutate ops m0 ->
       (Z.of_nat (length ops) <= _max_history m0)%Z ->
       diagram (undo_times o (length ops) (run ops m0)) = diagram m0).
Proof.
  intros H.
  assert (Hd : _diagram Examples.empty_side_manager = Some Examples.empty_side_diagram)
    by (vm_compute; reflexivity).
  specialize (H Examples.empty_side_manager Examples.empty_side_diagram
                [UpdateDiagramInfo (Some "Renamed") None None] Examples.example_oracle
                Hd ltac:(vm_compute; tauto) ltac:(vm_compute; discriminate)).
  vm_compute in H. discriminate H.
Qed.

End HistoryFacts.


(** ** The validator *)

Module ValidationFacts.
Import Models Validation.

(** The three issues of the example. *)
Definition orphan_issue (n : Node.t) : ValidationIssue :=
  {| severity := WARNING;
     message := "Orphan nodes (no connections): "
                +:+ Node.label n +:+ " (" +:+ Node.id n +:+ ")";
     node_id := None; edge_id := None |}.

Definition self_loop_issue (e : Edge.t) : ValidationIssue :=
  {| severity := WARNING; message := "Self-referencing edge (node points to itself)";
     node_id := Some (Edge.source e); edge_id := Some (Edge.id e) |}.

Definition duplicate_issue (e : Edge.t) : ValidationIssue :=
  {| severity := WARNING;
     message := "Duplicate edge from " +:+ Edge.source e +:+ " to " +:+ Edge.target e;
     node_id := None; edge_id := Some (Edge.id e) |}.

Lemma count_app p l1 l2 : count p (l1 ++ l2) = count p l1 + count p l2.
Proof. unfold count. by rewrite List.filter_app, length_app. Qed.

(** A label warning is none of the other kinds. *)
Lemma count_label_issues p nodes :
  (forall id, p {| severity := WARNING; message := "Node has default or empty label";
                   node_id := Some id; edge_id := None |} = false) ->
  count p (label_issues nodes) = 0.
Proof.
  intros Hp. unfold label_issues.
  induction nodes as [|n nodes IH]; [done|].
  cbn [flat_map]. rewrite count_app, IH, Nat.add_0_r.
  destruct (bad_label (Node.label n)); [|done].
  unfold count. cbn [List.filter]. by rewrite Hp.
Qed.

Lemma label_issues_good nodes :
  Forall (fun n => bad_label (Node.label n) = false) nodes -> label_issues nodes = [].
Proof.
  unfold label_issues. induction 1 as [|n nodes Hn _ IH]; [done|].
  cbn [flat_map]. by rewrite Hn, IH.
Qed.

Lemma prefix_append p s : String.prefix p (p +:+ s) = true.
Proof.
  induction p as [|a p IH]; simpl; [by destruct s|].
  by destruct (ascii_dec a a).
Qed.

Lemma orphan_is_orphan n : is_orphan_warning (orphan_issue n) = true.
Proof. apply prefix_append. Qed.

Lemma duplicate_is_duplicate e : is_duplicate_warning (duplicate_issue e) = true.
Proof. apply prefix_append. Qed.

(** C8. Nodes A, B, C with the edges A->A, A->C and a second A->C: the
    validator reports the orphan B, one warning for each node whose label is
    empty, blank or the default, the self-loop and the second A->C edge, in
    this order.  So it returns exactly one self-loop warning, one orphan
    warning (naming B), one duplicate-edge warning (for the second A->C
    only) and no error; and exactly these three issues when no label is
    empty, blank or the default. *)
Theorem validator_example
    (d : Diagram.value) (nA nB nC : Node.t) (e1 e2 e3 : Edge.t) :
  Diagram.nodes d = [nA; nB; nC] ->
  Diagram.edges d = [e1; e2; e3] ->
  Node.id nA <> Node.id nB -> Node.id nB <> Node.id nC -> Node.id nA <> Node.id nC ->
  Edge.source e1 = Node.id nA -> Edge.target e1 = Node.id nA ->
  Edge.source e2 = Node.id nA -> Edge.target e2 = Node.id nC ->
  Edge.source e3 = Node.id nA -> Edge.target e3 = Node.id nC ->
  let issues := validate_diagram d in
  issues = [orphan_issue nB] ++ label_issues [nA; nB; nC]
           ++ [self_loop_issue e1; duplicate_issue e3] /\
  count is_self_loop_warning issues = 1 /\
  count is_orphan_warning issues = 1 /\
  count is_duplicate_warning issues = 1 /\
  count is_error issues = 0 /\
  (Forall (fun n => bad_label (Node.label n) = false) [nA; nB; nC] ->
   issues = [orphan_issue nB; self_loop_issue e1; duplicate_issue e3]).
Proof.
  intros Hn He Hab Hbc Hac Hs1 Ht1 Hs2 Ht2 Hs3 Ht3 issues.
  assert (Hissues : issues = [orphan_issue nB] ++ label_issues [nA; nB; nC]
                             ++ [self_loop_issue e1; duplicate_issue e3]).
  { subst issues. unfold validate_diagram. rewrite Hn, He.
    cbn [map list_to_set foldr]. unfold connected_nodes. cbn [foldl].
    rewrite Hs1, Ht1, Hs2, Ht2, Hs3, Ht3.
    set (a := Node.id nA) in *. set (b := Node.id nB) in *. set (c := Node.id nC) in *.
    set (node_ids := ({[a]} ∪ ({[b]} ∪ ({[c]} ∪ ∅)) : gset string)).
    set (orphans := node_ids ∖ _).
    assert (Ha : a ∉ orphans) by (subst orphans node_ids; set_solver).
    assert (Hb : b ∈ orphans) by (subst orphans node_ids; set_solver).
    assert (Hc : c ∉ orphans) by (subst orphans node_ids; set_solver).
    f_equal; [|f_equal].
    - unfold orphan_issues. rewrite bool_decide_eq_true_2 by set_solver.
      rewrite filter_cons_False, filter_cons_True, filter_cons_False by done.
      reflexivity.
    - unfold reference_issues, self_loop_issues. cbn [flat_map duplicate_issues].
      rewrite Hs1, Ht1, Hs2, Ht2, Hs3, Ht3.
      rewrite !(bool_decide_eq_false_2 (_ ∉ node_ids)) by (subst node_ids; set_solver).
      rewrite (bool_decide_eq_true_2 (a = a)) by done.
      rewrite !(bool_decide_eq_false_2 (a = c)) by done.
      rewrite (bool_decide_eq_false_2 ((a, a) ∈ _)) by set_solver.
      rewrite (bool_decide_eq_false_2 ((a, c) ∈ _)) by set_solver.
      rewrite (bool_decide_eq_true_2 ((a, c) ∈ _)) by set_solver.
      unfold self_loop_issue, duplicate_issue. rewrite Hs1, Hs3, Ht3. reflexivity. }
  split; [exact Hissues|]. rewrite Hissues.
  repeat split.
  - rewrite !count_app, count_label_issues by done. reflexivity.
  - rewrite !count_app, count_label_issues by done.
    unfold count. cbn [List.filter]. by rewrite orphan_is_orphan.
  - rewrite !count_app, count_label_issues by done.
    unfold count. cbn [List.filter]. by rewrite duplicate_is_duplicate.
  - rewrite !count_app, count_label_issues by done. reflexivity.
  - intros Hgood. by rewrite label_issues_good.
Qed.

Definition example_node (id label : string) : Node.t :=
  NodeKwargs.init id (Examples.kw id label []).

Definition example_diagram : Diagram.value :=
  {| Diagram.id := "d"; Diagram.name := "Example";
     Diagram.nodes := [example_node "A" "Api"; example_node "B" "Batch";
                       example_node "C" "Cache"];
     Diagram.edges := [Edge.init "e1" "A" "A" "" None None;
                       Edge.init "e2" "A" "C" "" None None;
                       Edge.init "e3" "A" "C" "" None None];
     Diagram.metadata := Diagram.metadata (Diagram.init Examples.example_oracle "") |}.

Lemma validator_example_witness :
  validate_diagram example_diagram
  = [orphan_issue (example_node "B" "Batch");
     self_loop_issue (Edge.init "e1" "A" "A" "" None None);
     duplicate_issue (Edge.init "e3" "A" "C" "" None None)].
Proof.
  refine (proj2 (proj2 (proj2 (proj2 (proj2
    (validator_example example_diagram
       (example_node "A" "Api") (example_node "B" "Batch")
       (example_node "C" "Cache") (Edge.init "e1" "A" "A" "" None None)
       (Edge.init "e2" "A" "C" "" None None) (Edge.init "e3" "A" "C" "" None None)
       eq_refl eq_refl _ _ _ eq_refl eq_refl eq_refl eq_refl eq_refl eq_refl))))) _);
    try (simpl; discriminate).
  repeat constructor.
Defined.

End ValidationFacts.

(** ** Cycle detection *)

Module AnalysisFacts.
Import Models Analysis.

(** The adjacency of a node id: the targets of its outgoing edges, in edge
    order. *)
Lemma adjacency_lookup (edges : list Edge.t) (u : string) :
  default [] (adjacency edges !! u)
  = map Edge.target (filter (fun e => Edge.source e = u) edges).
Proof.
  unfold adjacency. induction edges as [|e edges IH] using rev_ind; [done|].
  rewrite foldl_snoc, filter_app, map_app, <- IH.
  destruct (decide (Edge.source e = u)) as [<-|Hne].
  - rewrite lookup_insert_eq, filter_cons_True by done. by rewrite filter_nil.
  - rewrite lookup_insert_ne, filter_cons_False by done.
    by rewrite filter_nil, app_nil_r.
Qed.

Lemma neighbor_edge (edges : list Edge.t) (u v : string) :
  v ∈ default [] (adjacency edges !! u) -> edge_rel edges u v.
Proof.
  rewrite adjacency_lookup. intros Hv.
  apply list_elem_of_fmap in Hv as (e & -> & He).
  apply list_elem_of_filter in He as [Hs He]. by exists e.
Qed.

(** The node ids a traversal can move to. *)
Definition targets (edges : list Edge.t) : gset string :=
  list_to_set (map Edge.target edges).

Lemma neighbor_target (edges : list Edge.t) (u v : string) :
  v ∈ default [] (adjacency edges !! u) -> v ∈ targets edges.
Proof.
  intros (e & He & _ & <-)%neighbor_edge. unfold targets.
  apply elem_of_list_to_set, list_elem_of_fmap. eauto.
Qed.

Lemma size_targets (edges : list Edge.t) : size (targets edges) <= length edges.
Proof.
  unfold targets. induction edges as [|e edges IH]; simpl.
  - vm_compute. lia.
  - rewrite size_union_alt, size_singleton.
    assert (size (list_to_set (map Edge.target edges) ∖ {[Edge.target e]} : gset string)
            <= size (list_to_set (map Edge.target edges) : gset string))
      by (apply subseteq_size; set_solver).
    lia.
Qed.

(** One iteration of the loop over the neighbours in [dfs]. *)
Definition dfs_step (fuel : nat) (adj : gmap string (list string)) (start : string)
    (path : list string) (visited : gset string)
    (acc : option (list (list string))) (neighbor : string)
  : option (list (list string)) :=
  match acc with
  | None => None
  | Some cycles =>
      if bool_decide (neighbor = start) && Nat.ltb 1 (length path)
      then Some (cycles ++ [path ++ [start]])
      else if bool_decide (neighbor ∉ visited)
      then dfs fuel adj start neighbor (path ++ [neighbor]) ({[neighbor]} ∪ visited) cycles
      else Some cycles
  end.

Lemma dfs_unfold fuel adj start current path visited cycles :
  dfs (S fuel) adj start current path visited cycles
  = foldl (dfs_step fuel adj start path visited) (Some cycles)
          (default [] (adj !! current)).
Proof. reflexivity. Qed.

(** Enough fuel: more than the number of ids still to be visited. *)
Lemma dfs_total (edges : list Edge.t) (fuel : nat) :
  forall start current path visited cycles,
    size (targets edges ∖ visited) < fuel ->
    is_Some (dfs fuel (adjacency edges) start current path visited cycles).
Proof.
  induction fuel as [|fuel IH]; intros start current path visited cycles Hfuel; [lia|].
  rewrite dfs_unfold.
  assert (Hstep : forall l acc,
             (forall v, v ∈ l -> v ∈ targets edges) -> is_Some acc ->
             is_Some (foldl (dfs_step fuel (adjacency edges) start path visited) acc l)).
  { induction l as [|v l IHl]; intros acc Hl Hacc; [done|].
    cbn [foldl]. apply IHl; [intros; apply Hl; by right|].
    destruct Hacc as [cs ->]. unfold dfs_step.
    destruct (_ && _); [eauto|]. case_bool_decide as Hv; [|eauto].
    apply IH.
    assert (targets edges ∖ ({[v]} ∪ visited) ⊂ targets edges ∖ visited).
    { assert (v ∈ targets edges) by (apply Hl; by left). set_solver. }
    apply subset_size in H. lia. }
  apply Hstep; [|eauto]. intros v. apply neighbor_target.
Qed.

(** On an acyclic graph a traversal records nothing. *)
Lemma dfs_acyclic (edges : list Edge.t) (fuel : nat) :
  acyclic edges ->
  forall start current path visited cycles,
    rtc (edge_rel edges) start current ->
    size (targets edges ∖ visited) < fuel ->
    dfs fuel (adjacency edges) start current path visited cycles = Some cycles.
Proof.
  intros Hacyclic.
  induction fuel as [|fuel IH]; intros start current path visited cycles Hreach Hfuel; [lia|].
  rewrite dfs_unfold.
  assert (Hstep : forall l,
             (forall v, v ∈ l -> edge_rel edges current v /\ v ∈ targets edges) ->
             foldl (dfs_step fuel (adjacency edges) start path visited) (Some cycles) l
             = Some cycles).
  { induction l as [|v l IHl]; intros Hl; [done|].
    cbn [foldl]. destruct (Hl v) as [Hedge Hv]; [by left|].
    replace (dfs_step fuel (adjacency edges) start path visited (Some cycles) v)
      with (Some cycles); [apply IHl; intros; apply Hl; by right|].
    unfold dfs_step.
    rewrite (bool_decide_eq_false_2 (v = start)).
    2:{ intros ->. apply (Hacyclic start). eapply tc_rtc_l; [exact Hreach|by apply tc_once]. }
    cbn [andb]. case_bool_decide as Hvis; [|done].
    symmetry. apply IH; [by eapply rtc_r|].
    assert (targets edges ∖ ({[v]} ∪ visited) ⊂ targets edges ∖ visited) by set_solver.
    apply subset_size in H. lia. }
  apply Hstep. intros v Hv. split; [by apply neighbor_edge | by eapply neighbor_target].
Qed.

(** The loop over the nodes, one step. *)
Definition start_step (fuel : nat) (adj : gmap string (list string))
    (st : gset string * option (list (list string))) (id : string)
  : gset string * option (list (list string)) :=
  if bool_decide (id ∉ st.1)
  then ({[id]} ∪ st.1,
        match st.2 with
        | None => None
        | Some cycles => dfs fuel adj id id [id] {[id]} cycles
        end)
  else st.

Lemma all_cycles_ids fuel adj (nodes : list Node.t) :
  all_cycles fuel adj nodes
  = (foldl (start_step fuel adj) (∅, Some []) (map Node.id nodes)).2.
Proof.
  unfold all_cycles. generalize (∅ : gset string, Some ([] : list (list string))).
  induction nodes as [|n nodes IH]; intros [vg acc]; [done|].
  cbn [foldl map]. rewrite IH. reflexivity.
Qed.

Definition endpoints (e : Edge.t) : string * string := (Edge.source e, Edge.target e).

Lemma adjacency_endpoints (edges : list Edge.t) :
  adjacency edges
  = foldl (fun adj p => <[p.1 := default [] (adj !! p.1) ++ [p.2]]> adj) ∅
          (map endpoints edges).
Proof. unfold adjacency. by rewrite (foldl_fmap _ _ _ endpoints). Qed.

(** [find_cycles] looks at the node ids and at the endpoints of the edges
    only. *)
Lemma find_cycles_ext (d d' : Diagram.value) :
  map Node.id (Diagram.nodes d) = map Node.id (Diagram.nodes d') ->
  map endpoints (Diagram.edges d) = map endpoints (Diagram.edges d') ->
  find_cycles d = find_cycles d'.
Proof.
  intros Hn He. unfold find_cycles.
  rewrite !all_cycles_ids, !adjacency_endpoints, Hn, He.
  by rewrite <- (length_map endpoints (Diagram.edges d)), He, length_map.
Qed.

Lemma fuel_enough (edges : list Edge.t) (visited : gset string) :
  size (targets edges ∖ visited) < S (length edges).
Proof.
  pose proof (size_targets edges).
  assert (size (targets edges ∖ visited) <= size (targets edges))
    by (apply subseteq_size; set_solver).
  lia.
Qed.

(** A result is always returned: the fuel given by [find_cycles] never runs
    out. *)
Lemma all_cycles_total (edges : list Edge.t) (nodes : list Node.t) :
  is_Some (all_cycles (S (length edges)) (adjacency edges) nodes).
Proof.
  rewrite all_cycles_ids.
  assert (H : forall ids st, is_Some st.2 ->
            is_Some (foldl (start_step (S (length edges)) (adjacency edges)) st ids).2).
  { induction ids as [|i ids IH]; intros st Hst; [done|].
    cbn [foldl]. apply IH. unfold start_step. case_bool_decide; [|done].
    destruct Hst as [cs ->]. cbn [snd]. apply dfs_total, fuel_enough. }
  apply H. by eexists.
Qed.

Lemma find_cycles_total (d : Diagram.value) : is_Some (find_cycles d).
Proof.
  unfold find_cycles.
  destruct (all_cycles_total (Diagram.edges d) (Diagram.nodes d)) as [cs ->]. by eexists.
Qed.

Lemma all_cycles_acyclic (edges : list Edge.t) (nodes : list Node.t) :
  acyclic edges ->
  all_cycles (S (length edges)) (adjacency edges) nodes = Some [].
Proof.
  intros Hacyclic. rewrite all_cycles_ids.
  assert (H : forall ids vg,
            (foldl (start_step (S (length edges)) (adjacency edges)) (vg, Some []) ids).2
            = Some []).
  { induction ids as [|i ids IH]; intros vg; [done|].
    cbn [foldl]. unfold start_step at 2. cbn [fst snd]. case_bool_decide; [|apply IH].
    rewrite dfs_acyclic; [apply IH|done|apply rtc_refl|apply fuel_enough]. }
  apply H.
Qed.

(** *** Removing duplicate cycles *)

Lemma unique_cycles_spec (cycles : list (list string)) :
  forall seen,
    let out := unique_cycles seen cycles in
    out `sublist_of` cycles /\
    NoDup (map cycle_set out) /\
    (forall c, c ∈ out -> cycle_set c ∉ seen) /\
    (forall c, c ∈ cycles -> cycle_set c ∈ seen \/ exists c', c' ∈ out /\ cycle_set c' = cycle_set c).
Proof.
  induction cycles as [|c cycles IH]; intros seen; cbn [unique_cycles].
  - repeat split;
      [apply sublist_nil | constructor | by intros ? ?%elem_of_nil | by intros ? ?%elem_of_nil].
  - case_bool_decide as Hc.
    + destruct (IH ({[cycle_set c]} ∪ seen)) as (I1 & I2 & I3 & I4).
      cbv zeta. repeat split.
      * by apply sublist_skip.
      * cbn [map]. apply NoDup_cons. split; [|done].
        intros (c' & Heq & Hc')%list_elem_of_fmap. apply (I3 c' Hc').
        rewrite <- Heq. by apply elem_of_union_l, elem_of_singleton.
      * intros c' [->|Hc']%elem_of_cons; [done|]. intros Hs. apply (I3 c' Hc').
        by apply elem_of_union_r.
      * intros c' [->|Hc']%elem_of_cons.
        -- right. exists c. split; [by left|done].
        -- destruct (I4 c' Hc') as [[Hs|Hs]%elem_of_union|(c'' & ? & ?)].
           ++ apply elem_of_singleton in Hs. right. exists c. split; [by left|done].
           ++ by left.
           ++ right. exists c''. split; [by right|done].
    + destruct (IH seen) as (I1 & I2 & I3 & I4). cbv zeta. repeat split.
      * by apply sublist_cons.
      * done.
      * done.
      * intros c' [->|Hc']%elem_of_cons; [|by apply I4].
        left. destruct (decide (cycle_set c ∈ seen)); [done|contradiction].
Qed.

(** The diagram with the given node ids and edge endpoints, other fields at
    their defaults. *)
Definition skeleton (ids : list string) (pairs : list (string * string)) : Diagram.value :=
  {| Diagram.id := "skeleton"; Diagram.name := "";
     Diagram.nodes := map (fun i => NodeKwargs.init i NodeKwargs.empty) ids;
     Diagram.edges := map (fun p => Edge.init "" p.1 p.2 "" None None) pairs;
     Diagram.metadata := Diagram.metadata (Diagram.init Examples.example_oracle "") |}.

Ltac on_skeleton d :=
  match goal with
  | Hn : ?ids = map Node.id _, He : ?ps = map endpoints _ |- _ =>
      rewrite (find_cycles_ext d (skeleton ids ps)) by (rewrite <- ?Hn, <- ?He; reflexivity)
  end.

(** C7. On the graph with the nodes A, B, C and the edges A->B, B->C, C->A
    (nodes and edges listed in any order) [find_cycles] returns exactly one
    cycle, whose member set is {A, B, C}.  On every acyclic graph it returns
    the empty list.  In general it returns the cycles found by the
    traversals with the duplicates removed: of the cycles with the same
    unordered member set the first one is kept, so no two returned cycles
    have the same member set and every cycle found is represented. *)
Theorem find_cycles_spec (d : Diagram.value) :
  (map Node.id (Diagram.nodes d) ≡ₚ ["A"; "B"; "C"] ->
   map endpoints (Diagram.edges d) ≡ₚ [("A", "B"); ("B", "C"); ("C", "A")] ->
   exists c, find_cycles d = Some [c] /\ cycle_set c = {["A"; "B"; "C"]}) /\
  (acyclic (Diagram.edges d) -> find_cycles d = Some []) /\
  (exists raw,
     all_cycles (S (length (Diagram.edges d))) (adjacency (Diagram.edges d))
                (Diagram.nodes d) = Some raw /\
     find_cycles d = Some (unique_cycles ∅ raw) /\
     unique_cycles ∅ raw `sublist_of` raw /\
     NoDup (map cycle_set (unique_cycles ∅ raw)) /\
     (forall c, c ∈ raw ->
        exists c', c' ∈ unique_cycles ∅ raw /\ cycle_set c' = cycle_set c)).
Proof.
  split; [|split].
  - intros Hn He.
    apply Permutation_sym, permutations_Permutation in Hn, He.
    remember (map Node.id (Diagram.nodes d)) as ids eqn:Eids.
    remember (map endpoints (Diagram.edges d)) as ps eqn:Eps.
    vm_compute in Hn, He.
    repeat (apply elem_of_cons in Hn as [Hn|Hn]); try (by apply elem_of_nil in Hn);
      repeat (apply elem_of_cons in He as [He|He]); try (by apply elem_of_nil in He);
      rewrite Hn in Eids; rewrite He in Eps; clear Hn He; on_skeleton d; eexists; (split; [vm_compute; reflexivity|]);
      vm_compute; reflexivity.
  - intros Hacyclic. unfold find_cycles. by rewrite all_cycles_acyclic.
  - destruct (all_cycles_total (Diagram.edges d) (Diagram.nodes d)) as [raw Hraw].
    exists raw. split; [exact Hraw|]. unfold find_cycles. rewrite Hraw.
    destruct (unique_cycles_spec raw ∅) as (U1 & U2 & _ & U4).
    split; [reflexivity|]. split; [exact U1|]. split; [exact U2|].
    intros c Hc. destruct (U4 c Hc) as [Hs|Hs]; [by apply elem_of_empty in Hs | exact Hs].
Qed.

(** A chain A -> B -> C is acyclic: every edge goes up in the alphabet. *)
Definition rank (s : string) : nat :=
  if String.eqb s "A" then 0 else if String.eqb s "B" then 1 else 2.

Lemma chain_acyclic :
  acyclic (Diagram.edges (skeleton ["A"; "B"; "C"] [("A", "B"); ("B", "C")])).
Proof.
  assert (Hedge : forall x y,
             edge_rel (Diagram.edges (skeleton ["A"; "B"; "C"] [("A", "B"); ("B", "C")])) x y ->
             rank x < rank y).
  { intros x y (e & He & <- & <-). cbn in He.
    apply elem_of_cons in He as [->|He]; [vm_compute; lia|].
    apply elem_of_cons in He as [->|He]; [vm_compute; lia|]. by apply elem_of_nil in He. }
  assert (Htc : forall x y,
             tc (edge_rel (Diagram.edges (skeleton ["A"; "B"; "C"] [("A", "B"); ("B", "C")])))
                x y -> rank x < rank y).
  { induction 1 as [x y H|x y z H _ IH]; [by apply Hedge|].
    apply Hedge in H. lia. }
  intros u Hu. apply Htc in Hu. lia.
Qed.

Lemma find_cycles_spec_witness :
  find_cycles (skeleton ["A"; "B"; "C"] [("A", "B"); ("B", "C")]) = Some [] /\
  exists c, find_cycles (skeleton ["B"; "C"; "A"] [("C", "A"); ("A", "B"); ("B", "C")])
            = Some [c] /\ cycle_set c = {["A"; "B"; "C"]}.
Proof.
  split.
  - apply (proj1 (proj2 (find_cycles_spec _))), chain_acyclic.
  - apply (proj1 (find_cycles_spec _)).
    + apply Permutation_sym. apply (Permutation_cons_append ["B"; "C"] "A").
    + apply (Permutation_cons_append [("A", "B"); ("B", "C")] ("C", "A")).
Defined.

End AnalysisFacts.

(** ** The graph store and its indexes *)

Module StoreFacts.
Import Models Heap Manager.

Definition node_at (m : t) (l : loc) : Node.t := deref (node_store m) l.
Definition edge_at (m : t) (l : loc) : Edge.t := deref (edge_store m) l.

(** The nodes and edges of the active diagram, by value. *)
Definition live_nodes (m : t) : list Node.t := map (node_at m) (nodes_of m).
Definition live_edges (m : t) : list Edge.t := map (edge_at m) (edges_of m).

(** What the three set-valued indexes answer. *)
Definition tag_ids (m : t) (tag : string) : gset string := default ∅ (_tag_index m !! tag).
Definition type_ids (m : t) (ty : string) : gset string := default ∅ (_type_index m !! ty).
Definition incident_ids (m : t) (node_id : string) : gset string :=
  default ∅ (_edges_by_node m !! node_id).

(** What they should answer. *)
Definition ids_with_tag (ns : list Node.t) (tag : string) : gset string :=
  list_to_set (map Node.id (filter (fun n => tag ∈ Node.tags n) ns)).

Definition ids_with_type (ns : list Node.t) (ty : string) : gset string :=
  list_to_set (map Node.id (filter (fun n => Node.type n = ty) ns)).

Definition incident (node_id : string) (e : Edge.t) : Prop :=
  Edge.source e = node_id \/ Edge.target e = node_id.

Definition ids_incident (es : list Edge.t) (node_id : string) : gset string :=
  list_to_set (map Edge.id (filter (incident node_id) es)).

(** The invariant of the store: the members of the diagram's lists are
    allocated objects, the id indexes map exactly the ids of these objects
    to them (so ids are unique), and the tag, type and incident-edge indexes
    answer what the live objects say. *)
Record consistent (m : t) : Prop := {
  c_nodes_alloc : forall l, l ∈ nodes_of m -> l < length (node_store m);
  c_edges_alloc : forall l, l ∈ edges_of m -> l < length (edge_store m);
  c_node_index : forall i l,
    _node_index m !! i = Some l <-> l ∈ nodes_of m /\ Node.id (node_at m l) = i;
  c_edge_index : forall i l,
    _edge_index m !! i = Some l <-> l ∈ edges_of m /\ Edge.id (edge_at m l) = i;
  c_tags : forall tag, tag_ids m tag = ids_with_tag (live_nodes m) tag;
  c_types : forall ty, type_ids m ty = ids_with_type (live_nodes m) ty;
  c_incident : forall n, incident_ids m n = ids_incident (live_edges m) n
}.

(** [same_graph m m']: the diagram, the objects and the indexes agree. *)
Record same_graph (m m' : t) : Prop := {
  sg_diagram : _diagram m' = _diagram m;
  sg_nodes : node_store m' = node_store m;
  sg_edges : edge_store m' = edge_store m;
  sg_node_index : _node_index m' = _node_index m;
  sg_edge_index : _edge_index m' = _edge_index m;
  sg_tag_index : _tag_index m' = _tag_index m;
  sg_type_index : _type_index m' = _type_index m;
  sg_edges_by_node : _edges_by_node m' = _edges_by_node m
}.

(** *** The invariant, by components *)

Definition nodes_ok (h : list Node.t) (ns : list loc) (ni : gmap string loc)
    (ti tyi : gmap string (gset string)) : Prop :=
  (forall l, l ∈ ns -> l < length h) /\
  (forall i l, ni !! i = Some l <-> l ∈ ns /\ Node.id (deref h l) = i) /\
  (forall tag, default ∅ (ti !! tag) = ids_with_tag (map (deref h) ns) tag) /\
  (forall ty, default ∅ (tyi !! ty) = ids_with_type (map (deref h) ns) ty).

(** The part of it that the id index alone needs. *)
Definition nodes_indexed_at (h : list Node.t) (ns : list loc) (ni : gmap string loc) : Prop :=
  (forall l, l ∈ ns -> l < length h) /\
  (forall i l, ni !! i = Some l <-> l ∈ ns /\ Node.id (deref h l) = i).

Definition edges_ok (h : list Edge.t) (es : list loc) (ei : gmap string loc)
    (ebn : gmap string (gset string)) : Prop :=
  (forall l, l ∈ es -> l < length h) /\
  (forall i l, ei !! i = Some l <-> l ∈ es /\ Edge.id (deref h l) = i) /\
  (forall n, default ∅ (ebn !! n) = ids_incident (map (deref h) es) n).

(** *** The two sides of the store *)

Definition nodes_indexed (m : t) : Prop :=
  nodes_indexed_at (node_store m) (nodes_of m) (_node_index m).

Definition edges_indexed (m : t) : Prop :=
  edges_ok (edge_store m) (edges_of m) (_edge_index m) (_edges_by_node m).

Record same_nodes (m m' : t) : Prop := {
  sn_store : node_store m' = node_store m;
  sn_nodes : nodes_of m' = nodes_of m;
  sn_node_index : _node_index m' = _node_index m;
  sn_tag_index : _tag_index m' = _tag_index m;
  sn_type_index : _type_index m' = _type_index m
}.

(** The keyword bag [{tags: ["t", "t"]}]. *)
Definition twice_tagged : NodeKwargs.t :=
  {| NodeKwargs.id := None; NodeKwargs.label := None; NodeKwargs.type := None;
     NodeKwargs.shape := None; NodeKwargs.color := None; NodeKwargs.x := None;
     NodeKwargs.y := None; NodeKwargs.width := None; NodeKwargs.height := None;
     NodeKwargs.tags := Some ["t"; "t"]; NodeKwargs.description := None;
     NodeKwargs.border_style := None; NodeKwargs.fill_opacity := None;
     NodeKwargs.z_index := None; NodeKwargs.rotation := None |}.

(** *** Calls that leave the graph alone *)

Lemma same_graph_refl m : same_graph m m.
Proof. by constructor. Qed.

Lemma same_graph_trans m1 m2 m3 : same_graph m1 m2 -> same_graph m2 m3 -> same_graph m1 m3.
Proof. intros [] []. constructor; congruence. Qed.

Lemma same_graph_save m : same_graph m (_save_to_history m).
Proof.
  destruct (HistoryFacts.save_other m) as (? & ? & ? & ? & ? & ? & ? & ? & ?).
  by constructor.
Qed.

Lemma same_graph_dirty b m : same_graph m (set_dirty b m).
Proof. by constructor. Qed.

Lemma same_graph_notify m : same_graph m (_notify_change m).
Proof. by constructor. Qed.

Lemma same_graph_live m m' :
  same_graph m m' ->
  nodes_of m' = nodes_of m /\ edges_of m' = edges_of m /\
  live_nodes m' = live_nodes m /\ live_edges m' = live_edges m.
Proof.
  intros [H1 H2 H3 _ _ _ _ _].
  unfold live_nodes, live_edges, node_at, edge_at, nodes_of, edges_of.
  by rewrite H1, H2, H3.
Qed.

Lemma consistent_same_graph m m' : same_graph m m' -> consistent m -> consistent m'.
Proof.
  intros Hsg [C1 C2 C3 C4 C5 C6 C7].
  destruct (same_graph_live m m' Hsg) as (Hn & He & Hln & Hle).
  destruct Hsg as [H1 H2 H3 H4 H5 H6 H7 H8].
  constructor; unfold tag_ids, type_ids, incident_ids, node_at, edge_at in *;
    rewrite ?Hn, ?He, ?Hln, ?Hle, ?H2, ?H3, ?H4, ?H5, ?H6, ?H7, ?H8; assumption.
Qed.

(** *** The set-valued indexes *)

Lemma index_add_lookup k v (idx : gmap string (gset string)) k' :
  default ∅ (index_add k v idx !! k')
  = if decide (k' = k) then {[v]} ∪ default ∅ (idx !! k') else default ∅ (idx !! k').
Proof.
  unfold index_add. destruct (decide (k' = k)) as [->|Hne].
  - by rewrite lookup_insert_eq.
  - by rewrite lookup_insert_ne.
Qed.

Lemma index_discard_lookup k v (idx : gmap string (gset string)) k' :
  default ∅ (index_discard k v idx !! k')
  = if decide (k' = k) then default ∅ (idx !! k') ∖ {[v]} else default ∅ (idx !! k').
Proof.
  unfold index_discard. destruct (idx !! k) as [s|] eqn:Hk.
  - destruct (decide (k' = k)) as [->|Hne].
    + by rewrite lookup_insert_eq, Hk.
    + by rewrite lookup_insert_ne.
  - destruct (decide (k' = k)) as [->|Hne]; [|done].
    rewrite Hk. simpl. set_solver.
Qed.

Lemma foldl_index_add v (ks : list string) idx k' :
  default ∅ (foldl (fun idx k => index_add k v idx) idx ks !! k')
  = (if decide (k' ∈ ks) then {[v]} else ∅) ∪ default ∅ (idx !! k').
Proof.
  revert idx. induction ks as [|k ks IH]; intros idx; cbn [foldl].
  - rewrite decide_False by apply not_elem_of_nil. set_solver.
  - rewrite IH, index_add_lookup.
    destruct (decide (k' = k)) as [->|Hne].
    + rewrite (decide_True (P := k ∈ k :: ks)) by apply list_elem_of_here.
      case_decide; set_solver.
    + destruct (decide (k' ∈ ks)) as [Hin|Hnin].
      * by rewrite decide_True by (by apply list_elem_of_further).
      * rewrite decide_False; [done|]. by intros [?|?]%elem_of_cons.
Qed.

Lemma foldl_index_discard v (ks : list string) idx k' :
  default ∅ (foldl (fun idx k => index_discard k v idx) idx ks !! k')
  = default ∅ (idx !! k') ∖ (if decide (k' ∈ ks) then {[v]} else ∅).
Proof.
  revert idx. induction ks as [|k ks IH]; intros idx; cbn [foldl].
  - rewrite decide_False by apply not_elem_of_nil. set_solver.
  - rewrite IH, index_discard_lookup.
    destruct (decide (k' = k)) as [->|Hne].
    + rewrite (decide_True (P := k ∈ k :: ks)) by apply list_elem_of_here.
      case_decide; set_solver.
    + destruct (decide (k' ∈ ks)) as [Hin|Hnin].
      * by rewrite decide_True by (by apply list_elem_of_further).
      * rewrite decide_False; [done|]. by intros [?|?]%elem_of_cons.
Qed.

(** *** Reading and writing objects *)

Lemma deref_store_eq {A} `{!Inhabited A} (h : list A) l v :
  l < length h -> deref (store l v h) l = v.
Proof. intros Hl. unfold deref, store. by apply list_lookup_total_insert_eq. Qed.

Lemma deref_store_ne {A} `{!Inhabited A} (h : list A) l l' v :
  l <> l' -> deref (store l v h) l' = deref h l'.
Proof. intros Hl. unfold deref, store. by apply list_lookup_total_insert_ne. Qed.

Lemma deref_app_old {A} `{!Inhabited A} (h k : list A) l :
  l < length h -> deref (h ++ k) l = deref h l.
Proof. intros Hl. unfold deref. by apply lookup_total_app_l. Qed.

Lemma deref_app_new {A} `{!Inhabited A} (h : list A) v :
  deref (h ++ [v]) (length h) = v.
Proof. unfold deref. by rewrite list_lookup_total_middle. Qed.


(** *** What a call does to the store *)

Lemma add_node_fields o kwargs m d :
  _diagram m = Some d ->
  let n := NodeKwargs.init (generate_node_id o 0) kwargs in
  let l := length (node_store m) in
  let m' := (add_node o kwargs m).2 in
  (add_node o kwargs m).1 = Ok l /\
  node_store m' = node_store m ++ [n] /\ edge_store m' = edge_store m /\
  _diagram m' = Some (set_nodes (Diagram.nodes d ++ [l]) d) /\
  _node_index m' = <[Node.id n := l]> (_node_index m) /\
  _tag_index m' = foldl (fun idx tag => index_add tag (Node.id n) idx)
                        (_tag_index m) (Node.tags n) /\
  _type_index m' = index_add (Node.type n) (Node.id n) (_type_index m) /\
  _edge_index m' = _edge_index m /\ _edges_by_node m' = _edges_by_node m.
Proof.
  intros Hd n l m'. subst m'. unfold add_node. rewrite Hd.
  destruct (same_graph_save m) as [S1 S2 S3 S4 S5 S6 S7 S8].
  unfold alloc, assign_nodes, nodes_of, _index_node, _notify_change.
  cbn -[_save_to_history NodeKwargs.init generate_node_id index_add].
  rewrite S1, S2, S3, S4, S5, S6, S7, S8, Hd. cbn [fmap option_fmap option_map].
  rewrite deref_app_new. fold n. fold l. repeat split; reflexivity.
Qed.
(** *** Sets of ids *)

Lemma elem_of_ids {A} (f : A -> string) (P : A -> Prop) `{!forall a, Decision (P a)}
    (l : list A) (x : string) :
  x ∈ (list_to_set (map f (filter P l)) : gset string) <-> exists a, a ∈ l /\ P a /\ f a = x.
Proof.
  rewrite elem_of_list_to_set, list_elem_of_fmap. split.
  - intros (a & -> & [Hp Ha]%list_elem_of_filter). eauto.
  - intros (a & Ha & Hp & <-). exists a. split; [done|]. by apply list_elem_of_filter.
Qed.

Lemma ids_app {A} (f : A -> string) (P : A -> Prop) `{!forall a, Decision (P a)}
    (l : list A) (a : A) :
  (list_to_set (map f (filter P (l ++ [a]))) : gset string)
  = (if decide (P a) then {[f a]} else ∅) ∪ list_to_set (map f (filter P l)).
Proof.
  apply set_eq. intros x. rewrite elem_of_union, !elem_of_ids. split.
  - intros (b & [Hb|Hb%list_elem_of_singleton]%elem_of_app & Hp & <-).
    + right. eauto.
    + subst b. left. rewrite decide_True by done. by apply elem_of_singleton.
  - intros [Hx|(b & Hb & Hp & <-)].
    + case_decide as Hp; [|by apply elem_of_empty in Hx].
      apply elem_of_singleton in Hx as ->. exists a. split; [|done].
      apply elem_of_app. right. by apply list_elem_of_singleton.
    + exists b. split; [|done]. apply elem_of_app. by left.
Qed.

Lemma map_deref_app {A} `{!Inhabited A} (h k : list A) (ls : list loc) :
  (forall l, l ∈ ls -> l < length h) -> map (deref (h ++ k)) ls = map (deref h) ls.
Proof.
  intros Hls. apply map_ext_in. intros l Hl%list_elem_of_In. by apply deref_app_old, Hls.
Qed.

(** *** Adding a node *)

Lemma add_node_consistent o kwargs m d :
  consistent m ->
  _diagram m = Some d ->
  let n := NodeKwargs.init (generate_node_id o 0) kwargs in
  Node.id n ∉ map Node.id (live_nodes m) ->
  consistent (add_node o kwargs m).2 /\
  live_nodes (add_node o kwargs m).2 = live_nodes m ++ [n] /\
  live_edges (add_node o kwargs m).2 = live_edges m.
Proof.
  intros Hc Hd n Hfresh.
  destruct (add_node_fields o kwargs m d Hd) as (_ & F1 & F2 & F3 & F4 & F5 & F6 & F7 & F8).
  fold n in F1, F4, F5, F6.
  set (m' := (add_node o kwargs m).2) in *.
  destruct Hc as [C1 C2 C3 C4 C5 C6 C7].
  assert (Hns : nodes_of m = Diagram.nodes d) by (unfold nodes_of; by rewrite Hd).
  assert (Hes : edges_of m = Diagram.edges d) by (unfold edges_of; by rewrite Hd).
  assert (Hns' : nodes_of m' = nodes_of m ++ [length (node_store m)]).
  { unfold nodes_of at 1. by rewrite F3, Hns. }
  assert (Hes' : edges_of m' = edges_of m).
  { unfold edges_of at 1. by rewrite F3, Hes. }
  assert (Hold : forall l, l ∈ nodes_of m -> node_at m' l = node_at m l).
  { intros l Hl. unfold node_at. rewrite F1. by apply deref_app_old, C1. }
  assert (Hnew : node_at m' (length (node_store m)) = n).
  { unfold node_at. rewrite F1. apply deref_app_new. }
  assert (Hln : live_nodes m' = live_nodes m ++ [n]).
  { unfold live_nodes. rewrite Hns', map_app. cbn [map]. rewrite Hnew. f_equal.
    apply map_ext_in. intros l Hl%list_elem_of_In. by apply Hold. }
  assert (Hle : live_edges m' = live_edges m).
  { unfold live_edges, edge_at. by rewrite Hes', F2. }
  assert (Hnotin : length (node_store m) ∉ nodes_of m).
  { intros Hin. apply C1 in Hin. lia. }
  split; [|done]. constructor.
  - intros l. rewrite Hns', F1, length_app. cbn [length].
    intros [Hl|Hl%list_elem_of_singleton]%elem_of_app; [apply C1 in Hl|]; lia.
  - intros l. rewrite Hes', F2. apply C2.
  - intros i l. rewrite F4, Hns', elem_of_app, list_elem_of_singleton.
    destruct (decide (i = Node.id n)) as [->|Hne].
    + rewrite lookup_insert_eq. split.
      * intros [= <-]. split; [by right|by rewrite Hnew].
      * intros [[Hl| ->] Hid]; [|done].
        exfalso. apply Hfresh. rewrite Hold in Hid by done. rewrite <- Hid.
        unfold live_nodes. rewrite map_map. apply list_elem_of_fmap. by exists l.
    + rewrite lookup_insert_ne by done. rewrite C3. split.
      * intros [Hl Hid]. split; [by left|]. by rewrite Hold.
      * intros [[Hl| ->] Hid]; [by rewrite <- Hold|]. congruence.
  - intros i l. unfold edge_at. rewrite F7, Hes', F2. apply C4.
  - intros tag. unfold tag_ids, ids_with_tag. rewrite F5, Hln, foldl_index_add, ids_app.
    fold (tag_ids m tag). by rewrite C5.
  - intros ty. unfold type_ids, ids_with_type. rewrite F6, Hln, index_add_lookup, ids_app.
    fold (type_ids m ty). rewrite C6. unfold ids_with_type.
    destruct (decide (ty = Node.type n)) as [->|Hne].
    + by rewrite decide_True.
    + rewrite decide_False by congruence. set_solver.
  - intros i. unfold incident_ids. rewrite F8, Hle. apply C7.
Qed.
(** *** Adding an edge *)

Lemma add_edge_fields o source target from_node to_node label source_side target_side m d l :
  _diagram m = Some d ->
  (add_edge o source target from_node to_node label source_side target_side m).1 = Ok l ->
  exists src tgt,
    or_else source from_node = Some src /\ or_else target to_node = Some tgt /\
    src ∈ dom (_node_index m) /\ tgt ∈ dom (_node_index m) /\
    l = length (edge_store m) /\
    let e := Edge.init (generate_edge_id o 0) src tgt label source_side target_side in
    let m' := (add_edge o source target from_node to_node label source_side target_side m).2 in
    edge_store m' = edge_store m ++ [e] /\ node_store m' = node_store m /\
    _diagram m' = Some (set_edges (Diagram.edges d ++ [l]) d) /\
    _edge_index m' = <[Edge.id e := l]> (_edge_index m) /\
    _edges_by_node m' = index_add tgt (Edge.id e) (index_add src (Edge.id e) (_edges_by_node m)) /\
    _node_index m' = _node_index m /\ _tag_index m' = _tag_index m /\
    _type_index m' = _type_index m.
Proof.
  intros Hd. unfold add_edge. rewrite Hd.
  destruct (or_else source from_node) as [src|] eqn:Hs; [|discriminate].
  destruct (or_else target to_node) as [tgt|] eqn:Ht; [|discriminate].
  destruct (negb (Edge.truthy (Some src)) || negb (Edge.truthy (Some tgt))); [discriminate|].
  case_bool_decide as Hsrc; [discriminate|]. case_bool_decide as Htgt; [discriminate|].
  destruct (same_graph_save m) as [S1 S2 S3 S4 S5 S6 S7 S8].
  unfold alloc, assign_edges, edges_of, _index_edge, _notify_change.
  cbn -[_save_to_history Edge.init generate_edge_id index_add].
  rewrite S1, S2, S3, S4, S5, S6, S7, S8, Hd. cbn [fmap option_fmap option_map].
  rewrite deref_app_new. intros [= <-]. exists src, tgt. repeat split; done.
Qed.

Lemma add_edge_consistent o source target from_node to_node label source_side target_side
    m d l :
  consistent m ->
  _diagram m = Some d ->
  (add_edge o source target from_node to_node label source_side target_side m).1 = Ok l ->
  generate_edge_id o 0 ∉ map Edge.id (live_edges m) ->
  let m' := (add_edge o source target from_node to_node label source_side target_side m).2 in
  consistent m' /\
  live_nodes m' = live_nodes m /\
  exists e, live_edges m' = live_edges m ++ [e] /\ Edge.id e = generate_edge_id o 0 /\
            Some (Edge.source e) = or_else source from_node /\
            Some (Edge.target e) = or_else target to_node.
Proof.
  intros Hc Hd Hok Hfresh m'.
  destruct (add_edge_fields _ _ _ _ _ _ _ _ _ _ _ Hd Hok)
    as (src & tgt & Hs & Ht & _ & _ & -> & F1 & F2 & F3 & F4 & F5 & F6 & F7 & F8).
  fold m' in F1, F2, F3, F4, F5, F6, F7, F8.
  set (e := Edge.init (generate_edge_id o 0) src tgt label source_side target_side) in *.
  destruct Hc as [C1 C2 C3 C4 C5 C6 C7].
  assert (Hns : nodes_of m = Diagram.nodes d) by (unfold nodes_of; by rewrite Hd).
  assert (Hes : edges_of m = Diagram.edges d) by (unfold edges_of; by rewrite Hd).
  assert (Hes' : edges_of m' = edges_of m ++ [length (edge_store m)]).
  { unfold edges_of at 1. by rewrite F3, Hes. }
  assert (Hns' : nodes_of m' = nodes_of m).
  { unfold nodes_of at 1. by rewrite F3, Hns. }
  assert (Hold : forall l, l ∈ edges_of m -> edge_at m' l = edge_at m l).
  { intros l Hl. unfold edge_at. rewrite F1. by apply deref_app_old, C2. }
  assert (Hnew : edge_at m' (length (edge_store m)) = e).
  { unfold edge_at. rewrite F1. apply deref_app_new. }
  assert (Hle : live_edges m' = live_edges m ++ [e]).
  { unfold live_edges. rewrite Hes', map_app. cbn [map]. rewrite Hnew. f_equal.
    apply map_ext_in. intros l Hl%list_elem_of_In. by apply Hold. }
  assert (Hln : live_nodes m' = live_nodes m).
  { unfold live_nodes, node_at. by rewrite Hns', F2. }
  assert (Hnotin : length (edge_store m) ∉ edges_of m).
  { intros Hin. apply C2 in Hin. lia. }
  split; [|split; [done|exists e; by rewrite Hs, Ht]]. constructor.
  - intros l. rewrite Hns', F2. apply C1.
  - intros l. rewrite Hes', F1, length_app. cbn [length].
    intros [Hl|Hl%list_elem_of_singleton]%elem_of_app; [apply C2 in Hl|]; lia.
  - intros i l. unfold node_at. rewrite F6, Hns', F2. apply C3.
  - intros i l. rewrite F4, Hes', elem_of_app, list_elem_of_singleton.
    destruct (decide (i = Edge.id e)) as [->|Hne].
    + rewrite lookup_insert_eq. split.
      * intros [= <-]. split; [by right|by rewrite Hnew].
      * intros [[Hl| ->] Hid]; [|done].
        exfalso. apply Hfresh. rewrite Hold in Hid by done.
        change (generate_edge_id o 0) with (Edge.id e). rewrite <- Hid.
        unfold live_edges. rewrite map_map. apply list_elem_of_fmap. by exists l.
    + rewrite lookup_insert_ne by done. rewrite C4. split.
      * intros [Hl Hid]. split; [by left|]. by rewrite Hold.
      * intros [[Hl| ->] Hid]; [by rewrite <- Hold|]. congruence.
  - intros tag. unfold tag_ids. rewrite F7, Hln. apply C5.
  - intros ty. unfold type_ids. rewrite F8, Hln. apply C6.
  - intros i. unfold incident_ids, ids_incident.
    rewrite F5, Hle, !index_add_lookup, ids_app.
    fold (incident_ids m i). rewrite C7. unfold ids_incident, incident. cbn [Edge.source Edge.target e Edge.init].
    destruct (decide (i = tgt)) as [E1|Hn1], (decide (i = src)) as [E2|Hn2].
    + rewrite decide_True by (by left). set_solver.
    + by rewrite decide_True by (by right).
    + by rewrite decide_True by (by left).
    + rewrite decide_False by (intros [?|?]; congruence). set_solver.
Qed.
(** *** A new diagram *)

Lemma new_diagram_consistent o name m : consistent (new_diagram o name m).
Proof.
  assert (F : nodes_of (new_diagram o name m) = [] /\ edges_of (new_diagram o name m) = [] /\
              _node_index (new_diagram o name m) = ∅ /\ _edge_index (new_diagram o name m) = ∅ /\
              _tag_index (new_diagram o name m) = ∅ /\ _type_index (new_diagram o name m) = ∅ /\
              _edges_by_node (new_diagram o name m) = ∅).
  { unfold new_diagram, adopt, nodes_of, edges_of, _rebuild_indexes, _notify_change. cbn.
    repeat split; reflexivity. }
  destruct F as (F1 & F2 & F3 & F4 & F5 & F6 & F7).
  constructor.
  - intros l. rewrite F1. by intros ?%elem_of_nil.
  - intros l. rewrite F2. by intros ?%elem_of_nil.
  - intros i l. rewrite F1, F3, lookup_empty. split; [done|]. by intros [?%elem_of_nil _].
  - intros i l. rewrite F2, F4, lookup_empty. split; [done|]. by intros [?%elem_of_nil _].
  - intros tag. unfold tag_ids, ids_with_tag, live_nodes. by rewrite F1, F5, lookup_empty.
  - intros ty. unfold type_ids, ids_with_type, live_nodes. by rewrite F1, F6, lookup_empty.
  - intros i. unfold incident_ids, ids_incident, live_edges. by rewrite F2, F7, lookup_empty.
Qed.
(** *** The example manager is consistent *)

Ltac by_compute :=
  match goal with |- ?P => apply (bool_decide_eq_true_1 P); vm_compute; reflexivity end.

Lemma add_node_step o kwargs m :
  consistent m -> is_Some (_diagram m) ->
  Node.id (NodeKwargs.init (generate_node_id o 0) kwargs) ∉ map Node.id (live_nodes m) ->
  consistent (add_node o kwargs m).2.
Proof. intros Hc [d Hd] Hf. by apply (add_node_consistent o kwargs m d). Qed.

Lemma add_edge_step o source target from_node to_node label source_side target_side m :
  consistent m -> is_Some (_diagram m) ->
  HistoryFacts.is_ok
    (add_edge o source target from_node to_node label source_side target_side m).1 = true ->
  generate_edge_id o 0 ∉ map Edge.id (live_edges m) ->
  consistent (add_edge o source target from_node to_node label source_side target_side m).2.
Proof.
  intros Hc [d Hd] Hok Hf.
  destruct (add_edge o source target from_node to_node label source_side target_side m).1
    as [l|] eqn:El; [|discriminate].
  by apply (add_edge_consistent _ _ _ _ _ _ _ _ m d l).
Qed.

Lemma abc_consistent : consistent Examples.abc_manager.
Proof.
  unfold Examples.abc_manager. cbv zeta.
  apply add_edge_step; [|vm_compute; eauto|vm_compute; reflexivity|by_compute].
  apply add_edge_step; [|vm_compute; eauto|vm_compute; reflexivity|by_compute].
  apply add_node_step; [|vm_compute; eauto|by_compute].
  apply add_node_step; [|vm_compute; eauto|by_compute].
  apply add_node_step; [|vm_compute; eauto|by_compute].
  apply new_diagram_consistent.
Qed.

(** *** The invariant, side by side *)

Lemma consistent_iff m :
  consistent m <->
  nodes_ok (node_store m) (nodes_of m) (_node_index m) (_tag_index m) (_type_index m) /\
  edges_ok (edge_store m) (edges_of m) (_edge_index m) (_edges_by_node m).
Proof.
  split.
  - intros [C1 C2 C3 C4 C5 C6 C7].
    exact (conj (conj C1 (conj C3 (conj C5 C6))) (conj C2 (conj C4 C7))).
  - intros [(C1 & C3 & C5 & C6) (C2 & C4 & C7)]. constructor; assumption.
Qed.

Lemma filter_iff_in {A} (P Q : A -> Prop) `{!forall a, Decision (P a)}
    `{!forall a, Decision (Q a)} (l : list A) :
  (forall a, a ∈ l -> P a <-> Q a) -> filter P l = filter Q l.
Proof.
  induction l as [|a l IH]; intros Hpq; [done|].
  rewrite !filter_cons. rewrite IH by (intros; apply Hpq; by right).
  destruct (decide (P a)) as [Hp|Hp], (decide (Q a)) as [Hq|Hq]; try done.
  - exfalso. apply Hq, (Hpq a); [by left|done].
  - exfalso. apply Hp, (Hpq a); [by left|done].
Qed.

Lemma filter_all {A} (P : A -> Prop) `{!forall a, Decision (P a)} (l : list A) :
  (forall a, a ∈ l -> P a) -> filter P l = l.
Proof.
  induction l as [|a l IH]; intros Hp; [done|].
  rewrite filter_cons_True by (apply Hp; by left).
  rewrite IH; [done|]. intros; apply Hp; by right.
Qed.

Lemma map_filter_comm {A B} (g : A -> B) (P : B -> Prop) (Q : A -> Prop)
    `{!forall b, Decision (P b)} `{!forall a, Decision (Q a)} (l : list A) :
  (forall a, Q a <-> P (g a)) ->
  map g (filter Q l) = filter P (map g l).
Proof.
  intros Hpq. induction l as [|a l IH]; [done|]. cbn [map]. rewrite !filter_cons.
  destruct (decide (Q a)) as [Hq|Hq], (decide (P (g a))) as [Hp|Hp];
    cbn [map]; rewrite ?IH; try done.
  - by apply Hpq in Hq.
  - by apply Hpq in Hp.
Qed.

(** *** Removing a node, removing an edge *)

Lemma nodes_ok_indexed h ns ni ti tyi : nodes_ok h ns ni ti tyi -> nodes_indexed_at h ns ni.
Proof. intros (C1 & C3 & _). by split. Qed.

Lemma nodes_indexed_remove h ns ni node_id l :
  nodes_indexed_at h ns ni ->
  ni !! node_id = Some l ->
  nodes_indexed_at h (filter (fun l => Node.id (deref h l) ≠ node_id) ns)
    (delete (Node.id (deref h l)) ni).
Proof.
  intros (C1 & C3) Hl.
  assert (Hn : l ∈ ns /\ Node.id (deref h l) = node_id) by (by apply C3).
  destruct Hn as [Hin Hid]. rewrite Hid.
  split.
  - intros l' [_ Hl']%list_elem_of_filter. by apply C1.
  - intros i l'. destruct (decide (i = node_id)) as [->|Hne].
    + rewrite lookup_delete_eq. split; [done|].
      by intros [[Hne _]%list_elem_of_filter Hi].
    + rewrite lookup_delete_ne by done. split.
      * intros [Hl' Hi]%C3.
        split; [|done]. apply list_elem_of_filter. split; [congruence|done].
      * intros [[_ Hl']%list_elem_of_filter Hi]. by apply C3.
Qed.

Lemma nodes_ok_remove h ns ni ti tyi node_id l :
  nodes_ok h ns ni ti tyi ->
  ni !! node_id = Some l ->
  let n := deref h l in
  nodes_ok h (filter (fun l => Node.id (deref h l) ≠ node_id) ns)
    (delete (Node.id n) ni)
    (foldl (fun idx tag => index_discard tag (Node.id n) idx) ti (Node.tags n))
    (index_discard (Node.type n) (Node.id n) tyi).
Proof.
  intros Hok Hl n.
  destruct (nodes_indexed_remove h ns ni node_id l (nodes_ok_indexed _ _ _ _ _ Hok) Hl)
    as [R1 R3]. fold n in R3.
  destruct Hok as (C1 & C3 & C5 & C6).
  assert (Hn : l ∈ ns /\ Node.id n = node_id) by (by apply C3).
  destruct Hn as [Hin Hid]. rewrite Hid in R3 |- *.
  assert (Huniq : forall l', l' ∈ ns -> Node.id (deref h l') = node_id -> l' = l).
  { intros l' Hl' Hid'. assert (ni !! node_id = Some l') by (by apply C3). congruence. }
  split; [done|]. split; [done|]. split.
  - intros tag. rewrite foldl_index_discard, C5. unfold ids_with_tag.
    apply set_eq. intros x.
    rewrite elem_of_difference, !elem_of_ids. split.
    + intros [(a & (l' & -> & Hl')%list_elem_of_fmap & Ht & <-) Hx].
      exists (deref h l'). split; [|done].
      apply list_elem_of_fmap. exists l'. split; [done|].
      apply list_elem_of_filter. split; [|done].
      intros Heq. apply Hx. rewrite (Huniq l' Hl' Heq) in Ht. fold n in Ht.
      rewrite decide_True by done. apply elem_of_singleton. congruence.
    + intros (a & (l' & -> & [Hne Hl']%list_elem_of_filter)%list_elem_of_fmap & Ht & <-).
      split.
      * exists (deref h l'). split; [|done]. apply list_elem_of_fmap. by exists l'.
      * case_decide; [|apply not_elem_of_empty]. by intros ?%elem_of_singleton.
  - intros ty. rewrite index_discard_lookup, C6. unfold ids_with_type.
    apply set_eq. intros x.
    assert (Hiff : x ∈ (list_to_set (map Node.id
                      (filter (fun n => Node.type n = ty) (map (deref h) ns))) : gset string)
                   ∖ (if decide (ty = Node.type n) then {[node_id]} else ∅)
                   <-> x ∈ (list_to_set (map Node.id
                         (filter (fun n => Node.type n = ty)
                            (map (deref h)
                               (filter (fun l => Node.id (deref h l) ≠ node_id) ns))))
                         : gset string)).
    { rewrite elem_of_difference, !elem_of_ids. split.
      - intros [(a & (l' & -> & Hl')%list_elem_of_fmap & Ht & <-) Hx].
        exists (deref h l'). split; [|done].
        apply list_elem_of_fmap. exists l'. split; [done|].
        apply list_elem_of_filter. split; [|done].
        intros Heq. apply Hx. rewrite (Huniq l' Hl' Heq) in Ht. fold n in Ht.
        rewrite decide_True by done. apply elem_of_singleton. congruence.
      - intros (a & (l' & -> & [Hne Hl']%list_elem_of_filter)%list_elem_of_fmap & Ht & <-).
        split.
        + exists (deref h l'). split; [|done]. apply list_elem_of_fmap. by exists l'.
        + case_decide; [|apply not_elem_of_empty]. by intros ?%elem_of_singleton. }
    case_decide as Hty.
    + exact Hiff.
    + rewrite <- Hiff. rewrite elem_of_difference.
      split; [|by intros [? _]]. intros ?. split; [done|apply not_elem_of_empty].
Qed.

Lemma edges_ok_remove h es ei ebn edge_id l :
  edges_ok h es ei ebn ->
  ei !! edge_id = Some l ->
  let e := deref h l in
  edges_ok h (filter (fun l => Edge.id (deref h l) ≠ edge_id) es)
    (delete (Edge.id e) ei)
    (index_discard (Edge.target e) (Edge.id e)
       (index_discard (Edge.source e) (Edge.id e) ebn)).
Proof.
  intros (C2 & C4 & C7) Hl e.
  assert (He : l ∈ es /\ Edge.id e = edge_id) by (by apply C4).
  destruct He as [Hin Hid]. rewrite Hid.
  assert (Huniq : forall l', l' ∈ es -> Edge.id (deref h l') = edge_id -> l' = l).
  { intros l' Hl' Hid'. assert (ei !! edge_id = Some l') by (by apply C4). congruence. }
  split; [|split].
  - intros l' [_ Hl']%list_elem_of_filter. by apply C2.
  - intros i l'. destruct (decide (i = edge_id)) as [->|Hne].
    + rewrite lookup_delete_eq. split; [done|].
      by intros [[Hne _]%list_elem_of_filter Hi].
    + rewrite lookup_delete_ne by done. split.
      * intros [Hl' Hi]%C4.
        split; [|done]. apply list_elem_of_filter. split; [congruence|done].
      * intros [[_ Hl']%list_elem_of_filter Hi]. by apply C4.
  - intros n. rewrite !index_discard_lookup, C7. unfold ids_incident.
    apply set_eq. intros x.
    assert (Hiff : x ∈ (list_to_set (map Edge.id
                      (filter (incident n)
                         (map (deref h)
                            (filter (fun l => Edge.id (deref h l) ≠ edge_id) es))))
                     : gset string)
                   <-> x ∈ (list_to_set (map Edge.id (filter (incident n) (map (deref h) es)))
                            : gset string) /\ (incident n e -> x ≠ edge_id)).
    { rewrite !elem_of_ids. split.
      - intros (a & (l' & -> & [Hne Hl']%list_elem_of_filter)%list_elem_of_fmap & Ht & <-).
        split; [|done].
        exists (deref h l'). split; [|done]. apply list_elem_of_fmap. by exists l'.
      - intros [(a & (l' & -> & Hl')%list_elem_of_fmap & Ht & <-) Hx].
        exists (deref h l'). split; [|done].
        apply list_elem_of_fmap. exists l'. split; [done|].
        apply list_elem_of_filter. split; [|done].
        intros Heq. rewrite (Huniq l' Hl' Heq) in Ht, Hx. fold e in Ht, Hx.
        by apply Hx. }
    rewrite Hiff. unfold incident.
    repeat case_decide; rewrite ?elem_of_difference, ?elem_of_singleton.
    all: naive_solver.
Qed.

(** *** The fields after a removal *)

Lemma remove_node_fields l ns m :
  let m' := _unindex_node l (assign_nodes ns m) in
  let n := node_at m l in
  node_store m' = node_store m /\ edge_store m' = edge_store m /\
  _diagram m' = (set_nodes ns <$> _diagram m) /\
  _node_index m' = delete (Node.id n) (_node_index m) /\
  _tag_index m' = foldl (fun idx tag => index_discard tag (Node.id n) idx)
                    (_tag_index m) (Node.tags n) /\
  _type_index m' = index_discard (Node.type n) (Node.id n) (_type_index m) /\
  _edge_index m' = _edge_index m /\ _edges_by_node m' = _edges_by_node m.
Proof. repeat split; reflexivity. Qed.

Lemma remove_edge_fields l es m :
  let m' := _unindex_edge l (assign_edges es m) in
  let e := edge_at m l in
  node_store m' = node_store m /\ edge_store m' = edge_store m /\
  _diagram m' = (set_edges es <$> _diagram m) /\
  _node_index m' = _node_index m /\ _tag_index m' = _tag_index m /\
  _type_index m' = _type_index m /\
  _edge_index m' = delete (Edge.id e) (_edge_index m) /\
  _edges_by_node m' = index_discard (Edge.target e) (Edge.id e)
                        (index_discard (Edge.source e) (Edge.id e) (_edges_by_node m)).
Proof. repeat split; reflexivity. Qed.

Lemma nodes_of_set_nodes ns m d m' :
  _diagram m = Some d -> _diagram m' = (set_nodes ns <$> _diagram m) ->
  nodes_of m' = ns /\ edges_of m' = edges_of m.
Proof. intros Hd Hd'. unfold nodes_of, edges_of. by rewrite Hd', Hd. Qed.

Lemma edges_of_set_edges es m d m' :
  _diagram m = Some d -> _diagram m' = (set_edges es <$> _diagram m) ->
  nodes_of m' = nodes_of m /\ edges_of m' = es.
Proof. intros Hd Hd'. unfold nodes_of, edges_of. by rewrite Hd', Hd. Qed.

Lemma member_diagram_nodes m l : l ∈ nodes_of m -> exists d, _diagram m = Some d.
Proof. unfold nodes_of. destruct (_diagram m); [eauto|]. by intros ?%elem_of_nil. Qed.

Lemma member_diagram_edges m l : l ∈ edges_of m -> exists d, _diagram m = Some d.
Proof. unfold edges_of. destruct (_diagram m); [eauto|]. by intros ?%elem_of_nil. Qed.

Lemma same_nodes_refl m : same_nodes m m.
Proof. by constructor. Qed.

Lemma same_nodes_trans m1 m2 m3 : same_nodes m1 m2 -> same_nodes m2 m3 -> same_nodes m1 m3.
Proof. intros [] []. constructor; congruence. Qed.

Lemma same_graph_same_nodes m m' : same_graph m m' -> same_nodes m m'.
Proof.
  intros Hsg. destruct (same_graph_live m m' Hsg) as (Hn & _).
  destruct Hsg. by constructor.
Qed.

Lemma same_graph_edges_indexed m m' : same_graph m m' -> edges_indexed m -> edges_indexed m'.
Proof.
  intros Hsg. destruct (same_graph_live m m' Hsg) as (_ & He & _).
  destruct Hsg as [_ _ H3 _ H5 _ _ H8]. unfold edges_indexed. by rewrite He, H3, H5, H8.
Qed.

Lemma consistent_sides m :
  consistent m <->
  nodes_ok (node_store m) (nodes_of m) (_node_index m) (_tag_index m) (_type_index m) /\
  edges_indexed m.
Proof. apply consistent_iff. Qed.

(** One iteration of the loop of [delete_node] removes the edges of that
    id, and nothing else. *)
Lemma delete_connected_spec edge_id m :
  edges_indexed m ->
  let m' := delete_connected edge_id m in
  edges_indexed m' /\ same_nodes m m' /\
  edge_store m' = edge_store m /\
  edges_of m' = filter (fun l => Edge.id (edge_at m l) ≠ edge_id) (edges_of m).
Proof.
  intros Hc. unfold delete_connected.
  destruct (_edge_index m !! edge_id) as [l|] eqn:Hl; cbv zeta.
  - assert (Hin : l ∈ edges_of m) by (by apply Hc in Hl as [? _]).
    destruct (member_diagram_edges m l Hin) as [d Hd].
    set (es := filter _ (edges_of m)).
    destruct (remove_edge_fields l es m) as (F1 & F2 & F3 & F4 & F5 & F6 & F7 & F8).
    destruct (edges_of_set_edges es m d _ Hd F3) as [Hn He].
    split; [|split; [by constructor|by rewrite F2, He]].
    unfold edges_indexed. rewrite He, F2, F7, F8.
    by apply edges_ok_remove.
  - split; [done|]. split; [apply same_nodes_refl|]. split; [done|].
    symmetry. apply filter_all. intros l Hin Heq.
    assert (_edge_index m !! edge_id = Some l) by (by apply Hc).
    congruence.
Qed.

Lemma delete_connected_fold (edge_ids : list string) m :
  edges_indexed m ->
  let m' := foldl (fun m edge_id => delete_connected edge_id m) m edge_ids in
  edges_indexed m' /\ same_nodes m m' /\
  edge_store m' = edge_store m /\
  edges_of m' = filter (fun l => Edge.id (edge_at m l) ∉ edge_ids) (edges_of m).
Proof.
  revert m. induction edge_ids as [|i ids IH]; intros m Hc; cbn [foldl].
  - split; [done|]. split; [apply same_nodes_refl|]. split; [done|].
    symmetry. apply filter_all. intros l _. apply not_elem_of_nil.
  - destruct (delete_connected_spec i m Hc) as (Hc1 & Hn1 & Hs1 & He1).
    destruct (IH _ Hc1) as (Hc2 & Hn2 & Hs2 & He2).
    split; [done|]. split; [by eapply same_nodes_trans|]. split; [congruence|].
    rewrite He2, He1. unfold edge_at. rewrite Hs1, list_filter_filter.
    apply filter_iff_in. intros l _. rewrite not_elem_of_cons. tauto.
Qed.

Lemma abc_indexed : nodes_indexed Examples.abc_manager /\ edges_indexed Examples.abc_manager.
Proof.
  destruct (proj1 (consistent_sides _) abc_consistent) as [Hn He].
  split; [by eapply nodes_ok_indexed|done].
Qed.

(** *** [update_node] with one field *)



(** *** Calls that name a missing id *)






(** *** [delete_node] *)

Lemma delete_node_eq node_id m d l :
  _diagram m = Some d -> _node_index m !! node_id = Some l ->
  delete_node node_id m =
  (Ok true,
   let m1 := _save_to_history m in
   let m2 := _unindex_node l
               (assign_nodes
                  (filter (fun n => Node.id (deref (node_store m1) n) ≠ node_id) (nodes_of m1))
                  m1) in
   _notify_change
     (set_dirty true
        (foldl (fun m edge_id => delete_connected edge_id m) m2
           (elements (incident_ids m2 node_id))))).
Proof. intros Hd Hl. unfold delete_node. by rewrite Hd, Hl. Qed.


(** The state that [delete_node] leaves, field by field. *)
Lemma delete_node_spec node_id m d l :
  nodes_indexed m -> edges_indexed m ->
  _diagram m = Some d -> _node_index m !! node_id = Some l ->
  let m' := (delete_node node_id m).2 in
  (delete_node node_id m).1 = Ok true /\
  node_store m' = node_store m /\ edge_store m' = edge_store m /\
  nodes_of m' = filter (fun l => Node.id (node_at m l) ≠ node_id) (nodes_of m) /\
  edges_of m' = filter (fun l => ~ incident node_id (edge_at m l)) (edges_of m) /\
  _node_index m' = delete node_id (_node_index m) /\
  _tag_index m' = foldl (fun idx tag => index_discard tag node_id idx)
                    (_tag_index m) (Node.tags (node_at m l)) /\
  _type_index m' = index_discard (Node.type (node_at m l)) node_id (_type_index m) /\
  edges_indexed m'.
Proof.
  intros Hni Hei Hd Hl.
  assert (Hid : Node.id (node_at m l) = node_id) by (by apply Hni in Hl as [_ ?]).
  rewrite (delete_node_eq node_id m d l Hd Hl). cbv zeta. cbn [fst snd].
  pose proof (same_graph_save m) as Hsg.
  destruct (same_graph_live _ _ Hsg) as (Hn1 & He1 & _ & _).
  pose proof (same_graph_edges_indexed _ _ Hsg Hei) as Hei1.
  destruct Hsg as [G1 G2 G3 G4 G5 G6 G7 G8].
  set (m1 := _save_to_history m) in *.
  rewrite Hn1, G2.
  set (ns := filter _ (nodes_of m)).
  destruct (remove_node_fields l ns m1) as (F1 & F2 & F3 & F4 & F5 & F6 & F7 & F8).
  destruct (nodes_of_set_nodes ns m1 d _ (eq_trans G1 Hd) F3) as [Hn2 He2].
  unfold node_at in F4, F5, F6. rewrite G2 in F4, F5, F6.
  fold (node_at m l) in F4, F5, F6. rewrite Hid in F4, F5, F6.
  set (m2 := _unindex_node l (assign_nodes ns m1)) in *.
  assert (Hei2 : edges_indexed m2).
  { unfold edges_indexed. by rewrite He2, F2, F7, F8. }
  destruct (delete_connected_fold (elements (incident_ids m2 node_id)) m2 Hei2)
    as (Hei3 & [N1 N2 N3 N4 N5] & Hs3 & He3).
  set (m3 := foldl _ m2 _) in *.
  assert (Hsg4 : same_graph m3 (_notify_change (set_dirty true m3))).
  { eapply same_graph_trans; [apply same_graph_dirty|apply same_graph_notify]. }
  destruct (same_graph_live _ _ Hsg4) as (Hn4 & He4 & _ & _).
  pose proof (same_graph_edges_indexed _ _ Hsg4 Hei3) as Hei4.
  destruct Hsg4 as [_ K2 K3 K4 K5 K6 K7 K8].
  set (m4 := _notify_change (set_dirty true m3)) in *.
  split; [done|]. split; [congruence|]. split; [congruence|].
  split; [by rewrite Hn4, N2, Hn2|].
  split.
  { rewrite He4, He3, He2, He1.
    apply filter_iff_in. intros le Hle.
    unfold edge_at, incident_ids. rewrite F2, F8, G3, G8.
    destruct Hei as (_ & C4 & C7). rewrite C7.
    rewrite elem_of_elements. unfold ids_incident. rewrite elem_of_ids.
    split.
    - intros Hno Hinc. apply Hno. exists (deref (edge_store m) le).
      split; [|done]. apply list_elem_of_fmap. by exists le.
    - intros Hno (e & (le' & -> & Hle')%list_elem_of_fmap & Hinc & Heq).
      apply Hno.
      assert (le' = le) as <-; [|done].
      assert (Hi : _edge_index m !! Edge.id (deref (edge_store m) le) = Some le)
        by (by apply C4).
      rewrite <- Heq in Hi. apply C4 in Hi. 
      assert (Hi' : _edge_index m !! Edge.id (deref (edge_store m) le') = Some le')
        by (by apply C4).
      assert (Hi2 : _edge_index m !! Edge.id (deref (edge_store m) le') = Some le).
      { apply C4. split; [done|]. congruence. }
      congruence. }
  split; [congruence|]. split; [congruence|]. split; [congruence|done].
Qed.



(** *** [delete_edge] *)

Lemma delete_edge_eq edge_id m d l :
  _diagram m = Some d -> _edge_index m !! edge_id = Some l ->
  delete_edge edge_id m =
  (Ok true,
   _notify_change (set_dirty true (delete_connected edge_id (_save_to_history m)))).
Proof.
  intros Hd Hl. destruct (same_graph_save m) as [_ _ _ _ G5 _ _ _].
  unfold delete_edge, delete_connected. by rewrite Hd, Hl, G5, Hl.
Qed.

Lemma delete_edge_consistent edge_id m d :
  consistent m -> _diagram m = Some d ->
  let m' := (delete_edge edge_id m).2 in
  consistent m' /\ live_nodes m' = live_nodes m /\
  live_edges m' = filter (fun e => Edge.id e ≠ edge_id) (live_edges m).
Proof.
  intros Hc Hd. cbv zeta.
  destruct (_edge_index m !! edge_id) as [l|] eqn:Hl.
  - rewrite (delete_edge_eq edge_id m d l Hd Hl). cbn [snd].
    pose proof (same_graph_save m) as Hsg.
    pose proof (consistent_same_graph _ _ Hsg Hc) as Hc1.
    destruct (same_graph_live _ _ Hsg) as (_ & He1 & Hln1 & _).
    destruct Hsg as [_ G2 G3 _ _ _ _ _].
    set (m1 := _save_to_history m) in *.
    destruct (proj1 (consistent_sides m1) Hc1) as [Hno1 Hei1].
    destruct (delete_connected_spec edge_id m1 Hei1) as (Hei2 & [N1 N2 N3 N4 N5] & Hs2 & He2).
    set (m2 := delete_connected edge_id m1) in *.
    assert (Hsg3 : same_graph m2 (_notify_change (set_dirty true m2))).
    { eapply same_graph_trans; [apply same_graph_dirty|apply same_graph_notify]. }
    assert (Hc2 : consistent m2).
    { apply consistent_sides. split; [|done]. by rewrite N1, N2, N3, N4, N5. }
    destruct (same_graph_live _ _ Hsg3) as (_ & _ & Hln3 & Hle3).
    split; [by apply (consistent_same_graph _ _ Hsg3)|].
    rewrite Hln3, Hle3. split.
    + rewrite <- Hln1. unfold live_nodes, node_at. by rewrite N1, N2.
    + unfold live_edges, edge_at. rewrite Hs2, He2, He1, G3.
      unfold edge_at. rewrite G3. by apply map_filter_comm.
  - assert (Hr : delete_edge edge_id m = (Ok false, m)).
    { unfold delete_edge. by rewrite Hd, Hl. }
    rewrite Hr. cbn [snd]. split; [done|]. split; [done|].
    symmetry. apply filter_all.
    intros e (le & -> & Hle)%list_elem_of_fmap Heq.
    assert (_edge_index m !! edge_id = Some le) by (by apply (c_edge_index m Hc)).
    congruence.
Qed.

(** *** A tag listed twice *)

(** C2. The tag index does not follow the tags in every run.  A node is
    added to a new diagram with the tag list ["t"; "t"]: the manager is
    consistent.  Then [bulk_update_tags] is asked to remove "t" from it:
    [list.remove] takes out the first occurrence only, so the node still
    has the tag "t", and the id is discarded from the index set of "t",
    which is now empty.  The index and the tags disagree. *)
Theorem tag_index_loses_twice_tagged_node :
  let r1 := add_node Examples.example_oracle twice_tagged Examples.empty_manager in
  let r2 := bulk_update_tags ["n00000000"] None (Some ["t"]) r1.2 in
  r1.1 = Ok 0%nat /\ consistent r1.2 /\
  r2.1 = Ok [0%nat] /\
  map Node.id (live_nodes r2.2) = ["n00000000"] /\
  map Node.tags (live_nodes r2.2) = [["t"]] /\
  tag_ids r2.2 "t" = ∅ /\
  ids_with_tag (live_nodes r2.2) "t" = {["n00000000"]} /\
  ~ consistent r2.2.
Proof.
  cbv zeta.
  assert (Ht : tag_ids (bulk_update_tags ["n00000000"] None (Some ["t"])
                 (add_node Examples.example_oracle twice_tagged Examples.empty_manager).2).2
                 "t" = ∅) by by_compute.
  assert (Hl : ids_with_tag (live_nodes (bulk_update_tags ["n00000000"] None (Some ["t"])
                 (add_node Examples.example_oracle twice_tagged Examples.empty_manager).2).2)
                 "t" = {["n00000000"]}) by by_compute.
  split; [vm_compute; reflexivity|]. split.
  { apply add_node_step; [|vm_compute; eauto|by_compute].
    apply new_diagram_consistent. }
  split; [vm_compute; reflexivity|]. split; [vm_compute; reflexivity|].
  split; [vm_compute; reflexivity|]. split; [done|]. split; [done|].
  intros Hc. pose proof (c_tags _ Hc "t") as Heq. rewrite Ht, Hl in Heq.
  assert (Hin : "n00000000" ∈ (∅ : gset string)) by (rewrite Heq; by apply elem_of_singleton).
  by apply not_elem_of_empty in Hin.
Qed.

End StoreFacts.

(** ** The validator, counted *)

Module SummaryFacts.
Import Models Validation ValidationFacts.

(** The ends of edges that name no node of the diagram. *)
Definition dangling_ends (v : Diagram.value) : nat :=
  let node_ids := map Node.id (Diagram.nodes v) in
  length (filter (fun e => Edge.source e ∉ node_ids) (Diagram.edges v))
  + length (filter (fun e => Edge.target e ∉ node_ids) (Diagram.edges v)).

Definition closed (v : Diagram.value) : Prop :=
  Forall (fun e => Edge.source e ∈ map Node.id (Diagram.nodes v) /\
                   Edge.target e ∈ map Node.id (Diagram.nodes v)) (Diagram.edges v).

Lemma severity_partition (issues : list ValidationIssue) :
  length issues
  = count is_error issues + count is_warning issues + count is_info issues.
Proof.
  unfold count, is_error, is_warning, is_info.
  induction issues as [|i issues IH]; [done|].
  cbn [List.filter length]. destruct (severity i); cbn [length]; lia.
Qed.

Lemma count_flat_map {A} (p : ValidationIssue -> bool) (f : A -> list ValidationIssue)
    (l : list A) :
  (forall a, count p (f a) = 0) -> count p (flat_map f l) = 0.
Proof.
  intros Hf. induction l as [|a l IH]; [done|].
  cbn [flat_map]. by rewrite count_app, Hf, IH.
Qed.

Lemma count_orphan_issues (p : ValidationIssue -> bool) nodes orphans :
  (forall i, severity i = WARNING -> p i = false) ->
  count p (orphan_issues nodes orphans) = 0.
Proof.
  intros Hp. unfold orphan_issues. case_bool_decide; [|done].
  unfold count. cbn [List.filter]. by rewrite Hp.
Qed.

Lemma count_self_loop_issues (p : ValidationIssue -> bool) edges :
  (forall i, severity i = WARNING -> p i = false) ->
  count p (self_loop_issues edges) = 0.
Proof.
  intros Hp. apply count_flat_map. intros e. case_bool_decide; [|done].
  unfold count. cbn [List.filter]. by rewrite Hp.
Qed.

Lemma count_duplicate_issues (p : ValidationIssue -> bool) seen edges :
  (forall i, severity i = WARNING -> p i = false) ->
  count p (duplicate_issues seen edges) = 0.
Proof.
  intros Hp. revert seen. induction edges as [|e edges IH]; intros seen; [done|].
  cbn [duplicate_issues]. case_bool_decide; [|apply IH].
  unfold count in *. cbn [List.filter]. rewrite Hp by done. apply IH.
Qed.

Lemma count_warning_only (p : ValidationIssue -> bool) (v : Diagram.value) n ns :
  (forall i, severity i = WARNING -> p i = false) ->
  Diagram.nodes v = n :: ns ->
  count p (validate_diagram v)
  = count p (reference_issues (list_to_set (map Node.id (Diagram.nodes v)))
               (Diagram.edges v)).
Proof.
  intros Hp Hn. unfold validate_diagram. rewrite Hn. rewrite <- Hn.
  rewrite !count_app, count_orphan_issues, count_self_loop_issues,
    count_duplicate_issues by done.
  rewrite count_label_issues by (intros; by apply Hp). lia.
Qed.

Lemma count_reference_errors (ids : list string) (edges : list Edge.t) :
  count is_error (reference_issues (list_to_set ids) edges)
  = length (filter (fun e => Edge.source e ∉ ids) edges)
    + length (filter (fun e => Edge.target e ∉ ids) edges).
Proof.
  induction edges as [|e edges IH]; [done|].
  cbn [reference_issues flat_map]. rewrite count_app.
  fold (reference_issues (list_to_set ids) edges). rewrite IH, !filter_cons.
  rewrite count_app.
  destruct (decide (Edge.source e ∉ ids)) as [Hs|Hs],
           (decide (Edge.target e ∉ ids)) as [Ht|Ht];
    rewrite ?(bool_decide_eq_true_2 (Edge.source e ∉ (list_to_set ids : gset string)))
      by (by rewrite elem_of_list_to_set);
    rewrite ?(bool_decide_eq_false_2 (Edge.source e ∉ (list_to_set ids : gset string)))
      by (by rewrite elem_of_list_to_set);
    rewrite ?(bool_decide_eq_true_2 (Edge.target e ∉ (list_to_set ids : gset string)))
      by (by rewrite elem_of_list_to_set);
    rewrite ?(bool_decide_eq_false_2 (Edge.target e ∉ (list_to_set ids : gset string)))
      by (by rewrite elem_of_list_to_set);
    unfold count; cbn [List.filter is_error severity length]; lia.
Qed.

Lemma count_reference_info (ids : gset string) (edges : list Edge.t) :
  count is_info (reference_issues ids edges) = 0.
Proof.
  apply count_flat_map. intros e. rewrite count_app.
  by do 2 case_bool_decide.
Qed.

Lemma no_dangling_iff (v : Diagram.value) : dangling_ends v = 0 <-> closed v.
Proof.
  unfold dangling_ends, closed. cbv zeta.
  induction (Diagram.edges v) as [|e es IH]; [by split; [constructor|]|].
  rewrite !filter_cons, Forall_cons.
  destruct (decide (Edge.source e ∉ _)) as [Hs|Hs],
           (decide (Edge.target e ∉ _)) as [Ht|Ht]; cbn [length].
  - split; [lia|]. by intros [[? ?] _].
  - split; [lia|]. by intros [[? ?] _].
  - split; [lia|]. by intros [[? ?] _].
  - apply dec_stable in Hs. apply dec_stable in Ht. rewrite IH. tauto.
Qed.

Lemma errors_are_dangling_ends (v : Diagram.value) :
  count is_error (validate_diagram v)
  = match Diagram.nodes v with [] => 0 | _ :: _ => dangling_ends v end.
Proof.
  destruct (Diagram.nodes v) as [|n ns] eqn:Hn.
  - unfold validate_diagram. by rewrite Hn.
  - rewrite (count_warning_only is_error v n ns) by
      (try done; intros i Hi; unfold is_error; by rewrite Hi).
    apply count_reference_errors.
Qed.

(** X10. The summary of a validation: the three counts add up to the total;
    a diagram without nodes gets the one INFO issue and counts as valid,
    whatever its edges are; for any other diagram there is no INFO issue,
    the number of errors is the number of edge ends that name no node, and
    the diagram counts as valid exactly when every edge starts and ends at
    a node of the diagram. *)
Theorem summary_of_validation (v : Diagram.value) :
  let s := validation_summary (validate_diagram v) in
  total s = errors s + warnings s + info s /\
  (Diagram.nodes v = [] ->
   total s = 1 /\ info s = 1 /\ errors s = 0 /\ valid s = true) /\
  (Diagram.nodes v <> [] ->
   info s = 0 /\ errors s = dangling_ends v /\ (valid s = true <-> closed v)).
Proof.
  cbv zeta. unfold validation_summary. cbn [total errors warnings info valid].
  fold (count is_error (validate_diagram v)). fold (count is_warning (validate_diagram v)).
  fold (count is_info (validate_diagram v)).
  split; [apply severity_partition|]. rewrite errors_are_dangling_ends.
  split; intros Hn.
  - unfold validate_diagram. by rewrite Hn.
  - destruct (Diagram.nodes v) as [|n ns] eqn:Hn'; [done|].
    split; [|split; [done|]].
    + rewrite (count_warning_only is_info v n ns) by
        (try done; intros i Hi; unfold is_info; by rewrite Hi).
      apply count_reference_info.
    + rewrite Nat.eqb_eq. apply no_dangling_iff.
Qed.

End SummaryFacts.

(** ** The indexes, rebuilt and migrated *)

Module IndexFacts.
Import Models Heap Manager StoreFacts.

Definition reinstalled (v : Diagram.value) (m : t) : t :=
  _notify_change (_rebuild_indexes (set_dirty true (adopt v m))).

Definition tags_nodup (m : t) : Prop :=
  forall l, l ∈ nodes_of m -> NoDup (Node.tags (node_at m l)).

(** [retagged m m']: from [m] to [m'] only tag lists and the tag index moved. *)
Record retagged (m m' : t) : Prop := {
  rt_diagram : _diagram m' = _diagram m;
  rt_length : length (node_store m') = length (node_store m);
  rt_edges : edge_store m' = edge_store m;
  rt_node_index : _node_index m' = _node_index m;
  rt_type_index : _type_index m' = _type_index m;
  rt_edge_index : _edge_index m' = _edge_index m;
  rt_edges_by_node : _edges_by_node m' = _edges_by_node m;
  rt_history : _history m' = _history m;
  rt_future : _future m' = _future m;
  rt_fields : forall l, set_tags (Node.tags (node_at m l)) (node_at m' l) = node_at m l
}.

(** One node gets the tag list [ts]; the tag index gets [ti']. *)
Definition with_tags (l : loc) (ts : list string) (ti' : gmap string (gset string)) (m : t) : t :=
  set_tag_index ti' (set_node_store (store l (set_tags ts (node_at m l)) (node_store m)) m).

(** The tag set a node is left with. *)
Definition tag_set (m : t) (l : loc) : gset string := list_to_set (Node.tags (node_at m l)).

(** The state of the loop over [node_ids] after the ids [seen]. *)
Definition bulk_inv (m0 : t) (add remove : list string) (seen : list string)
    (st : t * list loc) : Prop :=
  consistent st.1 /\ tags_nodup st.1 /\ retagged m0 st.1 /\
  st.2 = omap (fun i => _node_index m0 !! i) seen /\
  forall l, l ∈ nodes_of m0 ->
    tag_set st.1 l
    = if decide (Node.id (node_at m0 l) ∈ seen)
      then (list_to_set add ∪ tag_set m0 l) ∖ list_to_set remove
      else tag_set m0 l.

(** Distinct node ids, distinct edge ids, no tag listed twice, no edge end
    that is not a node. *)
Record wf_lists (ns : list Node.t) (es : list Edge.t) : Prop := {
  wf_node_ids : NoDup (map Node.id ns);
  wf_edge_ids : NoDup (map Edge.id es);
  wf_tags : Forall (fun n => NoDup (Node.tags n)) ns;
  wf_closed : Forall (fun e => Edge.source e ∈ map Node.id ns /\
                               Edge.target e ∈ map Node.id ns) es
}.

Definition well_formed (v : Diagram.value) : Prop :=
  wf_lists (Diagram.nodes v) (Diagram.edges v).

Definition shaped (m : t) : Prop := wf_lists (live_nodes m) (live_edges m).

Ltac call_outcome :=
  cbv beta iota zeta;
  cbn [fst snd HistoryFacts.is_ok HistoryFacts.is_found HistoryFacts.is_true];
  first [discriminate | done].

(** What a call must not do for this: reuse an id, list a tag twice, rename
    a node or an edge, or move an end of an edge. *)
Definition safe (a : HistoryFacts.op) (m : t) : Prop :=
  match a with
  | HistoryFacts.AddNode o kwargs =>
      (Node.id (NodeKwargs.init (generate_node_id o 0) kwargs) ∉ map Node.id (live_nodes m)) /\
      NoDup (default [] (NodeKwargs.tags kwargs))
  | HistoryFacts.UpdateNode _ kwargs =>
      NodeKwargs.id kwargs = None /\ NoDup (default [] (NodeKwargs.tags kwargs))
  | HistoryFacts.AddEdge o _ _ _ _ _ _ _ =>
      generate_edge_id o 0 ∉ map Edge.id (live_edges m)
  | HistoryFacts.UpdateEdge _ kwargs =>
      EdgeKwargs.id kwargs = None /\ EdgeKwargs.source kwargs = None /\
      EdgeKwargs.target kwargs = None
  | _ => True
  end.

(** A snapshot written from a diagram in good shape. *)
Definition good_snapshot (s : dict) : Prop :=
  exists v, s = Diagram.to_json_dict v /\ well_formed v.

(** The indexes agree with the diagram, the diagram is in good shape, and so
    is every diagram kept on the undo and redo stacks. *)
Record sound (m : t) : Prop := {
  so_active : is_Some (_diagram m);
  so_consistent : consistent m;
  so_shaped : shaped m;
  so_history : Forall good_snapshot (_history m);
  so_future : Forall good_snapshot (_future m)
}.

Inductive step :=
| Call (a : HistoryFacts.op)
| Undo (o : oracle)
| Redo (o : oracle).

Definition do_step (s : step) (m : t) : t :=
  match s with
  | Call a => (HistoryFacts.call a m).2
  | Undo o => (undo o m).2
  | Redo o => (redo o m).2
  end.

Fixpoint do_steps (ss : list step) (m : t) : t :=
  match ss with
  | [] => m
  | s :: ss => do_steps ss (do_step s m)
  end.

(** Every call of the sequence is [safe] in the state it is made in. *)
Fixpoint all_safe (ss : list step) (m : t) : Prop :=
  match ss with
  | [] => True
  | s :: ss => match s with Call a => safe a m | _ => True end /\ all_safe ss (do_step s m)
  end.

Definition example_steps : list step :=
  [ Call (HistoryFacts.AddNode Examples.example_oracle (Examples.kw "a" "Alpha" ["front"]));
    Call (HistoryFacts.AddNode Examples.example_oracle (Examples.kw "b" "Beta" ["front"; "db"]));
    Call (HistoryFacts.AddEdge Examples.example_oracle (Some "a") (Some "b") None None ""
            None None);
    Call (HistoryFacts.BulkUpdateTags ["a"; "b"] (Some ["x"; "x"]) (Some ["front"]));
    Call (HistoryFacts.DeleteNode "a");
    Undo Examples.example_oracle;
    Undo Examples.example_oracle;
    Redo Examples.example_oracle;
    Call (HistoryFacts.UpdateNode "a" (NodeKwargs.only_x 5)) ].

(** The undo and redo stacks together hold at most [max_history] snapshots. *)
Definition stack_room (m : t) : Prop :=
  (Z.of_nat (length (_history m) + length (_future m)) <= _max_history m)%Z.

Definition three_adds : list step :=
  [ Call (HistoryFacts.AddNode Examples.example_oracle (Examples.kw "a" "Alpha" []));
    Call (HistoryFacts.AddNode Examples.example_oracle (Examples.kw "b" "Beta" []));
    Call (HistoryFacts.AddNode Examples.example_oracle (Examples.kw "c" "Gamma" []));
    Undo Examples.example_oracle ].

(** *** [_rebuild_indexes] *)

Lemma index_nodes_fields (h : list Node.t) (ns : list loc) m :
  node_store m = h ->
  let m' := foldl (fun m node => _index_node node m) m ns in
  node_store m' = h /\ edge_store m' = edge_store m /\ _diagram m' = _diagram m /\
  _node_index m' = foldl (fun ni l => <[Node.id (deref h l) := l]> ni) (_node_index m) ns /\
  _tag_index m'
  = foldl (fun ti l => foldl (fun idx tag => index_add tag (Node.id (deref h l)) idx)
                             ti (Node.tags (deref h l)))
          (_tag_index m) ns /\
  _type_index m'
  = foldl (fun tyi l => index_add (Node.type (deref h l)) (Node.id (deref h l)) tyi)
          (_type_index m) ns /\
  _edge_index m' = _edge_index m /\ _edges_by_node m' = _edges_by_node m.
Proof.
  revert m. induction ns as [|a ns IH]; intros m Hh; cbn [foldl]; [by rewrite Hh|].
  destruct (IH (_index_node a m)) as (I1 & I2 & I3 & I4 & I5 & I6 & I7 & I8); [exact Hh|].
  cbv zeta. rewrite I1, I2, I3, I4, I5, I6, I7, I8.
  unfold _index_node. cbn. by rewrite Hh.
Qed.

Lemma index_edges_fields (h : list Edge.t) (es : list loc) m :
  edge_store m = h ->
  let m' := foldl (fun m edge => _index_edge edge m) m es in
  node_store m' = node_store m /\ edge_store m' = h /\ _diagram m' = _diagram m /\
  _node_index m' = _node_index m /\ _tag_index m' = _tag_index m /\
  _type_index m' = _type_index m /\
  _edge_index m' = foldl (fun ei l => <[Edge.id (deref h l) := l]> ei) (_edge_index m) es /\
  _edges_by_node m'
  = foldl (fun ebn l => index_add (Edge.target (deref h l)) (Edge.id (deref h l))
                          (index_add (Edge.source (deref h l)) (Edge.id (deref h l)) ebn))
          (_edges_by_node m) es.
Proof.
  revert m. induction es as [|a es IH]; intros m Hh; cbn [foldl]; [by rewrite Hh|].
  destruct (IH (_index_edge a m)) as (I1 & I2 & I3 & I4 & I5 & I6 & I7 & I8); [exact Hh|].
  cbv zeta. rewrite I1, I2, I3, I4, I5, I6, I7, I8.
  unfold _index_edge. cbn. by rewrite Hh.
Qed.

(** [idx[key(l)] = l] over a list: the last object of a key wins. *)
Lemma foldl_insert_last (key : loc -> string) (ls : list loc) (i : string) :
  foldl (fun idx l => <[key l := l]> idx) (∅ : gmap string loc) ls !! i
  = last (filter (fun l => key l = i) ls).
Proof.
  induction ls as [|a ls IH] using rev_ind; [done|].
  rewrite foldl_snoc, filter_app, filter_cons, filter_nil.
  destruct (decide (key a = i)) as [<-|Hne].
  - by rewrite lookup_insert_eq, last_snoc.
  - by rewrite lookup_insert_ne, app_nil_r.
Qed.

Lemma filter_none {A} (P : A -> Prop) `{!forall a, Decision (P a)} (l : list A) :
  (forall a, a ∈ l -> ~ P a) -> filter P l = [].
Proof.
  induction l as [|a l IH]; intros Hp; [done|].
  rewrite filter_cons_False by (apply Hp; by left).
  apply IH. intros; apply Hp; by right.
Qed.

Lemma last_filter_unique (key : loc -> string) (ls : list loc) (i : string) (l : loc) :
  NoDup (map key ls) ->
  last (filter (fun l => key l = i) ls) = Some l <-> l ∈ ls /\ key l = i.
Proof.
  induction ls as [|a ls IH]; intros Hnd.
  - split; [done|]. by intros [?%elem_of_nil _].
  - cbn [map] in Hnd. apply NoDup_cons in Hnd as [Ha Hnd].
    rewrite filter_cons. destruct (decide (key a = i)) as [<-|Hne].
    + assert (Hnone : filter (fun l => key l = key a) ls = []).
      { apply filter_none. intros x Hx Hk. apply Ha.
        rewrite <- Hk. apply list_elem_of_fmap. by exists x. }
      rewrite Hnone. cbn. split.
      * intros [= <-]. split; [by left|done].
      * intros [[->|Hin]%elem_of_cons Hk]; [done|].
        exfalso. apply Ha. rewrite <- Hk. apply list_elem_of_fmap. by exists l.
    + rewrite (IH Hnd). split.
      * intros [Hin Hk]. split; [by right|done].
      * intros [[->|Hin]%elem_of_cons Hk]; [done|by split].
Qed.

Lemma ids_with_tag_cons n ns tag :
  ids_with_tag (n :: ns) tag
  = (if decide (tag ∈ Node.tags n) then {[Node.id n]} else ∅) ∪ ids_with_tag ns tag.
Proof.
  unfold ids_with_tag. rewrite filter_cons.
  destruct (decide (tag ∈ Node.tags n)); cbn [map list_to_set]; set_solver.
Qed.

Lemma ids_with_type_cons n ns ty :
  ids_with_type (n :: ns) ty
  = (if decide (ty = Node.type n) then {[Node.id n]} else ∅) ∪ ids_with_type ns ty.
Proof.
  unfold ids_with_type. rewrite filter_cons.
  destruct (decide (Node.type n = ty)), (decide (ty = Node.type n));
    try congruence; cbn [map list_to_set]; set_solver.
Qed.

Lemma ids_incident_cons e es n :
  ids_incident (e :: es) n
  = (if decide (n = Edge.target e) then {[Edge.id e]} else ∅)
    ∪ (if decide (n = Edge.source e) then {[Edge.id e]} else ∅)
    ∪ ids_incident es n.
Proof.
  unfold ids_incident. rewrite filter_cons. unfold incident at 1.
  destruct (decide (Edge.source e = n ∨ Edge.target e = n)) as [Hi|Hi];
    repeat case_decide; subst; cbn [map list_to_set]; try set_solver.
  all: exfalso; (destruct Hi; congruence) || (apply Hi; by left) || (apply Hi; by right).
Qed.

Lemma foldl_tag_index (h : list Node.t) (ns : list loc) ti tag :
  default ∅ (foldl (fun ti l => foldl (fun idx tag => index_add tag (Node.id (deref h l)) idx)
                                      ti (Node.tags (deref h l))) ti ns !! tag)
  = ids_with_tag (map (deref h) ns) tag ∪ default ∅ (ti !! tag).
Proof.
  revert ti. induction ns as [|a ns IH]; intros ti; cbn [foldl map].
  - unfold ids_with_tag. cbn. set_solver.
  - rewrite IH, foldl_index_add, ids_with_tag_cons. set_solver.
Qed.

Lemma foldl_type_index (h : list Node.t) (ns : list loc) tyi ty :
  default ∅ (foldl (fun tyi l => index_add (Node.type (deref h l)) (Node.id (deref h l)) tyi)
                   tyi ns !! ty)
  = ids_with_type (map (deref h) ns) ty ∪ default ∅ (tyi !! ty).
Proof.
  revert tyi. induction ns as [|a ns IH]; intros tyi; cbn [foldl map].
  - unfold ids_with_type. cbn. set_solver.
  - rewrite IH, index_add_lookup, ids_with_type_cons. case_decide; set_solver.
Qed.

Lemma foldl_incident_index (h : list Edge.t) (es : list loc) ebn n :
  default ∅ (foldl (fun ebn l => index_add (Edge.target (deref h l)) (Edge.id (deref h l))
                                   (index_add (Edge.source (deref h l)) (Edge.id (deref h l))
                                      ebn)) ebn es !! n)
  = ids_incident (map (deref h) es) n ∪ default ∅ (ebn !! n).
Proof.
  revert ebn. induction es as [|a es IH]; intros ebn; cbn [foldl map].
  - unfold ids_incident. cbn. set_solver.
  - rewrite IH, !index_add_lookup, ids_incident_cons. repeat case_decide; set_solver.
Qed.

(** What [_rebuild_indexes] leaves, whatever the indexes held before. *)
Lemma rebuild_fields m d :
  _diagram m = Some d ->
  let m' := _rebuild_indexes m in
  node_store m' = node_store m /\ edge_store m' = edge_store m /\ _diagram m' = Some d /\
  _history m' = _history m /\ _future m' = _future m /\
  (forall i, _node_index m' !! i
             = last (filter (fun l => Node.id (node_at m l) = i) (Diagram.nodes d))) /\
  (forall i, _edge_index m' !! i
             = last (filter (fun l => Edge.id (edge_at m l) = i) (Diagram.edges d))) /\
  (forall tag, tag_ids m' tag = ids_with_tag (live_nodes m) tag) /\
  (forall ty, type_ids m' ty = ids_with_type (live_nodes m) ty) /\
  (forall n, incident_ids m' n = ids_incident (live_edges m) n).
Proof.
  intros Hd. unfold _rebuild_indexes. cbn [_diagram set_node_index set_edge_index
    set_tag_index set_type_index set_edges_by_node]. rewrite Hd.
  set (m0 := set_edges_by_node ∅ (set_type_index ∅ (set_tag_index ∅
               (set_edge_index ∅ (set_node_index ∅ m))))).
  destruct (index_nodes_fields (node_store m) (Diagram.nodes d) m0 eq_refl)
    as (N1 & N2 & N3 & N4 & N5 & N6 & N7 & N8).
  set (m1 := foldl (fun m node => _index_node node m) m0 (Diagram.nodes d)) in *.
  change (edge_store m0) with (edge_store m) in N2.
  change (_diagram m0) with (_diagram m) in N3.
  change (_node_index m0) with (∅ : gmap string loc) in N4.
  change (_tag_index m0) with (∅ : gmap string (gset string)) in N5.
  change (_type_index m0) with (∅ : gmap string (gset string)) in N6.
  change (_edge_index m0) with (∅ : gmap string loc) in N7.
  change (_edges_by_node m0) with (∅ : gmap string (gset string)) in N8.
  destruct (index_edges_fields (edge_store m) (Diagram.edges d) m1 N2)
    as (E1 & E2 & E3 & E4 & E5 & E6 & E7 & E8).
  set (m2 := foldl (fun m edge => _index_edge edge m) m1 (Diagram.edges d)) in *.
  pose proof (HistoryFacts.same_log_rebuild m) as [L1 L2 _ _].
  unfold _rebuild_indexes in L1, L2. cbn [_diagram set_node_index set_edge_index
    set_tag_index set_type_index set_edges_by_node] in L1, L2. rewrite Hd in L1, L2.
  fold m0 in L1, L2. fold m1 in L1, L2. fold m2 in L1, L2.
  cbv zeta.
  split; [by rewrite E1, N1|]. split; [done|]. split; [by rewrite E3, N3|].
  split; [done|]. split; [done|].
  unfold tag_ids, type_ids, incident_ids, live_nodes, live_edges, nodes_of, edges_of,
    node_at, edge_at. rewrite Hd, E4, E5, E6, E7, E8, N4, N5, N6, N7.
  split; [intros i; apply (foldl_insert_last (fun l => Node.id (deref (node_store m) l)))|].
  split; [intros i; apply (foldl_insert_last (fun l => Edge.id (deref (edge_store m) l)))|].
  split; [intros tag; rewrite foldl_tag_index; cbn; set_solver|].
  split; [intros ty; rewrite foldl_type_index; cbn; set_solver|].
  intros n. rewrite foldl_incident_index, N8. cbn. set_solver.
Qed.

Lemma rebuild_none m :
  _diagram m = None ->
  _rebuild_indexes m
  = set_edges_by_node ∅ (set_type_index ∅ (set_tag_index ∅
      (set_edge_index ∅ (set_node_index ∅ m)))).
Proof.
  intros Hd. unfold _rebuild_indexes. cbn [_diagram set_node_index set_edge_index
    set_tag_index set_type_index set_edges_by_node]. by rewrite Hd.
Qed.

Lemma rebuild_live m :
  let m' := _rebuild_indexes m in
  node_store m' = node_store m /\ edge_store m' = edge_store m /\ _diagram m' = _diagram m.
Proof. by destruct (HistoryFacts.same_diagram_rebuild m). Qed.

Lemma rebuild_consistent m :
  (forall l, l ∈ nodes_of m -> l < length (node_store m)) ->
  (forall l, l ∈ edges_of m -> l < length (edge_store m)) ->
  NoDup (map Node.id (live_nodes m)) ->
  NoDup (map Edge.id (live_edges m)) ->
  consistent (_rebuild_indexes m).
Proof.
  intros Han Hae Hnn Hne.
  destruct (rebuild_live m) as (R1 & R2 & R3).
  assert (Hns : nodes_of (_rebuild_indexes m) = nodes_of m) by (unfold nodes_of; by rewrite R3).
  assert (Hes : edges_of (_rebuild_indexes m) = edges_of m) by (unfold edges_of; by rewrite R3).
  destruct (_diagram m) as [d|] eqn:Hd.
  - destruct (rebuild_fields m d Hd) as (_ & _ & _ & _ & _ & F1 & F2 & F3 & F4 & F5).
    assert (Hnd : nodes_of m = Diagram.nodes d) by (unfold nodes_of; by rewrite Hd).
    assert (Hed : edges_of m = Diagram.edges d) by (unfold edges_of; by rewrite Hd).
    unfold live_nodes in Hnn. unfold live_edges in Hne. rewrite map_map in Hnn, Hne.
    constructor; unfold live_nodes, live_edges, node_at, edge_at in *;
      rewrite ?Hns, ?Hes, ?R1, ?R2; try done.
    + intros i l. rewrite F1, <- Hnd.
      apply (last_filter_unique (fun l => Node.id (deref (node_store m) l))). exact Hnn.
    + intros i l. rewrite F2, <- Hed.
      apply (last_filter_unique (fun l => Edge.id (deref (edge_store m) l))). exact Hne.
  - rewrite (rebuild_none m Hd).
    assert (Hnd : nodes_of m = []) by (unfold nodes_of; by rewrite Hd).
    assert (Hed : edges_of m = []) by (unfold edges_of; by rewrite Hd).
    constructor; unfold tag_ids, type_ids, incident_ids, live_nodes, live_edges, nodes_of,
      edges_of; cbn [_diagram set_node_index set_edge_index set_tag_index set_type_index
      set_edges_by_node _node_index _edge_index _tag_index _type_index _edges_by_node];
      rewrite ?Hd; try done.
    + intros l ?%elem_of_nil. done.
    + intros l ?%elem_of_nil. done.
    + intros i l. rewrite lookup_empty. split; [done|]. by intros [?%elem_of_nil _].
    + intros i l. rewrite lookup_empty. split; [done|]. by intros [?%elem_of_nil _].
Qed.

(** X1. However the indexes stood before, after [_rebuild_indexes] the tag,
    type and incident-edge indexes answer exactly what the nodes and edges
    of the diagram say, and each id index maps an id to the last object of
    the list that has it.  The diagram itself and the two stacks are not
    touched.  When the ids are distinct the whole invariant holds. *)
Theorem rebuild_indexes_exact (m : t) :
  let m' := _rebuild_indexes m in
  diagram m' = diagram m /\ _history m' = _history m /\ _future m' = _future m /\
  (forall tag, tag_ids m' tag = ids_with_tag (live_nodes m') tag) /\
  (forall ty, type_ids m' ty = ids_with_type (live_nodes m') ty) /\
  (forall n, incident_ids m' n = ids_incident (live_edges m') n) /\
  (forall i, _node_index m' !! i
             = last (filter (fun l => Node.id (node_at m' l) = i) (nodes_of m'))) /\
  (forall i, _edge_index m' !! i
             = last (filter (fun l => Edge.id (edge_at m' l) = i) (edges_of m'))) /\
  ((forall l, l ∈ nodes_of m -> l < length (node_store m)) ->
   (forall l, l ∈ edges_of m -> l < length (edge_store m)) ->
   NoDup (map Node.id (live_nodes m)) -> NoDup (map Edge.id (live_edges m)) ->
   consistent m').
Proof.
  cbv zeta.
  destruct (rebuild_live m) as (R1 & R2 & R3).
  pose proof (HistoryFacts.same_log_rebuild m) as [L1 L2 _ _].
  assert (Hns : nodes_of (_rebuild_indexes m) = nodes_of m) by (unfold nodes_of; by rewrite R3).
  assert (Hes : edges_of (_rebuild_indexes m) = edges_of m) by (unfold edges_of; by rewrite R3).
  assert (Hln : live_nodes (_rebuild_indexes m) = live_nodes m).
  { unfold live_nodes, node_at. by rewrite Hns, R1. }
  assert (Hle : live_edges (_rebuild_indexes m) = live_edges m).
  { unfold live_edges, edge_at. by rewrite Hes, R2. }
  split; [unfold diagram, value_of; by rewrite R1, R2, R3|].
  split; [done|]. split; [done|].
  rewrite Hln, Hle, Hns, Hes. unfold node_at, edge_at. rewrite R1, R2.
  destruct (_diagram m) as [d|] eqn:Hd.
  - destruct (rebuild_fields m d Hd) as (_ & _ & _ & _ & _ & F1 & F2 & F3 & F4 & F5).
    assert (Hnd : nodes_of m = Diagram.nodes d) by (unfold nodes_of; by rewrite Hd).
    assert (Hed : edges_of m = Diagram.edges d) by (unfold edges_of; by rewrite Hd).
    rewrite Hnd, Hed.
    split; [exact F3|]. split; [exact F4|]. split; [exact F5|].
    split; [exact F1|]. split; [exact F2|].
    rewrite <- Hnd, <- Hed. apply rebuild_consistent.
  - assert (Hnd : nodes_of m = []) by (unfold nodes_of; by rewrite Hd).
    assert (Hed : edges_of m = []) by (unfold edges_of; by rewrite Hd).
    rewrite (rebuild_none m Hd), Hnd, Hed. unfold live_nodes, live_edges.
    rewrite Hnd, Hed.
    split; [done|]. split; [done|]. split; [done|]. split; [done|]. split; [done|].
    rewrite <- (rebuild_none m Hd). intros _ _ _ _. apply rebuild_consistent.
    + rewrite Hnd. by intros l ?%elem_of_nil.
    + rewrite Hed. by intros l ?%elem_of_nil.
    + unfold live_nodes. rewrite Hnd. constructor.
    + unfold live_edges. rewrite Hed. constructor.
Qed.

(** *** A diagram read back from a snapshot *)

Lemma adopt_fields v m :
  let m' := adopt v m in
  node_store m' = node_store m ++ Diagram.nodes v /\
  edge_store m' = edge_store m ++ Diagram.edges v /\
  nodes_of m' = seq (length (node_store m)) (length (Diagram.nodes v)) /\
  edges_of m' = seq (length (edge_store m)) (length (Diagram.edges v)).
Proof. cbv zeta. unfold adopt, nodes_of, edges_of. rewrite !HistoryFacts.alloc_all_spec. by cbn. Qed.

Lemma dirty_foldl {A} (f : t -> A -> t) (l : list A) m :
  (forall m a, _dirty (f m a) = _dirty m) -> _dirty (foldl f m l) = _dirty m.
Proof.
  intros Hf. revert m. induction l as [|a l IH]; intros m; cbn [foldl]; [done|].
  by rewrite IH, Hf.
Qed.

Lemma rebuild_dirty m : _dirty (_rebuild_indexes m) = _dirty m.
Proof.
  unfold _rebuild_indexes. cbn [_diagram set_node_index set_edge_index
    set_tag_index set_type_index set_edges_by_node].
  destruct (_diagram m); [|done].
  rewrite !dirty_foldl; done.
Qed.

Lemma restored_consistent v m :
  NoDup (map Node.id (Diagram.nodes v)) ->
  NoDup (map Edge.id (Diagram.edges v)) ->
  consistent (_notify_change (_rebuild_indexes (set_dirty true (adopt v m)))).
Proof.
  intros Hn He. apply (consistent_same_graph _ _ (same_graph_notify _)).
  destruct (adopt_fields v m) as (A1 & A2 & A3 & A4).
  destruct (same_graph_live _ _ (same_graph_dirty true (adopt v m))) as (D1 & D2 & D3 & D4).
  destruct (same_graph_dirty true (adopt v m)) as [_ G2 G3 _ _ _ _ _].
  apply rebuild_consistent.
  - rewrite D1, G2, A1, A3, length_app. intros l [? ?]%elem_of_seq. lia.
  - rewrite D2, G3, A2, A4, length_app. intros l [? ?]%elem_of_seq. lia.
  - rewrite D3. unfold live_nodes, node_at. rewrite A1, A3. by rewrite HistoryFacts.deref_fresh.
  - rewrite D4. unfold live_edges, edge_at. rewrite A2, A4. by rewrite HistoryFacts.deref_fresh.
Qed.

Lemma notify_dirty m : _dirty (_notify_change m) = _dirty m.
Proof. reflexivity. Qed.

Lemma set_dirty_dirty b m : _dirty (set_dirty b m) = b.
Proof. reflexivity. Qed.

Lemma reinstalled_spec v m :
  NoDup (map Node.id (Diagram.nodes v)) ->
  NoDup (map Edge.id (Diagram.edges v)) ->
  diagram (reinstalled v m) = Some v /\ _dirty (reinstalled v m) = true /\
  consistent (reinstalled v m).
Proof.
  intros Hn He. unfold reinstalled.
  destruct (HistoryFacts.restored v m) as (R1 & _).
  split; [exact R1|]. split; [|by apply restored_consistent].
  by rewrite notify_dirty, rebuild_dirty, set_dirty_dirty.
Qed.

Lemma undo_eq o m d s v :
  _diagram m = Some d -> last (_history m) = Some s ->
  Diagram.from_json_dict o s = Ok v ->
  exists m0, undo o m = (Ok (_diagram (reinstalled v m0)), reinstalled v m0).
Proof.
  intros Hd Hl Hs. unfold undo. rewrite Hd, Hl. unfold _restore_from_snapshot.
  rewrite Hs. eexists. reflexivity.
Qed.

Lemma redo_eq o m d s v :
  _diagram m = Some d -> last (_future m) = Some s ->
  Diagram.from_json_dict o s = Ok v ->
  exists m0, redo o m = (Ok (_diagram (reinstalled v m0)), reinstalled v m0).
Proof.
  intros Hd Hl Hs. unfold redo. rewrite Hd, Hl. unfold _restore_from_snapshot.
  rewrite Hs. eexists. reflexivity.
Qed.

(** X2. [undo] and [redo] install the diagram read from the snapshot and
    rebuild the indexes from it: when the snapshot on top of the stack reads
    as a diagram with distinct node ids and distinct edge ids, the call
    returns this diagram, marks the manager dirty and leaves indexes that
    agree with it, whatever state the indexes were in before. *)
Theorem undo_redo_reindex
    (o : oracle) (m : t) (d : Diagram.t loc loc) (s : dict) (v : Diagram.value) :
  _diagram m = Some d ->
  Diagram.from_json_dict o s = Ok v ->
  NoDup (map Node.id (Diagram.nodes v)) ->
  NoDup (map Edge.id (Diagram.edges v)) ->
  (last (_history m) = Some s ->
   (undo o m).1 = Ok (_diagram (undo o m).2) /\ diagram (undo o m).2 = Some v /\
   _dirty (undo o m).2 = true /\ consistent (undo o m).2) /\
  (last (_future m) = Some s ->
   (redo o m).1 = Ok (_diagram (redo o m).2) /\ diagram (redo o m).2 = Some v /\
   _dirty (redo o m).2 = true /\ consistent (redo o m).2).
Proof.
  intros Hd Hs Hn He. split; intros Hl.
  - destruct (undo_eq o m d s v Hd Hl Hs) as [m0 ->].
    destruct (reinstalled_spec v m0 Hn He) as (R1 & R2 & R3).
    generalize dependent (reinstalled v m0). intros m' R1 R2 R3. by cbn [fst snd].
  - destruct (redo_eq o m d s v Hd Hl Hs) as [m0 ->].
    destruct (reinstalled_spec v m0 Hn He) as (R1 & R2 & R3).
    generalize dependent (reinstalled v m0). intros m' R1 R2 R3. by cbn [fst snd].
Qed.

Lemma undo_redo_reindex_witness :
  let o := Examples.example_oracle in
  let m := (add_node o (Examples.kw "d" "Delta" ["db"]) Examples.abc_manager).2 in
  diagram (undo o m).2 = diagram Examples.abc_manager /\ consistent (undo o m).2.
Proof.
  pose proof (undo_redo_reindex Examples.example_oracle
                (add_node Examples.example_oracle (Examples.kw "d" "Delta" ["db"])
                   Examples.abc_manager).2
                (set_nodes [0; 1; 2; 3]%nat Examples.abc_diagram)
                (Diagram.to_json_dict (value_of Examples.abc_manager Examples.abc_diagram))
                (value_of Examples.abc_manager Examples.abc_diagram)
                ltac:(vm_compute; reflexivity) ltac:(vm_compute; reflexivity)
                ltac:(by_compute) ltac:(by_compute)) as [H _].
  destruct (H ltac:(vm_compute; reflexivity)) as (_ & H2 & _ & H4).
  cbv zeta. split; [|exact H4]. rewrite H2. vm_compute. reflexivity.
Defined.

(** *** Replacing one node object *)

Lemma indexed_unique h ns ni l l' :
  nodes_indexed_at h ns ni -> l ∈ ns -> l' ∈ ns ->
  Node.id (deref h l') = Node.id (deref h l) -> l' = l.
Proof.
  intros (_ & C3) Hl Hl' Hid.
  assert (H1 : ni !! Node.id (deref h l) = Some l) by (by apply C3).
  assert (H2 : ni !! Node.id (deref h l) = Some l') by (by apply C3).
  congruence.
Qed.

Lemma tag_member h ns ni ti tyi l tag :
  nodes_ok h ns ni ti tyi -> l ∈ ns ->
  Node.id (deref h l) ∈ default ∅ (ti !! tag) <-> tag ∈ Node.tags (deref h l).
Proof.
  intros Hok Hl. pose proof (nodes_ok_indexed _ _ _ _ _ Hok) as Hix.
  destruct Hok as (_ & _ & C5 & _). rewrite C5. unfold ids_with_tag. rewrite elem_of_ids.
  split.
  - intros (a & (l' & -> & Hl')%list_elem_of_fmap & Ht & Hid).
    by rewrite <- (indexed_unique _ _ _ l l' Hix Hl Hl' Hid).
  - intros Ht. exists (deref h l). split; [|done]. apply list_elem_of_fmap. by exists l.
Qed.

Lemma type_member h ns ni ti tyi l ty :
  nodes_ok h ns ni ti tyi -> l ∈ ns ->
  Node.id (deref h l) ∈ default ∅ (tyi !! ty) <-> Node.type (deref h l) = ty.
Proof.
  intros Hok Hl. pose proof (nodes_ok_indexed _ _ _ _ _ Hok) as Hix.
  destruct Hok as (_ & _ & _ & C6). rewrite C6. unfold ids_with_type. rewrite elem_of_ids.
  split.
  - intros (a & (l' & -> & Hl')%list_elem_of_fmap & Ht & Hid).
    by rewrite <- (indexed_unique _ _ _ l l' Hix Hl Hl' Hid).
  - intros Ht. exists (deref h l). split; [|done]. apply list_elem_of_fmap. by exists l.
Qed.

Lemma deref_store h l (n' : Node.t) l' :
  l < length h -> deref (store l n' h) l' = if decide (l' = l) then n' else deref h l'.
Proof.
  intros Hl. case_decide as E.
  - subst. by apply deref_store_eq.
  - apply deref_store_ne. congruence.
Qed.

(** The node at [l] is overwritten by one of the same id; the set-valued
    indexes have lost the id where the new node has not the tag (the type)
    and got it where it has. *)
Lemma nodes_ok_replace h ns ni ti tyi l n' ti' tyi' :
  nodes_ok h ns ni ti tyi -> l ∈ ns ->
  Node.id n' = Node.id (deref h l) ->
  (forall tag, default ∅ (ti' !! tag)
     = default ∅ (ti !! tag) ∖ {[Node.id n']}
       ∪ (if decide (tag ∈ Node.tags n') then {[Node.id n']} else ∅)) ->
  (forall ty, default ∅ (tyi' !! ty)
     = default ∅ (tyi !! ty) ∖ {[Node.id n']}
       ∪ (if decide (Node.type n' = ty) then {[Node.id n']} else ∅)) ->
  nodes_ok (store l n' h) ns ni ti' tyi'.
Proof.
  intros Hok Hl Hid Hti Htyi.
  pose proof (nodes_ok_indexed _ _ _ _ _ Hok) as Hix.
  destruct Hok as (C1 & C3 & C5 & C6).
  pose proof (C1 l Hl) as Hlen.
  assert (Hsame : forall l', Node.id (deref (store l n' h) l') = Node.id (deref h l')).
  { intros l'. rewrite deref_store by done. case_decide; by subst. }
  split; [|split; [|split]].
  - intros l' Hl'. unfold store. rewrite length_insert. by apply C1.
  - intros i l'. rewrite Hsame. apply C3.
  - intros tag. rewrite Hti, C5. unfold ids_with_tag. apply set_eq. intros x.
    rewrite elem_of_union, elem_of_difference, !elem_of_ids, elem_of_singleton. split.
    + intros [[(a & (l' & -> & Hl')%list_elem_of_fmap & Ht & <-) Hx]|Hx].
      * exists (deref (store l n' h) l'). split; [apply list_elem_of_fmap; by exists l'|].
        rewrite Hsame. split; [|done]. rewrite deref_store by done.
        rewrite decide_False; [done|]. intros ->. by apply Hx.
      * case_decide as Ht; [|by apply elem_of_empty in Hx].
        apply elem_of_singleton in Hx as ->.
        exists (deref (store l n' h) l). split; [apply list_elem_of_fmap; by exists l|].
        rewrite deref_store, decide_True by done. done.
    + intros (a & (l' & -> & Hl')%list_elem_of_fmap & Ht & <-).
      rewrite Hsame. rewrite deref_store in Ht by done.
      destruct (decide (l' = l)) as [->|Hne].
      * right. rewrite decide_True by done. apply elem_of_singleton. congruence.
      * left. split.
        -- exists (deref h l'). split; [apply list_elem_of_fmap; by exists l'|done].
        -- rewrite Hid. intros Heq. apply Hne. by apply (indexed_unique h ns ni).
  - intros ty. rewrite Htyi, C6. unfold ids_with_type. apply set_eq. intros x.
    rewrite elem_of_union, elem_of_difference, !elem_of_ids, elem_of_singleton. split.
    + intros [[(a & (l' & -> & Hl')%list_elem_of_fmap & Ht & <-) Hx]|Hx].
      * exists (deref (store l n' h) l'). split; [apply list_elem_of_fmap; by exists l'|].
        rewrite Hsame. split; [|done]. rewrite deref_store by done.
        rewrite decide_False; [done|]. intros ->. by apply Hx.
      * case_decide as Ht; [|by apply elem_of_empty in Hx].
        apply elem_of_singleton in Hx as ->.
        exists (deref (store l n' h) l). split; [apply list_elem_of_fmap; by exists l|].
        rewrite deref_store, decide_True by done. done.
    + intros (a & (l' & -> & Hl')%list_elem_of_fmap & Ht & <-).
      rewrite Hsame. rewrite deref_store in Ht by done.
      destruct (decide (l' = l)) as [->|Hne].
      * right. rewrite decide_True by done. apply elem_of_singleton. congruence.
      * left. split.
        -- exists (deref h l'). split; [apply list_elem_of_fmap; by exists l'|done].
        -- rewrite Hid. intros Heq. apply Hne. by apply (indexed_unique h ns ni).
Qed.

(** Writing a node does not touch the edge side. *)
Lemma live_nodes_store h ns l (n' : Node.t) :
  l < length h ->
  map (deref (store l n' h)) ns = map (fun l' => if decide (l' = l) then n' else deref h l') ns.
Proof. intros Hl. apply map_ext. intros l'. by apply deref_store. Qed.

(** *** [update_node] *)

Lemma update_node_fields (node_id : string) (kwargs : NodeKwargs.t) (m : t) (d : Diagram.t loc loc)
    (l : loc) :
  _diagram m = Some d -> _node_index m !! node_id = Some l ->
  l < length (node_store m) ->
  let old := node_at m l in
  let new := NodeKwargs.setattrs kwargs old in
  let old_tags : gset string := list_to_set (Node.tags old) in
  let new_tags : gset string := list_to_set (Node.tags new) in
  let m' := (update_node node_id kwargs m).2 in
  (update_node node_id kwargs m).1 = Ok (Some l) /\
  node_store m' = store l new (node_store m) /\ edge_store m' = edge_store m /\
  _diagram m' = Some d /\ _dirty m' = true /\
  _node_index m' = _node_index m /\ _edge_index m' = _edge_index m /\
  _edges_by_node m' = _edges_by_node m /\
  _tag_index m'
  = (if bool_decide (old_tags ≠ new_tags)
     then foldl (fun idx tag => index_add tag node_id idx)
            (foldl (fun idx tag => index_discard tag node_id idx)
               (_tag_index m) (elements (old_tags ∖ new_tags)))
            (elements (new_tags ∖ old_tags))
     else _tag_index m) /\
  _type_index m'
  = (if bool_decide (Node.type old ≠ Node.type new)
     then index_add (Node.type new) node_id
            (index_discard (Node.type old) node_id (_type_index m))
     else _type_index m).
Proof.
  intros Hd Hidx Hlen old new old_tags new_tags m'. subst m'.
  destruct (same_graph_save m) as [S1 S2 S3 S4 S5 S6 S7 S8].
  unfold update_node. rewrite Hd, Hidx. cbv zeta.
  cbn [set_node_store node_store]. rewrite S2.
  rewrite (deref_store_eq (node_store m) l) by done.
  fold (node_at m l). fold old. fold new. fold old_tags. fold new_tags.
  destruct (bool_decide (old_tags ≠ new_tags)), (bool_decide (Node.type old ≠ Node.type new));
    cbn [fst snd _notify_change set_changes set_dirty set_node_store set_tag_index
         set_type_index node_store edge_store _diagram _dirty _node_index _edge_index
         _edges_by_node _tag_index _type_index];
    rewrite ?S1, ?S3, ?S4, ?S5, ?S6, ?S7, ?S8, ?Hd; repeat split; reflexivity.
Qed.

Lemma elem_of_elements_diff (a b : list string) (x : string) :
  x ∈ elements ((list_to_set a : gset string) ∖ list_to_set b) <-> x ∈ a /\ x ∉ b.
Proof. rewrite elem_of_elements, elem_of_difference, !elem_of_list_to_set. done. Qed.

(** The four ways an id index set moves when one object changes. *)
Lemma set_keep (S : gset string) (i : string) : i ∈ S -> S = S ∖ {[i]} ∪ {[i]}.
Proof.
  intros Hi. apply set_eq. intros x.
  rewrite elem_of_union, elem_of_difference, elem_of_singleton.
  destruct (decide (x = i)) as [E|E]; [rewrite E|]; tauto.
Qed.

Lemma set_absent (S : gset string) (i : string) : i ∉ S -> S = S ∖ {[i]} ∪ ∅.
Proof.
  intros Hi. apply set_eq. intros x.
  rewrite elem_of_union, elem_of_difference, elem_of_singleton, elem_of_empty.
  destruct (decide (x = i)) as [E|E]; [rewrite E|]; tauto.
Qed.

Lemma set_gain (S : gset string) (i : string) : {[i]} ∪ S = S ∖ {[i]} ∪ {[i]}.
Proof.
  apply set_eq. intros x.
  rewrite !elem_of_union, elem_of_difference, elem_of_singleton.
  destruct (decide (x = i)) as [E|E]; [rewrite E|]; tauto.
Qed.

Lemma set_lose (S : gset string) (i : string) : S ∖ {[i]} = S ∖ {[i]} ∪ ∅.
Proof. by rewrite (right_id_L ∅ (∪)). Qed.

Lemma set_same (S : gset string) : ∅ ∪ S ∖ ∅ = S.
Proof. rewrite (left_id_L ∅ (∪)). apply set_eq. intros x. rewrite elem_of_difference, elem_of_empty. tauto. Qed.

Lemma update_node_consistent (node_id : string) (kwargs : NodeKwargs.t) (m : t)
    (d : Diagram.t loc loc) (l : loc) :
  consistent m -> _diagram m = Some d -> _node_index m !! node_id = Some l ->
  Node.id (NodeKwargs.setattrs kwargs (node_at m l)) = node_id ->
  let m' := (update_node node_id kwargs m).2 in
  consistent m' /\ nodes_of m' = nodes_of m /\ edges_of m' = edges_of m /\
  edge_store m' = edge_store m /\
  node_store m' = store l (NodeKwargs.setattrs kwargs (node_at m l)) (node_store m).
Proof.
  intros Hc Hd Hidx Hid.
  destruct (proj1 (consistent_sides m) Hc) as [Hno Heo].
  assert (Hl : l ∈ nodes_of m /\ Node.id (node_at m l) = node_id)
    by (by apply (c_node_index m Hc)).
  destruct Hl as [Hl Hold].
  pose proof (c_nodes_alloc m Hc l Hl) as Hlen.
  destruct (update_node_fields node_id kwargs m d l Hd Hidx Hlen)
    as (_ & F1 & F2 & F3 & _ & F4 & F5 & F6 & F7 & F8).
  set (m' := (update_node node_id kwargs m).2) in *. cbv zeta.
  set (old := node_at m l) in *. set (new := NodeKwargs.setattrs kwargs old) in *.
  assert (Hn : nodes_of m' = nodes_of m) by (unfold nodes_of; by rewrite F3, Hd).
  assert (He : edges_of m' = edges_of m) by (unfold edges_of; by rewrite F3, Hd).
  split; [|by rewrite Hn, He, F1, F2].
  apply consistent_sides. unfold edges_indexed. rewrite Hn, He, F1, F2, F4, F5, F6.
  split; [|exact Heo].
  apply (nodes_ok_replace _ _ _ (_tag_index m) (_type_index m)); try done.
  - fold (node_at m l). fold old. congruence.
  - intros tag. rewrite Hid.
    pose proof (tag_member _ _ _ _ _ l tag Hno Hl) as Hmem.
    fold (node_at m l) in Hmem. fold old in Hmem. rewrite Hold in Hmem.
    rewrite F7.
    destruct (bool_decide _) eqn:Hne;
      [apply bool_decide_eq_true_1 in Hne | apply bool_decide_eq_false_1 in Hne].
    + rewrite foldl_index_add, foldl_index_discard.
      destruct (decide (tag ∈ Node.tags old)) as [Ho|Ho],
               (decide (tag ∈ Node.tags new)) as [Hw|Hw].
      * rewrite (decide_False (P := tag ∈ elements _))
          by (rewrite elem_of_elements_diff; tauto).
        rewrite (decide_False (P := tag ∈ elements _))
          by (rewrite elem_of_elements_diff; tauto).
        rewrite set_same. apply set_keep. tauto.
      * rewrite (decide_False (P := tag ∈ elements _))
          by (rewrite elem_of_elements_diff; tauto).
        rewrite (decide_True (P := tag ∈ elements _))
          by (rewrite elem_of_elements_diff; tauto).
        by rewrite (left_id_L ∅ (∪)), (right_id_L ∅ (∪)).
      * rewrite (decide_True (P := tag ∈ elements _))
          by (rewrite elem_of_elements_diff; tauto).
        rewrite (decide_False (P := tag ∈ elements _))
          by (rewrite elem_of_elements_diff; tauto).
        rewrite <- set_gain. f_equal. apply set_eq. intros x.
        rewrite elem_of_difference, elem_of_empty. tauto.
      * rewrite (decide_False (P := tag ∈ elements _))
          by (rewrite elem_of_elements_diff; tauto).
        rewrite (decide_False (P := tag ∈ elements _))
          by (rewrite elem_of_elements_diff; tauto).
        rewrite set_same. apply set_absent. tauto.
    + assert (Heq : (list_to_set (Node.tags old) : gset string) = list_to_set (Node.tags new)).
      { destruct (decide ((list_to_set (Node.tags old) : gset string)
                          = list_to_set (Node.tags new))); [done|]. by exfalso. }
      assert (Hiff : tag ∈ Node.tags old <-> tag ∈ Node.tags new).
      { rewrite <- !(elem_of_list_to_set (C := gset string)). by rewrite Heq. }
      destruct (decide (tag ∈ Node.tags new)) as [Hw|Hw].
      * apply set_keep. tauto.
      * apply set_absent. tauto.
  - intros ty. rewrite Hid.
    pose proof (type_member _ _ _ _ _ l ty Hno Hl) as Hmem.
    fold (node_at m l) in Hmem. fold old in Hmem. rewrite Hold in Hmem.
    rewrite F8.
    destruct (bool_decide (Node.type old ≠ Node.type new)) eqn:Hne;
      [apply bool_decide_eq_true_1 in Hne | apply bool_decide_eq_false_1 in Hne].
    + rewrite index_add_lookup, index_discard_lookup.
      destruct (decide (ty = Node.type new)) as [E1|E1],
               (decide (ty = Node.type old)) as [E2|E2],
               (decide (Node.type new = ty)) as [E3|E3]; try congruence.
      * apply set_gain.
      * apply set_lose.
      * apply set_absent. rewrite Hmem. congruence.
    + assert (Heq : Node.type old = Node.type new).
      { destruct (decide (Node.type old = Node.type new)); [done|]. by exfalso. }
      destruct (decide (Node.type new = ty)) as [E3|E3].
      * apply set_keep. apply Hmem. congruence.
      * apply set_absent. rewrite Hmem. congruence.
Qed.

(** X3. [update_node] on a node of the active diagram, with keyword
    arguments that do not rename it: the node gets exactly the supplied
    fields, every other node and every edge is left alone, and the tag and
    type indexes are moved with it, so that a consistent store stays
    consistent. *)
Theorem update_node_migrates
    (m : t) (d : Diagram.t loc loc) (l : loc) (kwargs : NodeKwargs.t) :
  consistent m -> _diagram m = Some d -> l ∈ nodes_of m ->
  NodeKwargs.id kwargs = None ->
  let n := node_at m l in
  let r := update_node (Node.id n) kwargs m in
  r.1 = Ok (Some l) /\
  node_at r.2 l = NodeKwargs.setattrs kwargs n /\
  (forall l', l' <> l -> node_at r.2 l' = node_at m l') /\
  nodes_of r.2 = nodes_of m /\ edges_of r.2 = edges_of m /\
  live_edges r.2 = live_edges m /\
  _dirty r.2 = true /\
  consistent r.2 /\
  (forall tag, tag_ids r.2 tag = ids_with_tag (live_nodes r.2) tag).
Proof.
  intros Hc Hd Hl Hkw n r.
  assert (Hidx : _node_index m !! Node.id n = Some l) by (by apply (c_node_index m Hc)).
  pose proof (c_nodes_alloc m Hc l Hl) as Hlen.
  assert (Hid : Node.id (NodeKwargs.setattrs kwargs (node_at m l)) = Node.id n).
  { unfold NodeKwargs.setattrs. cbn [Node.id]. by rewrite Hkw. }
  destruct (update_node_fields (Node.id n) kwargs m d l Hd Hidx Hlen)
    as (F0 & F1 & _ & _ & F4 & _).
  destruct (update_node_consistent (Node.id n) kwargs m d l Hc Hd Hidx Hid)
    as (C1 & C2 & C3 & C4 & C5).
  fold r in F0, F1, F4, C1, C2, C3, C4, C5. clearbody r.
  split; [exact F0|]. unfold node_at, live_edges, edge_at. rewrite C5, C4, C3.
  split; [by apply deref_store_eq|].
  split; [intros l' Hne; by apply deref_store_ne|].
  split; [exact C2|]. split; [reflexivity|]. split; [reflexivity|].
  split; [exact F4|]. split; [exact C1|]. apply (c_tags _ C1).
Qed.

Lemma update_node_migrates_witness :
  let kwargs :=
    {| NodeKwargs.id := None; NodeKwargs.label := None; NodeKwargs.type := Some "database";
       NodeKwargs.shape := None; NodeKwargs.color := None; NodeKwargs.x := None;
       NodeKwargs.y := None; NodeKwargs.width := None; NodeKwargs.height := None;
       NodeKwargs.tags := Some ["db"; "slow"]; NodeKwargs.description := None;
       NodeKwargs.border_style := None; NodeKwargs.fill_opacity := None;
       NodeKwargs.z_index := None; NodeKwargs.rotation := None |} in
  let r := update_node "a" kwargs Examples.abc_manager in
  r.1 = Ok (Some 0%nat) /\ consistent r.2 /\
  tag_ids r.2 "front" = {["b"]} /\ tag_ids r.2 "db" = {["a"; "b"]}.
Proof.
  intros kwargs.
  pose proof (update_node_migrates Examples.abc_manager Examples.abc_diagram 0%nat kwargs
                abc_consistent ltac:(vm_compute; reflexivity) ltac:(by_compute)
                eq_refl) as H.
  cbv zeta in H. change (Node.id (node_at Examples.abc_manager 0%nat)) with "a" in H.
  destruct H as (H1 & _ & _ & _ & _ & _ & _ & H8 & _).
  cbv zeta. split; [exact H1|]. split; [exact H8|]. split; by_compute.
Defined.

(** *** [update_edge] *)

Lemma update_edge_fields (edge_id : string) (kwargs : EdgeKwargs.t) (m : t)
    (d : Diagram.t loc loc) (l : loc) :
  _diagram m = Some d -> _edge_index m !! edge_id = Some l ->
  let m' := (update_edge edge_id kwargs m).2 in
  (update_edge edge_id kwargs m).1 = Ok (Some l) /\
  edge_store m' = store l (EdgeKwargs.setattrs kwargs (edge_at m l)) (edge_store m) /\
  node_store m' = node_store m /\ _diagram m' = Some d /\ _dirty m' = true /\
  _node_index m' = _node_index m /\ _edge_index m' = _edge_index m /\
  _tag_index m' = _tag_index m /\ _type_index m' = _type_index m /\
  _edges_by_node m' = _edges_by_node m.
Proof.
  intros Hd Hidx m'. subst m'.
  destruct (same_graph_save m) as [S1 S2 S3 S4 S5 S6 S7 S8].
  unfold update_edge. rewrite Hd, Hidx. cbv zeta.
  cbn [fst snd _notify_change set_changes set_dirty set_edge_store
       node_store edge_store _diagram _dirty _node_index _edge_index
       _edges_by_node _tag_index _type_index].
  rewrite S1, S2, S3, S4, S5, S6, S7, S8, Hd. repeat split; reflexivity.
Qed.

Lemma ids_incident_same (f g : loc -> Edge.t) (es : list loc) n :
  (forall l, l ∈ es -> Edge.id (f l) = Edge.id (g l) /\ Edge.source (f l) = Edge.source (g l)
                       /\ Edge.target (f l) = Edge.target (g l)) ->
  ids_incident (map f es) n = ids_incident (map g es) n.
Proof.
  induction es as [|a es IH]; intros Hfg; [done|]. cbn [map].
  rewrite !ids_incident_cons, IH by (intros; apply Hfg; by right).
  destruct (Hfg a) as (-> & -> & ->); [by left|]. done.
Qed.

Lemma edges_ok_replace h es ei ebn l (e' : Edge.t) :
  edges_ok h es ei ebn -> l ∈ es ->
  Edge.id e' = Edge.id (deref h l) -> Edge.source e' = Edge.source (deref h l) ->
  Edge.target e' = Edge.target (deref h l) ->
  edges_ok (store l e' h) es ei ebn.
Proof.
  intros (C2 & C4 & C7) Hl Hid Hs Ht. pose proof (C2 l Hl) as Hlen.
  assert (Hsame : forall l', Edge.id (deref (store l e' h) l') = Edge.id (deref h l')
                             /\ Edge.source (deref (store l e' h) l') = Edge.source (deref h l')
                             /\ Edge.target (deref (store l e' h) l') = Edge.target (deref h l')).
  { intros l'. destruct (decide (l' = l)) as [->|Hne].
    - by rewrite deref_store_eq.
    - by rewrite deref_store_ne by congruence. }
  split; [|split].
  - intros l' Hl'. unfold store. rewrite length_insert. by apply C2.
  - intros i l'. destruct (Hsame l') as (-> & _). apply C4.
  - intros n. rewrite C7. symmetry. apply ids_incident_same. intros l' _. apply Hsame.
Qed.

Lemma update_edge_spec
    (m : t) (d : Diagram.t loc loc) (l : loc) (kwargs : EdgeKwargs.t) :
  edges_indexed m -> _diagram m = Some d -> l ∈ edges_of m ->
  let e := edge_at m l in
  let r := update_edge (Edge.id e) kwargs m in
  r.1 = Ok (Some l) /\
  edge_at r.2 l = EdgeKwargs.setattrs kwargs e /\
  (forall l', l' <> l -> edge_at r.2 l' = edge_at m l') /\
  (is_Some (Edge.source_side e) -> is_Some (Edge.source_side (edge_at r.2 l))) /\
  (is_Some (Edge.target_side e) -> is_Some (Edge.target_side (edge_at r.2 l))) /\
  nodes_of r.2 = nodes_of m /\ edges_of r.2 = edges_of m /\ live_nodes r.2 = live_nodes m /\
  _node_index r.2 = _node_index m /\ _edge_index r.2 = _edge_index m /\
  _tag_index r.2 = _tag_index m /\ _type_index r.2 = _type_index m /\
  _edges_by_node r.2 = _edges_by_node m /\
  (EdgeKwargs.id kwargs = None -> EdgeKwargs.source kwargs = None ->
   EdgeKwargs.target kwargs = None -> consistent m -> consistent r.2).
Proof.
  intros Hei Hd Hl e r.
  assert (Hidx : _edge_index m !! Edge.id e = Some l) by (by apply Hei).
  pose proof (proj1 Hei l Hl) as Hlen.
  destruct (update_edge_fields (Edge.id e) kwargs m d l Hd Hidx)
    as (F0 & F1 & F2 & F3 & F4 & F5 & F6 & F7 & F8 & F9).
  fold r in F0, F1, F2, F3, F4, F5, F6, F7, F8, F9. clearbody r.
  assert (Hn : nodes_of r.2 = nodes_of m) by (unfold nodes_of; by rewrite F3, Hd).
  assert (He : edges_of r.2 = edges_of m) by (unfold edges_of; by rewrite F3, Hd).
  assert (Hat : edge_at r.2 l = EdgeKwargs.setattrs kwargs e).
  { unfold edge_at. rewrite F1. by apply deref_store_eq. }
  split; [exact F0|]. split; [exact Hat|].
  split; [intros l' Hne; unfold edge_at; rewrite F1; by apply deref_store_ne|].
  split.
  { rewrite Hat. unfold EdgeKwargs.setattrs. cbn [Edge.source_side].
    destruct (EdgeKwargs.source_side kwargs); [eauto|done]. }
  split.
  { rewrite Hat. unfold EdgeKwargs.setattrs. cbn [Edge.target_side].
    destruct (EdgeKwargs.target_side kwargs); [eauto|done]. }
  split; [exact Hn|]. split; [exact He|].
  split; [unfold live_nodes, node_at; by rewrite Hn, F2|].
  do 5 (split; [assumption|]).
  intros K1 K2 K3 Hc. destruct (proj1 (consistent_sides m) Hc) as [Hno Heo].
  apply consistent_sides. unfold edges_indexed. rewrite Hn, He, F1, F2, F5, F6, F7, F8, F9.
  split; [exact Hno|].
  apply edges_ok_replace; try done; fold (edge_at m l); fold e;
    unfold EdgeKwargs.setattrs; cbn [Edge.id Edge.source Edge.target];
    by rewrite ?K1, ?K2, ?K3.
Qed.

(** X4. [update_edge] on an edge of the active diagram writes the supplied
    fields into the edge object and nothing else: every other edge, the
    nodes, the lists and all five indexes are as before.  A side that is set
    cannot be unset this way, since a value of [None] is skipped.  When the
    keyword arguments leave [id], [source] and [target] alone, a consistent
    store stays consistent. *)
Theorem update_edge_partial
    (m : t) (d : Diagram.t loc loc) (l : loc) (kwargs : EdgeKwargs.t) :
  edges_indexed m -> _diagram m = Some d -> l ∈ edges_of m ->
  let e := edge_at m l in
  let r := update_edge (Edge.id e) kwargs m in
  r.1 = Ok (Some l) /\
  edge_at r.2 l = EdgeKwargs.setattrs kwargs e /\
  (forall l', l' <> l -> edge_at r.2 l' = edge_at m l') /\
  (is_Some (Edge.source_side e) -> is_Some (Edge.source_side (edge_at r.2 l))) /\
  (is_Some (Edge.target_side e) -> is_Some (Edge.target_side (edge_at r.2 l))) /\
  nodes_of r.2 = nodes_of m /\ edges_of r.2 = edges_of m /\ live_nodes r.2 = live_nodes m /\
  _node_index r.2 = _node_index m /\ _edge_index r.2 = _edge_index m /\
  _tag_index r.2 = _tag_index m /\ _type_index r.2 = _type_index m /\
  _edges_by_node r.2 = _edges_by_node m /\
  (EdgeKwargs.id kwargs = None -> EdgeKwargs.source kwargs = None ->
   EdgeKwargs.target kwargs = None -> consistent m -> consistent r.2).
Proof. apply update_edge_spec. Qed.

Lemma update_edge_partial_witness :
  let kwargs :=
    {| EdgeKwargs.id := None; EdgeKwargs.source := None; EdgeKwargs.target := None;
       EdgeKwargs.label := Some "calls"; EdgeKwargs.source_side := Some "right";
       EdgeKwargs.target_side := None; EdgeKwargs.color := None; EdgeKwargs.width := None;
       EdgeKwargs.style := Some "dashed"; EdgeKwargs.arrow_start := None;
       EdgeKwargs.arrow_end := None; EdgeKwargs.arrow_size := None |} in
  let r := update_edge "e0000ab01" kwargs Examples.abc_manager in
  r.1 = Ok (Some 0%nat) /\ Edge.label (edge_at r.2 0%nat) = "calls" /\
  Edge.source (edge_at r.2 0%nat) = "a" /\ consistent r.2.
Proof.
  intros kwargs.
  pose proof (update_edge_partial Examples.abc_manager Examples.abc_diagram 0%nat kwargs
                (proj2 abc_indexed) ltac:(vm_compute; reflexivity) ltac:(by_compute)) as H.
  cbv zeta in H. change (Edge.id (edge_at Examples.abc_manager 0%nat)) with "e0000ab01" in H.
  destruct H as (H1 & H2 & _ & _ & _ & _ & _ & _ & _ & _ & _ & _ & _ & H14).
  cbv zeta. split; [exact H1|]. rewrite H2.
  split; [reflexivity|]. split; [reflexivity|]. exact (H14 eq_refl eq_refl eq_refl abc_consistent).
Defined.

(** *** [bulk_update_tags] on tag lists without repetition *)

Lemma retagged_refl m : retagged m m.
Proof. constructor; try done. intros l. by destruct (node_at m l). Qed.

Lemma retagged_trans m1 m2 m3 : retagged m1 m2 -> retagged m2 m3 -> retagged m1 m3.
Proof.
  intros [] []. constructor; try congruence.
  intros l. rewrite <- (rt_fields0 l), <- (rt_fields1 l). reflexivity.
Qed.

Lemma retagged_id m m' l : retagged m m' -> Node.id (node_at m' l) = Node.id (node_at m l).
Proof. intros Hr. by rewrite <- (rt_fields _ _ Hr l). Qed.

Lemma retagged_lists m m' :
  retagged m m' -> nodes_of m' = nodes_of m /\ edges_of m' = edges_of m /\
  live_edges m' = live_edges m.
Proof.
  intros [H1 _ H3 _ _ _ _ _ _ _]. unfold live_edges, edge_at, nodes_of, edges_of.
  by rewrite H1, H3.
Qed.

Lemma with_tags_spec (l : loc) (ts : list string) (ti' : gmap string (gset string)) (m : t) :
  consistent m -> tags_nodup m -> l ∈ nodes_of m -> NoDup ts ->
  (forall tag, default ∅ (ti' !! tag)
     = tag_ids m tag ∖ {[Node.id (node_at m l)]}
       ∪ (if decide (tag ∈ ts) then {[Node.id (node_at m l)]} else ∅)) ->
  let m' := with_tags l ts ti' m in
  consistent m' /\ tags_nodup m' /\ retagged m m' /\
  Node.tags (node_at m' l) = ts /\
  (forall l', l' <> l -> node_at m' l' = node_at m l').
Proof.
  intros Hc Hnd Hl Hts Hti.
  destruct (proj1 (consistent_sides m) Hc) as [Hno Heo].
  pose proof (c_nodes_alloc m Hc l Hl) as Hlen.
  cbv zeta.
  assert (F1 : node_store (with_tags l ts ti' m)
               = store l (set_tags ts (node_at m l)) (node_store m)) by reflexivity.
  assert (F2 : _tag_index (with_tags l ts ti' m) = ti') by reflexivity.
  assert (Hat : node_at (with_tags l ts ti' m) l = set_tags ts (node_at m l)).
  { unfold node_at at 1. rewrite F1. by apply deref_store_eq. }
  assert (Hother : forall l', l' <> l -> node_at (with_tags l ts ti' m) l' = node_at m l').
  { intros l' Hne. unfold node_at. rewrite F1. by apply deref_store_ne. }
  assert (Hrt : retagged m (with_tags l ts ti' m)).
  { constructor; try reflexivity.
    - rewrite F1. unfold store. by rewrite length_insert.
    - intros l'. destruct (decide (l' = l)) as [->|Hne].
      + rewrite Hat. by destruct (node_at m l).
      + rewrite Hother by done. by destruct (node_at m l'). }
  destruct (retagged_lists _ _ Hrt) as (Hn & He & _).
  split; [|split; [|split; [exact Hrt|split; [by rewrite Hat|exact Hother]]]].
  - apply consistent_sides. unfold edges_indexed. rewrite Hn, He, F1, F2.
    change (edge_store (with_tags l ts ti' m)) with (edge_store m).
    change (_node_index (with_tags l ts ti' m)) with (_node_index m).
    change (_type_index (with_tags l ts ti' m)) with (_type_index m).
    change (_edge_index (with_tags l ts ti' m)) with (_edge_index m).
    change (_edges_by_node (with_tags l ts ti' m)) with (_edges_by_node m).
    split; [|exact Heo].
    apply (nodes_ok_replace _ _ _ (_tag_index m) (_type_index m)); try done.
    intros ty. cbn [set_tags Node.id Node.type].
    pose proof (type_member _ _ _ _ _ l ty Hno Hl) as Hmem.
    fold (node_at m l) in Hmem |- *.
    destruct (decide (Node.type (node_at m l) = ty)) as [E|E].
    + apply set_keep. tauto.
    + apply set_absent. tauto.
  - intros l' Hl'. rewrite Hn in Hl'. destruct (decide (l' = l)) as [->|Hne].
    + by rewrite Hat.
    + rewrite Hother by done. by apply Hnd.
Qed.

Lemma bulk_add_tag_eq (l : loc) (node_id : string) (m : t) (tag : string) :
  bulk_add_tag l node_id m tag
  = if bool_decide (tag ∉ Node.tags (node_at m l))
    then with_tags l (Node.tags (node_at m l) ++ [tag])
           (index_add tag node_id (_tag_index m)) m
    else m.
Proof. reflexivity. Qed.

Lemma bulk_remove_tag_eq (l : loc) (node_id : string) (m : t) (tag : string) :
  bulk_remove_tag l node_id m tag
  = if bool_decide (tag ∈ Node.tags (node_at m l))
    then with_tags l (remove_first tag (Node.tags (node_at m l)))
           (index_discard tag node_id (_tag_index m)) m
    else m.
Proof. reflexivity. Qed.

Lemma remove_first_spec (tag : string) (ts : list string) :
  NoDup ts ->
  NoDup (remove_first tag ts) /\
  forall x, x ∈ remove_first tag ts <-> x ∈ ts /\ x <> tag.
Proof.
  induction ts as [|a ts IH]; intros Hnd; cbn [remove_first].
  - split; [constructor|]. intros x. split; [by intros ?%elem_of_nil|by intros [?%elem_of_nil _]].
  - apply NoDup_cons in Hnd as [Ha Hnd]. destruct (IH Hnd) as [IH1 IH2].
    destruct (String.eqb_spec a tag) as [->|Hne].
    + split; [done|]. intros x. rewrite elem_of_cons. split.
      * intros Hx. split; [by right|]. by intros ->.
      * intros [[->|Hx] Hx']; done.
    + split.
      * apply NoDup_cons. split; [|done]. rewrite IH2. tauto.
      * intros x. rewrite !elem_of_cons, IH2. split.
        -- intros [->|[? ?]]; [split; [by left|done]|split; [by right|done]].
        -- intros [[->|?] ?]; [by left|by right].
Qed.

Lemma bulk_add_tag_spec (l : loc) (node_id : string) (m : t) (tag : string) :
  consistent m -> tags_nodup m -> l ∈ nodes_of m -> Node.id (node_at m l) = node_id ->
  let m' := bulk_add_tag l node_id m tag in
  consistent m' /\ tags_nodup m' /\ retagged m m' /\
  tag_set m' l = {[tag]} ∪ tag_set m l /\
  (forall l', l' <> l -> node_at m' l' = node_at m l').
Proof.
  intros Hc Hnd Hl Hid. cbv zeta. rewrite bulk_add_tag_eq.
  destruct (proj1 (consistent_sides m) Hc) as [Hno Heo].
  case_bool_decide as Ht.
  - destruct (with_tags_spec l (Node.tags (node_at m l) ++ [tag])
                (index_add tag node_id (_tag_index m)) m Hc Hnd Hl)
      as (W1 & W2 & W3 & W4 & W5).
    + apply NoDup_app. split; [by apply Hnd|]. split; [|apply NoDup_singleton].
      intros x Hx ->%list_elem_of_singleton. done.
    + intros T. rewrite index_add_lookup, Hid. unfold tag_ids.
      pose proof (tag_member _ _ _ _ _ l T Hno Hl) as Hmem.
      fold (node_at m l) in Hmem. rewrite Hid in Hmem.
      destruct (decide (T = tag)) as [->|Hne].
      * rewrite decide_True by (apply elem_of_app; right; by apply list_elem_of_singleton).
        apply set_gain.
      * destruct (decide (T ∈ Node.tags (node_at m l))) as [Hin|Hin].
        -- rewrite decide_True by (apply elem_of_app; by left). apply set_keep. tauto.
        -- rewrite decide_False. { apply set_absent. tauto. }
           intros [?|?%list_elem_of_singleton]%elem_of_app; done.
    + split; [done|]. split; [done|]. split; [done|]. split; [|done].
      unfold tag_set. rewrite W4, list_to_set_app_L. cbn. set_solver.
  - split; [done|]. split; [done|]. split; [apply retagged_refl|]. split; [|done].
    unfold tag_set. set_solver.
Qed.

Lemma bulk_remove_tag_spec (l : loc) (node_id : string) (m : t) (tag : string) :
  consistent m -> tags_nodup m -> l ∈ nodes_of m -> Node.id (node_at m l) = node_id ->
  let m' := bulk_remove_tag l node_id m tag in
  consistent m' /\ tags_nodup m' /\ retagged m m' /\
  tag_set m' l = tag_set m l ∖ {[tag]} /\
  (forall l', l' <> l -> node_at m' l' = node_at m l').
Proof.
  intros Hc Hnd Hl Hid. cbv zeta. rewrite bulk_remove_tag_eq.
  destruct (proj1 (consistent_sides m) Hc) as [Hno Heo].
  destruct (remove_first_spec tag (Node.tags (node_at m l)) (Hnd l Hl)) as [R1 R2].
  case_bool_decide as Ht.
  - destruct (with_tags_spec l (remove_first tag (Node.tags (node_at m l)))
                (index_discard tag node_id (_tag_index m)) m Hc Hnd Hl R1)
      as (W1 & W2 & W3 & W4 & W5).
    + intros T. rewrite index_discard_lookup, Hid. unfold tag_ids.
      pose proof (tag_member _ _ _ _ _ l T Hno Hl) as Hmem.
      fold (node_at m l) in Hmem. rewrite Hid in Hmem.
      destruct (decide (T = tag)) as [->|Hne].
      * rewrite decide_False by (rewrite R2; tauto). apply set_lose.
      * destruct (decide (T ∈ Node.tags (node_at m l))) as [Hin|Hin].
        -- rewrite decide_True by (rewrite R2; tauto). apply set_keep. tauto.
        -- rewrite decide_False by (rewrite R2; tauto). apply set_absent. tauto.
    + split; [done|]. split; [done|]. split; [done|]. split; [|done].
      unfold tag_set. rewrite W4. apply set_eq. intros x.
      rewrite elem_of_difference, !elem_of_list_to_set, elem_of_singleton. apply R2.
  - split; [done|]. split; [done|]. split; [apply retagged_refl|]. split; [|done].
    unfold tag_set. apply set_eq. intros x.
    rewrite elem_of_difference, !elem_of_list_to_set, elem_of_singleton.
    split; [|tauto]. intros Hx. split; [done|]. by intros ->.
Qed.

Lemma bulk_add_loop (l : loc) (node_id : string) (tags : list string) (m : t) :
  consistent m -> tags_nodup m -> l ∈ nodes_of m -> Node.id (node_at m l) = node_id ->
  let m' := foldl (bulk_add_tag l node_id) m tags in
  consistent m' /\ tags_nodup m' /\ retagged m m' /\
  tag_set m' l = list_to_set tags ∪ tag_set m l /\
  (forall l', l' <> l -> node_at m' l' = node_at m l').
Proof.
  revert m. induction tags as [|tag tags IH]; intros m Hc Hnd Hl Hid; cbn [foldl].
  - split; [done|]. split; [done|]. split; [apply retagged_refl|]. split; [|done].
    cbn. set_solver.
  - destruct (bulk_add_tag_spec l node_id m tag Hc Hnd Hl Hid) as (S1 & S2 & S3 & S4 & S5).
    destruct (retagged_lists _ _ S3) as (Hn & _).
    destruct (IH (bulk_add_tag l node_id m tag) S1 S2) as (I1 & I2 & I3 & I4 & I5).
    { by rewrite Hn. }
    { by rewrite (retagged_id _ _ l S3). }
    split; [done|]. split; [done|]. split; [by eapply retagged_trans|]. split.
    + rewrite I4, S4. cbn. set_solver.
    + intros l' Hne. by rewrite I5, S5.
Qed.

Lemma bulk_remove_loop (l : loc) (node_id : string) (tags : list string) (m : t) :
  consistent m -> tags_nodup m -> l ∈ nodes_of m -> Node.id (node_at m l) = node_id ->
  let m' := foldl (bulk_remove_tag l node_id) m tags in
  consistent m' /\ tags_nodup m' /\ retagged m m' /\
  tag_set m' l = tag_set m l ∖ list_to_set tags /\
  (forall l', l' <> l -> node_at m' l' = node_at m l').
Proof.
  revert m. induction tags as [|tag tags IH]; intros m Hc Hnd Hl Hid; cbn [foldl].
  - split; [done|]. split; [done|]. split; [apply retagged_refl|]. split; [|done].
    cbn. set_solver.
  - destruct (bulk_remove_tag_spec l node_id m tag Hc Hnd Hl Hid) as (S1 & S2 & S3 & S4 & S5).
    destruct (retagged_lists _ _ S3) as (Hn & _).
    destruct (IH (bulk_remove_tag l node_id m tag) S1 S2) as (I1 & I2 & I3 & I4 & I5).
    { by rewrite Hn. }
    { by rewrite (retagged_id _ _ l S3). }
    split; [done|]. split; [done|]. split; [by eapply retagged_trans|]. split.
    + rewrite I4, S4. cbn. set_solver.
    + intros l' Hne. by rewrite I5, S5.
Qed.

Lemma bulk_update_node_spec (m0 : t) (add_tags remove_tags : option (list string))
    (seen : list string) (st : t * list loc) (node_id : string) :
  consistent m0 ->
  bulk_inv m0 (default [] add_tags) (default [] remove_tags) seen st ->
  bulk_inv m0 (default [] add_tags) (default [] remove_tags) (seen ++ [node_id])
    (bulk_update_node add_tags remove_tags st node_id).
Proof.
  intros Hc0 (Hc & Hnd & Hrt & Hup & Hts). destruct st as [m updated]. cbn [fst snd] in *.
  destruct (retagged_lists _ _ Hrt) as (Hn & _).
  pose proof (rt_node_index _ _ Hrt) as Hni.
  unfold bulk_update_node. rewrite Hni.
  assert (Hseen : forall l, l ∈ nodes_of m0 -> Node.id (node_at m0 l) <> node_id ->
            (Node.id (node_at m0 l) ∈ seen ++ [node_id]) <-> (Node.id (node_at m0 l) ∈ seen)).
  { intros l _ Hne. rewrite elem_of_app, list_elem_of_singleton. tauto. }
  destruct (_node_index m0 !! node_id) as [li|] eqn:Hli.
  - apply (c_node_index m0 Hc0) in Hli as Hli'. destruct Hli' as [Hl0 Hid0].
    assert (Hl : li ∈ nodes_of m) by (by rewrite Hn).
    assert (Hid : Node.id (node_at m li) = node_id) by (by rewrite (retagged_id _ _ li Hrt)).
    destruct (bulk_add_loop li node_id (default [] add_tags) m Hc Hnd Hl Hid)
      as (A1 & A2 & A3 & A4 & A5).
    set (m1 := foldl (bulk_add_tag li node_id) m (default [] add_tags)) in *.
    destruct (retagged_lists _ _ A3) as (Hn1 & _).
    destruct (bulk_remove_loop li node_id (default [] remove_tags) m1 A1 A2)
      as (R1 & R2 & R3 & R4 & R5).
    { by rewrite Hn1. }
    { by rewrite (retagged_id _ _ li A3). }
    set (m2 := foldl (bulk_remove_tag li node_id) m1 (default [] remove_tags)) in *.
    split; [exact R1|]. split; [exact R2|]. cbn [fst snd].
    split; [eapply retagged_trans; [exact Hrt|]; by eapply retagged_trans|].
    split.
    { rewrite omap_app, <- Hup. f_equal. cbn. by rewrite Hli. }
    intros l Hl'. destruct (decide (l = li)) as [->|Hne].
    + rewrite decide_True by (rewrite Hid0; apply elem_of_app; right; by left).
      rewrite R4, A4, (Hts li Hl0). case_decide; set_solver.
    + assert (Hidne : Node.id (node_at m0 l) <> node_id).
      { intros Heq. apply Hne.
        assert (_node_index m0 !! node_id = Some l) by (by apply (c_node_index m0 Hc0)).
        congruence. }
      assert (Hsame : tag_set m2 l = tag_set m l)
        by (unfold tag_set; by rewrite R5, A5).
      rewrite Hsame, (Hts l Hl').
      destruct (decide (Node.id (node_at m0 l) ∈ seen)) as [Hin|Hin].
      * rewrite decide_True; [done|]. by apply Hseen.
      * rewrite decide_False; [done|]. by rewrite Hseen.
  - unfold bulk_inv. cbn [fst snd]. split; [done|]. split; [done|]. split; [done|]. split.
    { rewrite omap_app, <- Hup. rewrite <- (app_nil_r updated) at 1. f_equal.
      cbn. by rewrite Hli. }
    intros l Hl'. rewrite (Hts l Hl').
    assert (Hidne : Node.id (node_at m0 l) <> node_id).
    { intros Heq.
      assert (_node_index m0 !! node_id = Some l) by (by apply (c_node_index m0 Hc0)).
      congruence. }
    destruct (decide (Node.id (node_at m0 l) ∈ seen)) as [Hin|Hin].
    + rewrite decide_True; [done|]. by apply Hseen.
    + rewrite decide_False; [done|]. by rewrite Hseen.
Qed.

Lemma bulk_loop_spec (m0 : t) (add_tags remove_tags : option (list string))
    (node_ids : list string) :
  consistent m0 ->
  forall seen st,
    bulk_inv m0 (default [] add_tags) (default [] remove_tags) seen st ->
    bulk_inv m0 (default [] add_tags) (default [] remove_tags) (seen ++ node_ids)
      (foldl (bulk_update_node add_tags remove_tags) st node_ids).
Proof.
  intros Hc0. induction node_ids as [|i ids IH]; intros seen st Hinv; cbn [foldl].
  - by rewrite app_nil_r.
  - replace (seen ++ i :: ids) with ((seen ++ [i]) ++ ids) by (by rewrite <- app_assoc).
    apply IH. by apply bulk_update_node_spec.
Qed.

Lemma same_graph_node_at m m' l : same_graph m m' -> node_at m' l = node_at m l.
Proof. intros [_ H2 _ _ _ _ _ _]. unfold node_at. by rewrite H2. Qed.

Lemma bulk_update_tags_spec
    (m : t) (d : Diagram.t loc loc) (node_ids : list string)
    (add_tags remove_tags : option (list string)) :
  consistent m -> tags_nodup m -> _diagram m = Some d ->
  let r := bulk_update_tags node_ids add_tags remove_tags m in
  r.1 = Ok (omap (fun i => _node_index m !! i) node_ids) /\
  consistent r.2 /\ tags_nodup r.2 /\
  nodes_of r.2 = nodes_of m /\ edges_of r.2 = edges_of m /\ live_edges r.2 = live_edges m /\
  forall l, l ∈ nodes_of m ->
    set_tags (Node.tags (node_at m l)) (node_at r.2 l) = node_at m l /\
    tag_set r.2 l
    = if decide (Node.id (node_at m l) ∈ node_ids)
      then (list_to_set (default [] add_tags) ∪ tag_set m l)
           ∖ list_to_set (default [] remove_tags)
      else tag_set m l.
Proof.
  intros Hc Hnd Hd r. subst r.
  pose proof (same_graph_save m) as Hsg.
  pose proof (consistent_same_graph _ _ Hsg Hc) as Hc1.
  destruct (same_graph_live _ _ Hsg) as (Hn1 & He1 & _ & Hle1).
  pose proof (sg_node_index _ _ Hsg) as Hni1.
  assert (Hat1 : forall l, node_at (_save_to_history m) l = node_at m l)
    by (intros l; by apply same_graph_node_at).
  assert (Hnd1 : tags_nodup (_save_to_history m)).
  { intros l Hl. rewrite Hat1. apply Hnd. by rewrite <- Hn1. }
  unfold bulk_update_tags. rewrite Hd.
  set (m1 := _save_to_history m) in *.
  assert (Hinv0 : bulk_inv m1 (default [] add_tags) (default [] remove_tags) [] (m1, [])).
  { split; [done|]. split; [done|]. split; [apply retagged_refl|]. split; [done|].
    intros l _. rewrite decide_False; [done|]. apply not_elem_of_nil. }
  pose proof (bulk_loop_spec m1 add_tags remove_tags node_ids Hc1 [] (m1, []) Hinv0) as Hinv.
  cbn [app] in Hinv.
  destruct (foldl (bulk_update_node add_tags remove_tags) (m1, []) node_ids)
    as [m2 updated].
  destruct Hinv as (Hc2 & Hnd2 & Hrt & Hup & Hts). cbn [fst snd] in Hc2, Hnd2, Hrt, Hup, Hts.
  destruct (retagged_lists _ _ Hrt) as (Hn2 & He2 & Hle2).
  set (m3 := match updated with [] => m2 | _ :: _ => _notify_change (set_dirty true m2) end).
  assert (Hsg3 : same_graph m2 m3).
  { subst m3. destruct updated; [apply same_graph_refl|].
    eapply same_graph_trans; [apply same_graph_dirty|apply same_graph_notify]. }
  destruct (same_graph_live _ _ Hsg3) as (Hn3 & He3 & _ & Hle3).
  cbn [fst snd].
  split; [by rewrite Hup, Hni1|].
  split; [by apply (consistent_same_graph _ _ Hsg3)|].
  split.
  { intros l Hl. rewrite (same_graph_node_at _ _ l Hsg3). apply Hnd2. by rewrite <- Hn3. }
  split; [congruence|]. split; [congruence|]. split; [congruence|].
  intros l Hl. unfold tag_set. rewrite (same_graph_node_at _ _ l Hsg3).
  fold (tag_set m2 l). split.
  - rewrite <- (Hat1 l). apply (rt_fields _ _ Hrt).
  - rewrite (Hts l) by (by rewrite Hn1). unfold tag_set. by rewrite !Hat1.
Qed.

(** X5. [bulk_update_tags] on a consistent store whose nodes list no tag
    twice: the nodes named and found are returned in the order asked; each
    of them ends with the tags it had, plus [add_tags], minus [remove_tags]
    (as a set); no other field of any node, no other node and no edge
    changes; tag lists stay free of repetition and the store stays
    consistent. *)
Theorem bulk_update_tags_sets
    (m : t) (d : Diagram.t loc loc) (node_ids : list string)
    (add_tags remove_tags : option (list string)) :
  consistent m -> tags_nodup m -> _diagram m = Some d ->
  let r := bulk_update_tags node_ids add_tags remove_tags m in
  r.1 = Ok (omap (fun i => _node_index m !! i) node_ids) /\
  consistent r.2 /\ tags_nodup r.2 /\
  nodes_of r.2 = nodes_of m /\ edges_of r.2 = edges_of m /\ live_edges r.2 = live_edges m /\
  forall l, l ∈ nodes_of m ->
    set_tags (Node.tags (node_at m l)) (node_at r.2 l) = node_at m l /\
    tag_set r.2 l
    = if decide (Node.id (node_at m l) ∈ node_ids)
      then (list_to_set (default [] add_tags) ∪ tag_set m l)
           ∖ list_to_set (default [] remove_tags)
      else tag_set m l.
Proof. apply bulk_update_tags_spec. Qed.

Lemma abc_tags_nodup : tags_nodup Examples.abc_manager.
Proof.
  intros l Hl. change (nodes_of Examples.abc_manager) with [0; 1; 2]%nat in Hl.
  repeat (apply elem_of_cons in Hl as [->|Hl]; [by_compute|]). by apply elem_of_nil in Hl.
Qed.

Lemma bulk_update_tags_sets_witness :
  let r := bulk_update_tags ["a"; "ghost"; "b"] (Some ["hot"]) (Some ["front"])
             Examples.abc_manager in
  r.1 = Ok [0; 1]%nat /\ consistent r.2 /\
  tag_set r.2 0%nat = {["hot"]} /\ tag_set r.2 1%nat = {["db"; "hot"]} /\
  tag_set r.2 2%nat = ∅.
Proof.
  pose proof (bulk_update_tags_sets Examples.abc_manager Examples.abc_diagram
                ["a"; "ghost"; "b"] (Some ["hot"]) (Some ["front"])
                abc_consistent abc_tags_nodup ltac:(vm_compute; reflexivity)) as H.
  cbv zeta in H. destruct H as (H1 & H2 & _ & _ & _ & _ & H7).
  cbv zeta. split; [rewrite H1; vm_compute; reflexivity|]. split; [exact H2|].
  split; [|split]; by_compute.
Defined.

(** *** Diagrams in good shape *)

Lemma shaped_tags m : shaped m -> tags_nodup m.
Proof.
  intros [_ _ Ht _] l Hl. rewrite Forall_forall in Ht. apply Ht.
  unfold live_nodes. apply list_elem_of_fmap. by exists l.
Qed.

Lemma same_graph_shaped m m' : same_graph m m' -> shaped m -> shaped m'.
Proof.
  intros Hsg. destruct (same_graph_live _ _ Hsg) as (_ & _ & Hn & He).
  unfold shaped. by rewrite Hn, He.
Qed.

(** *** [delete_node], by lists *)

Lemma delete_node_lists (node_id : string) (m : t) (d : Diagram.t loc loc) (l : loc) :
  consistent m -> _diagram m = Some d -> _node_index m !! node_id = Some l ->
  let m' := (delete_node node_id m).2 in
  consistent m' /\
  live_nodes m' = filter (fun n => Node.id n ≠ node_id) (live_nodes m) /\
  live_edges m' = filter (fun e => ~ incident node_id e) (live_edges m).
Proof.
  intros Hc Hd Hl.
  destruct (proj1 (consistent_sides m) Hc) as [Hno Heo].
  pose proof (nodes_ok_indexed _ _ _ _ _ Hno) as Hni.
  destruct (delete_node_spec node_id m d l Hni Heo Hd Hl)
    as (_ & S1 & S2 & S3 & S4 & S5 & S6 & S7 & Hei').
  set (m' := (delete_node node_id m).2) in *. cbv zeta.
  assert (Hid : Node.id (node_at m l) = node_id) by (by apply Hni in Hl as [_ ?]).
  split; [|split].
  - apply consistent_sides. split; [|done]. rewrite S1, S3, S5, S6, S7.
    pose proof (nodes_ok_remove _ _ _ _ _ node_id l Hno Hl) as Hrem.
    cbv zeta in Hrem. fold (node_at m l) in Hrem. rewrite Hid in Hrem. exact Hrem.
  - unfold live_nodes, node_at in *. rewrite S1, S3. by apply map_filter_comm.
  - unfold live_edges, edge_at in *. rewrite S2, S4. by apply map_filter_comm.
Qed.

(** *** [update_diagram_info] *)

Lemma update_diagram_info_fields name grid_size show_grid (m : t) (d : Diagram.t loc loc) :
  _diagram m = Some d ->
  let r := update_diagram_info name grid_size show_grid m in
  exists d', r.1 = Ok d' /\ _diagram r.2 = Some d' /\
    Diagram.id d' = Diagram.id d /\
    Diagram.name d' = default (Diagram.name d) name /\
    Diagram.nodes d' = Diagram.nodes d /\ Diagram.edges d' = Diagram.edges d /\
    created_at (Diagram.metadata d') = created_at (Diagram.metadata d) /\
    updated_at (Diagram.metadata d') = updated_at (Diagram.metadata d) /\
    Models.grid_size (Diagram.metadata d') = default (Models.grid_size (Diagram.metadata d)) grid_size /\
    Models.show_grid (Diagram.metadata d') = default (Models.show_grid (Diagram.metadata d)) show_grid /\
    node_store r.2 = node_store m /\ edge_store r.2 = edge_store m /\
    _node_index r.2 = _node_index m /\ _edge_index r.2 = _edge_index m /\
    _tag_index r.2 = _tag_index m /\ _type_index r.2 = _type_index m /\
    _edges_by_node r.2 = _edges_by_node m /\ _dirty r.2 = true.
Proof.
  intros Hd r. subst r.
  destruct (same_graph_save m) as [S1 S2 S3 S4 S5 S6 S7 S8].
  unfold update_diagram_info. rewrite Hd. cbv zeta.
  cbn [fst snd _notify_change set_changes set_dirty set_diagram
       node_store edge_store _diagram _dirty _node_index _edge_index
       _edges_by_node _tag_index _type_index].
  rewrite S2, S3, S4, S5, S6, S7, S8.
  eexists. repeat split; reflexivity.
Qed.

Lemma update_diagram_info_lists name grid_size show_grid (m : t) (d : Diagram.t loc loc) :
  _diagram m = Some d ->
  let m' := (update_diagram_info name grid_size show_grid m).2 in
  (consistent m -> consistent m') /\
  live_nodes m' = live_nodes m /\ live_edges m' = live_edges m.
Proof.
  intros Hd.
  destruct (update_diagram_info_fields name grid_size show_grid m d Hd)
    as (d' & _ & F1 & _ & _ & F4 & F5 & _ & _ & _ & _ & F10 & F11 & F12 & F13 & F14 & F15
        & F16 & _).
  set (m' := (update_diagram_info name grid_size show_grid m).2) in *. cbv zeta.
  assert (Hn : nodes_of m' = nodes_of m) by (unfold nodes_of; by rewrite F1, Hd).
  assert (He : edges_of m' = edges_of m) by (unfold edges_of; by rewrite F1, Hd).
  assert (Hln : live_nodes m' = live_nodes m)
    by (unfold live_nodes, node_at; by rewrite Hn, F10).
  assert (Hle : live_edges m' = live_edges m)
    by (unfold live_edges, edge_at; by rewrite He, F11).
  split; [|done].
  intros [C1 C2 C3 C4 C5 C6 C7].
  constructor; unfold tag_ids, type_ids, incident_ids, node_at, edge_at in *;
    rewrite ?Hln, ?Hle, ?Hn, ?He, ?F10, ?F11, ?F12, ?F13, ?F14, ?F15, ?F16; assumption.
Qed.

(** *** Calls that do not go through *)

Lemma call_fails (a : HistoryFacts.op) (m : t) :
  (HistoryFacts.call a m).1 = false -> (HistoryFacts.call a m).2 = m.
Proof.
  destruct a; cbn [HistoryFacts.call].
  - unfold add_node, alloc, no_diagram. destruct (_diagram m); call_outcome.
  - unfold update_node, no_diagram. destruct (_diagram m); [|call_outcome].
    destruct (_node_index m !! node_id); call_outcome.
  - unfold delete_node, no_diagram. destruct (_diagram m); [|call_outcome].
    destruct (_node_index m !! node_id); call_outcome.
  - unfold add_edge, alloc, no_diagram. destruct (_diagram m); [|call_outcome].
    repeat case_match; simplify_eq; call_outcome.
  - unfold update_edge, no_diagram. destruct (_diagram m); [|call_outcome].
    destruct (_edge_index m !! edge_id); call_outcome.
  - unfold delete_edge, no_diagram. destruct (_diagram m); [|call_outcome].
    destruct (_edge_index m !! edge_id); call_outcome.
  - unfold bulk_update_tags, no_diagram. destruct (_diagram m); [|call_outcome].
    destruct (foldl _ _ _). call_outcome.
  - unfold update_diagram_info, no_diagram. destruct (_diagram m); call_outcome.
Qed.

(** *** Every call keeps the store in shape *)

Lemma call_no_diagram (a : HistoryFacts.op) (m : t) :
  _diagram m = None -> (HistoryFacts.call a m).2 = m.
Proof.
  intros Hd. apply call_fails.
  destruct a; cbn [HistoryFacts.call];
    unfold add_node, update_node, delete_node, add_edge, update_edge, delete_edge,
      bulk_update_tags, update_diagram_info, no_diagram; by rewrite Hd.
Qed.

Lemma elem_of_ids_filter (ns : list Node.t) (node_id x : string) :
  x ∈ map Node.id (filter (fun n => Node.id n ≠ node_id) ns)
  <-> x ∈ map Node.id ns /\ x <> node_id.
Proof.
  rewrite !list_elem_of_fmap. split.
  - intros (n & -> & [Hne Hn]%list_elem_of_filter). split; [by exists n|done].
  - intros [(n & -> & Hn) Hne]. exists n. split; [done|]. by apply list_elem_of_filter.
Qed.

Lemma NoDup_map_filter {A} (f : A -> string) (P : A -> Prop) `{!forall a, Decision (P a)}
    (l : list A) :
  NoDup (map f l) -> NoDup (map f (filter P l)).
Proof.
  induction l as [|a l IH]; [done|]. cbn [map]. intros [Ha Hnd]%NoDup_cons.
  rewrite filter_cons. destruct (decide (P a)); [|by apply IH].
  cbn [map]. apply NoDup_cons. split; [|by apply IH].
  intros (b & Hb & [_ Hin]%list_elem_of_filter)%list_elem_of_fmap.
  apply Ha. apply list_elem_of_fmap. by exists b.
Qed.

Lemma Forall_filter_keep {A} (Q P : A -> Prop) `{!forall a, Decision (P a)} (l : list A) :
  Forall Q l -> Forall Q (filter P l).
Proof.
  rewrite !Forall_forall. intros HQ a [_ Ha]%list_elem_of_filter. by apply HQ.
Qed.

Lemma add_node_keeps o kwargs (m : t) (d : Diagram.t loc loc) :
  consistent m -> shaped m -> _diagram m = Some d ->
  safe (HistoryFacts.AddNode o kwargs) m ->
  consistent (add_node o kwargs m).2 /\ shaped (add_node o kwargs m).2.
Proof.
  intros Hc [W1 W2 W3 W4] Hd [Hfresh Htags].
  destruct (add_node_consistent o kwargs m d Hc Hd Hfresh) as (C & Hn & He).
  split; [exact C|]. unfold shaped. rewrite Hn, He. constructor.
  - rewrite map_app. apply NoDup_app. split; [done|]. split; [|apply NoDup_singleton].
    intros x Hx ->%list_elem_of_singleton. done.
  - done.
  - apply Forall_app. split; [done|]. by constructor.
  - eapply Forall_impl; [exact W4|]. intros e [Hs Ht]. rewrite map_app.
    split; apply elem_of_app; by left.
Qed.

Lemma update_node_missing (node_id : string) kwargs (m : t) (d : Diagram.t loc loc) :
  _diagram m = Some d -> _node_index m !! node_id = None ->
  update_node node_id kwargs m = (Ok None, m).
Proof. intros Hd Hi. unfold update_node. by rewrite Hd, Hi. Qed.

Lemma update_node_keeps (node_id : string) kwargs (m : t) (d : Diagram.t loc loc) :
  consistent m -> shaped m -> _diagram m = Some d ->
  safe (HistoryFacts.UpdateNode node_id kwargs) m ->
  consistent (update_node node_id kwargs m).2 /\ shaped (update_node node_id kwargs m).2.
Proof.
  intros Hc Hs Hd [Hid Htags].
  destruct (_node_index m !! node_id) as [l|] eqn:Hl;
    [|by rewrite (update_node_missing node_id kwargs m d Hd Hl)].
  assert (Hl' : l ∈ nodes_of m /\ Node.id (node_at m l) = node_id)
    by (by apply (c_node_index m Hc)).
  destruct Hl' as [Hin Hold].
  pose proof (c_nodes_alloc m Hc l Hin) as Hlen.
  assert (Hid' : Node.id (NodeKwargs.setattrs kwargs (node_at m l)) = node_id).
  { unfold NodeKwargs.setattrs. cbn [Node.id]. by rewrite Hid. }
  destruct (update_node_consistent node_id kwargs m d l Hc Hd Hl Hid')
    as (C1 & C2 & C3 & C4 & C5).
  split; [exact C1|].
  set (m' := (update_node node_id kwargs m).2) in *.
  set (n' := NodeKwargs.setattrs kwargs (node_at m l)) in *.
  assert (Hle : live_edges m' = live_edges m).
  { unfold live_edges, edge_at. by rewrite C3, C4. }
  assert (Hat : forall l', node_at m' l' = if decide (l' = l) then n' else node_at m l').
  { intros l'. unfold node_at. rewrite C5. by apply deref_store. }
  assert (Hids : map Node.id (live_nodes m') = map Node.id (live_nodes m)).
  { unfold live_nodes. rewrite C2, !map_map. apply map_ext. intros l'.
    rewrite Hat. case_decide; [subst; congruence|done]. }
  destruct Hs as [W1 W2 W3 W4]. unfold shaped. rewrite Hle. constructor.
  - by rewrite Hids.
  - done.
  - unfold live_nodes. rewrite C2. apply Forall_forall.
    intros n (l' & -> & Hl')%list_elem_of_fmap. rewrite Hat. case_decide as E.
    + subst n'. unfold NodeKwargs.setattrs. cbn [Node.tags].
      destruct (NodeKwargs.tags kwargs) as [ts|]; [exact Htags|].
      cbn. rewrite Forall_forall in W3. apply W3.
      unfold live_nodes. apply list_elem_of_fmap. by exists l.
    + rewrite Forall_forall in W3. apply W3.
      unfold live_nodes. apply list_elem_of_fmap. by exists l'.
  - by rewrite Hids.
Qed.

Lemma delete_node_missing (node_id : string) (m : t) (d : Diagram.t loc loc) :
  _diagram m = Some d -> _node_index m !! node_id = None ->
  delete_node node_id m = (Ok false, m).
Proof. intros Hd Hi. unfold delete_node. by rewrite Hd, Hi. Qed.

Lemma delete_node_keeps (node_id : string) (m : t) (d : Diagram.t loc loc) :
  consistent m -> shaped m -> _diagram m = Some d ->
  consistent (delete_node node_id m).2 /\ shaped (delete_node node_id m).2.
Proof.
  intros Hc Hs Hd.
  destruct (_node_index m !! node_id) as [l|] eqn:Hl;
    [|by rewrite (delete_node_missing node_id m d Hd Hl)].
  destruct (delete_node_lists node_id m d l Hc Hd Hl) as (C & Hn & He).
  split; [exact C|]. destruct Hs as [W1 W2 W3 W4]. unfold shaped. rewrite Hn, He.
  constructor.
  - by apply NoDup_map_filter.
  - by apply NoDup_map_filter.
  - by apply Forall_filter_keep.
  - apply Forall_forall. intros e [Hinc He']%list_elem_of_filter.
    rewrite Forall_forall in W4. destruct (W4 e He') as [Hsrc Htgt].
    rewrite !elem_of_ids_filter. unfold incident in Hinc.
    split; (split; [done|]); intros Heq; apply Hinc; [by left|by right].
Qed.

Lemma add_edge_raises o source target from_node to_node label source_side target_side
    (m : t) e :
  (add_edge o source target from_node to_node label source_side target_side m).1 = Raise e ->
  (add_edge o source target from_node to_node label source_side target_side m).2 = m.
Proof.
  intros Hr.
  pose proof (call_fails (HistoryFacts.AddEdge o source target from_node to_node label
                            source_side target_side) m) as H.
  cbn [HistoryFacts.call] in H.
  destruct (add_edge o source target from_node to_node label source_side target_side m)
    as [r m']. cbn [fst snd] in *. subst r. by apply H.
Qed.

Lemma node_id_live (m : t) (i : string) :
  consistent m -> i ∈ dom (_node_index m) -> i ∈ map Node.id (live_nodes m).
Proof.
  intros Hc [l Hl]%elem_of_dom. apply (c_node_index m Hc) in Hl as [Hl <-].
  unfold live_nodes. rewrite map_map. apply list_elem_of_fmap. by exists l.
Qed.

Lemma add_edge_keeps o source target from_node to_node label source_side target_side
    (m : t) (d : Diagram.t loc loc) :
  consistent m -> shaped m -> _diagram m = Some d ->
  safe (HistoryFacts.AddEdge o source target from_node to_node label source_side
          target_side) m ->
  let m' := (add_edge o source target from_node to_node label source_side target_side m).2 in
  consistent m' /\ shaped m'.
Proof.
  intros Hc Hs Hd Hfresh. cbv zeta.
  destruct (add_edge o source target from_node to_node label source_side target_side m).1
    as [l|e] eqn:Hr; [|by rewrite (add_edge_raises _ _ _ _ _ _ _ _ m e Hr)].
  destruct (add_edge_consistent _ _ _ _ _ _ _ _ m d l Hc Hd Hr Hfresh)
    as (C & Hn & e & He & Hid & Hsrc & Htgt).
  destruct (add_edge_fields _ _ _ _ _ _ _ _ m d l Hd Hr)
    as (src & tgt & Es & Et & Ds & Dt & _).
  split; [exact C|]. destruct Hs as [W1 W2 W3 W4]. unfold shaped. rewrite Hn, He.
  constructor; try done.
  - rewrite map_app. apply NoDup_app. split; [done|]. split; [|apply NoDup_singleton].
    intros x Hx ->%list_elem_of_singleton. cbn in Hx. by rewrite Hid in Hx.
  - apply Forall_app. split; [done|]. constructor; [|constructor].
    rewrite Es in Hsrc. rewrite Et in Htgt. injection Hsrc as ->. injection Htgt as ->.
    split; by apply node_id_live.
Qed.

Lemma update_edge_missing (edge_id : string) kwargs (m : t) (d : Diagram.t loc loc) :
  _diagram m = Some d -> _edge_index m !! edge_id = None ->
  update_edge edge_id kwargs m = (Ok None, m).
Proof. intros Hd Hi. unfold update_edge. by rewrite Hd, Hi. Qed.

Lemma update_edge_keeps (edge_id : string) kwargs (m : t) (d : Diagram.t loc loc) :
  consistent m -> shaped m -> _diagram m = Some d ->
  safe (HistoryFacts.UpdateEdge edge_id kwargs) m ->
  consistent (update_edge edge_id kwargs m).2 /\ shaped (update_edge edge_id kwargs m).2.
Proof.
  intros Hc Hs Hd (K1 & K2 & K3).
  destruct (_edge_index m !! edge_id) as [l|] eqn:Hl;
    [|by rewrite (update_edge_missing edge_id kwargs m d Hd Hl)].
  destruct (proj1 (consistent_sides m) Hc) as [_ Hei].
  assert (Hl' : l ∈ edges_of m /\ Edge.id (edge_at m l) = edge_id) by (by apply Hei).
  destruct Hl' as [Hin Hid].
  pose proof (update_edge_spec m d l kwargs Hei Hd Hin) as H. cbv zeta in H.
  rewrite Hid in H.
  destruct H as (_ & Hat & Hother & _ & _ & _ & He & Hln & _ & _ & _ & _ & _ & Hcons).
  split; [by apply Hcons|].
  set (m' := (update_edge edge_id kwargs m).2) in *.
  assert (Hsame : forall l', Edge.id (edge_at m' l') = Edge.id (edge_at m l')
                             /\ Edge.source (edge_at m' l') = Edge.source (edge_at m l')
                             /\ Edge.target (edge_at m' l') = Edge.target (edge_at m l')).
  { intros l'. destruct (decide (l' = l)) as [->|Hne]; [|by rewrite Hother].
    rewrite Hat. unfold EdgeKwargs.setattrs. cbn [Edge.id Edge.source Edge.target].
    by rewrite K1, K2, K3. }
  destruct Hs as [W1 W2 W3 W4]. unfold shaped. rewrite Hln. constructor; try done.
  - unfold live_edges in *. rewrite He, map_map. rewrite map_map in W2.
    erewrite map_ext; [exact W2|]. intros l'. cbn. apply Hsame.
  - unfold live_edges in *. rewrite He. rewrite Forall_forall in W4. apply Forall_forall.
    intros e (l' & -> & Hl')%list_elem_of_fmap.
    destruct (Hsame l') as (_ & -> & ->). apply W4. apply list_elem_of_fmap. by exists l'.
Qed.

Lemma delete_edge_keeps (edge_id : string) (m : t) (d : Diagram.t loc loc) :
  consistent m -> shaped m -> _diagram m = Some d ->
  consistent (delete_edge edge_id m).2 /\ shaped (delete_edge edge_id m).2.
Proof.
  intros Hc Hs Hd.
  destruct (delete_edge_consistent edge_id m d Hc Hd) as (C & Hn & He).
  split; [exact C|]. destruct Hs as [W1 W2 W3 W4]. unfold shaped. rewrite Hn, He.
  constructor; try done.
  - by apply NoDup_map_filter.
  - by apply Forall_filter_keep.
Qed.

Lemma bulk_update_tags_keeps node_ids add_tags remove_tags (m : t) (d : Diagram.t loc loc) :
  consistent m -> shaped m -> _diagram m = Some d ->
  let m' := (bulk_update_tags node_ids add_tags remove_tags m).2 in
  consistent m' /\ shaped m'.
Proof.
  intros Hc Hs Hd. cbv zeta.
  pose proof (bulk_update_tags_spec m d node_ids add_tags remove_tags Hc
                (shaped_tags m Hs) Hd) as H. cbv zeta in H.
  destruct H as (_ & C & Hnd & Hn & _ & Hle & Hfields).
  split; [exact C|].
  set (m' := (bulk_update_tags node_ids add_tags remove_tags m).2) in *.
  assert (Hids : map Node.id (live_nodes m') = map Node.id (live_nodes m)).
  { unfold live_nodes. rewrite Hn, !map_map. apply map_ext_in. intros l Hl%list_elem_of_In.
    destruct (Hfields l Hl) as [Hf _]. cbn. by rewrite <- Hf. }
  destruct Hs as [W1 W2 W3 W4]. unfold shaped. rewrite Hle. constructor.
  - by rewrite Hids.
  - done.
  - unfold live_nodes. apply Forall_forall. intros n (l & -> & Hl)%list_elem_of_fmap.
    by apply Hnd.
  - by rewrite Hids.
Qed.

Lemma call_snd {A B} (p : A * t) (f : A -> B) : (let '(r, m) := p in (f r, m)).2 = p.2.
Proof. by destruct p. Qed.

Lemma call_keeps (a : HistoryFacts.op) (m : t) :
  consistent m -> shaped m -> safe a m ->
  consistent (HistoryFacts.call a m).2 /\ shaped (HistoryFacts.call a m).2.
Proof.
  intros Hc Hs Hsafe.
  destruct (_diagram m) as [d|] eqn:Hd; [|by rewrite call_no_diagram].
  destruct a; cbn [HistoryFacts.call]; rewrite call_snd.
  - by apply (add_node_keeps o kwargs m d).
  - by apply (update_node_keeps node_id kwargs m d).
  - by apply (delete_node_keeps node_id m d).
  - by apply (add_edge_keeps _ _ _ _ _ _ _ _ m d).
  - by apply (update_edge_keeps edge_id kwargs m d).
  - by apply (delete_edge_keeps edge_id m d).
  - by apply (bulk_update_tags_keeps node_ids add_tags remove_tags m d).
  - destruct (update_diagram_info_lists name grid_size0 show_grid0 m d Hd) as (C & Hn & He).
    split; [by apply C|]. unfold shaped. by rewrite Hn, He.
Qed.

(** *** Calls, undo and redo in any order *)

Lemma live_value (m : t) (d : Diagram.t loc loc) :
  _diagram m = Some d ->
  Diagram.nodes (value_of m d) = live_nodes m /\ Diagram.edges (value_of m d) = live_edges m.
Proof.
  intros Hd. unfold live_nodes, live_edges, nodes_of, edges_of, node_at, edge_at.
  by rewrite Hd.
Qed.

Lemma live_diagram (m : t) (v : Diagram.value) :
  diagram m = Some v -> live_nodes m = Diagram.nodes v /\ live_edges m = Diagram.edges v.
Proof.
  intros (d & Hd & <-)%HistoryFacts.diagram_active.
  by destruct (live_value m d Hd) as [-> ->].
Qed.

Lemma well_formed_normalize (v : Diagram.value) :
  well_formed v -> well_formed (ModelsFacts.normalize v).
Proof.
  intros [W1 W2 W3 W4]. unfold well_formed.
  cbn [ModelsFacts.normalize Diagram.nodes Diagram.edges]. constructor; try done.
  - by rewrite map_map.
  - apply Forall_forall. intros e (e0 & -> & He0)%list_elem_of_fmap.
    rewrite Forall_forall in W4. exact (W4 e0 He0).
Qed.

Lemma good_current (m : t) (d : Diagram.t loc loc) :
  shaped m -> _diagram m = Some d -> good_snapshot (Diagram.to_json_dict (value_of m d)).
Proof.
  intros Hs Hd. exists (value_of m d). split; [done|].
  unfold well_formed. by destruct (live_value m d Hd) as [-> ->].
Qed.

Lemma good_trim (max_history : Z) (h : list dict) :
  Forall good_snapshot h -> Forall good_snapshot (trim max_history h).
Proof.
  unfold trim. destruct (max_history <? _)%Z; [|done].
  destruct h; [done|]. cbn. by intros [_ ?]%Forall_cons.
Qed.

Lemma call_sound (a : HistoryFacts.op) (m : t) :
  sound m -> safe a m -> sound (HistoryFacts.call a m).2.
Proof.
  intros [[d Hd] Hc Hs Hh Hf] Hsafe.
  destruct (call_keeps a m Hc Hs Hsafe) as [Hc' Hs'].
  destruct (HistoryFacts.call a m).1 eqn:Hok;
    [|rewrite (call_fails a m Hok) in *; by constructor].
  destruct (HistoryFacts.call_pushes a m d Hd Hok) as [L1 L2 _ L4].
  destruct (HistoryFacts.save_other m) as (Hsd & _).
  constructor; [apply L4; by rewrite Hsd, Hd|done|done| |].
  - rewrite L1, (HistoryFacts.save_history m d Hd). apply good_trim.
    apply Forall_app. split; [done|]. constructor; [|done]. by apply good_current.
  - rewrite L2, (HistoryFacts.save_future m d Hd). constructor.
Qed.

Lemma last_split {A} (l : list A) (x : A) : last l = Some x -> exists h, l = h ++ [x].
Proof.
  intros Hl. destruct l as [|a l] using rev_ind; [done|].
  rewrite last_snoc in Hl. injection Hl as ->. by exists l.
Qed.

Lemma reinstalled_sound (v : Diagram.value) (m0 m' : t) (h f : list dict) :
  well_formed v -> m' = reinstalled v m0 ->
  _history m' = h -> _future m' = f ->
  Forall good_snapshot h -> Forall good_snapshot f -> sound m'.
Proof.
  intros Hw -> Hh Hf Gh Gf. destruct Hw as [W1 W2 W3 W4].
  destruct (reinstalled_spec v m0 W1 W2) as (R1 & _ & R3).
  destruct (live_diagram _ _ R1) as [Ln Le].
  destruct (HistoryFacts.diagram_active _ _ R1) as (d & Hd & _).
  constructor; [by exists d|done| |by rewrite Hh|by rewrite Hf].
  unfold shaped. rewrite Ln, Le. by constructor.
Qed.

Lemma undo_sound (o : oracle) (m : t) : sound m -> sound (undo o m).2.
Proof.
  intros Hm. destruct (_diagram m) as [d|] eqn:Hd; [|by unfold undo; rewrite Hd].
  destruct (last (_history m)) as [s|] eqn:Hl; [|by unfold undo; rewrite Hd, Hl].
  destruct Hm as [_ Hc Hs Hh Hf].
  destruct (last_split _ _ Hl) as [h Hhist].
  rewrite Hhist in Hh. apply Forall_app in Hh as [Gh Gs].
  apply Forall_cons in Gs as [(v & -> & Hv) _].
  destruct (HistoryFacts.undo_step o m d h v Hd Hhist) as (_ & U2 & U3 & _).
  destruct (undo_eq o m d _ _ Hd Hl (ModelsFacts.from_to_json_dict o v)) as [m0 E].
  apply (reinstalled_sound (ModelsFacts.normalize v) m0 _ h
           (_future m ++ [Diagram.to_json_dict (value_of m d)])).
  - by apply well_formed_normalize.
  - by rewrite E.
  - exact U2.
  - exact U3.
  - exact Gh.
  - apply Forall_app. split; [done|]. constructor; [|done]. by apply good_current.
Qed.

Lemma redo_sound (o : oracle) (m : t) : sound m -> sound (redo o m).2.
Proof.
  intros Hm. destruct (_diagram m) as [d|] eqn:Hd; [|by unfold redo; rewrite Hd].
  destruct (last (_future m)) as [s|] eqn:Hl; [|by unfold redo; rewrite Hd, Hl].
  destruct Hm as [_ Hc Hs Hh Hf].
  destruct (last_split _ _ Hl) as [f Hfut].
  rewrite Hfut in Hf. apply Forall_app in Hf as [Gf Gs].
  apply Forall_cons in Gs as [(v & -> & Hv) _].
  destruct (HistoryFacts.redo_step o m d f v Hd Hfut) as (_ & U2 & U3 & _).
  destruct (redo_eq o m d _ _ Hd Hl (ModelsFacts.from_to_json_dict o v)) as [m0 E].
  apply (reinstalled_sound (ModelsFacts.normalize v) m0 _
           (_history m ++ [Diagram.to_json_dict (value_of m d)]) f).
  - by apply well_formed_normalize.
  - by rewrite E.
  - exact U3.
  - exact U2.
  - apply Forall_app. split; [done|]. constructor; [|done]. by apply good_current.
  - exact Gf.
Qed.

Lemma steps_sound (ss : list step) (m : t) :
  sound m -> all_safe ss m -> sound (do_steps ss m).
Proof.
  revert m. induction ss as [|s ss IH]; intros m Hm Hsafe; [done|].
  destruct Hsafe as [Hs Hrest]. cbn [do_steps]. apply IH; [|done].
  destruct s; cbn [do_step].
  - by apply call_sound.
  - by apply undo_sound.
  - by apply redo_sound.
Qed.

Lemma new_diagram_fields (o : oracle) (name : string) (m0 : t) :
  let m := new_diagram o name m0 in
  is_Some (_diagram m) /\ nodes_of m = [] /\ edges_of m = [] /\
  _history m = [] /\ _future m = [] /\ _max_history m = _max_history m0 /\
  _dirty m = false.
Proof.
  cbv zeta. unfold new_diagram, adopt, nodes_of, edges_of, _rebuild_indexes, _notify_change.
  cbn. repeat split; try reflexivity. by eexists.
Qed.

Lemma new_diagram_sound (o : oracle) (name : string) (m0 : t) :
  sound (new_diagram o name m0).
Proof.
  destruct (new_diagram_fields o name m0) as (F1 & F2 & F3 & F4 & F5 & _).
  constructor; [done|apply new_diagram_consistent| |by rewrite F4|by rewrite F5].
  unfold shaped, live_nodes, live_edges. rewrite F2, F3. by constructor; constructor.
Qed.

Lemma well_formed_closed (v : Diagram.value) : well_formed v -> SummaryFacts.closed v.
Proof. by intros [_ _ _ W]. Qed.

(** X6. Calls, undos and redos in any order, from a new diagram: as long as
    no call reuses an id, lists a tag twice, renames a node or an edge or
    moves an end of an edge, a diagram stays open, the five indexes agree
    with it, its node ids are distinct, its edge ids are distinct, no node
    lists a tag twice, every edge starts and ends at a node of the diagram,
    and so the validator reports no error for it. *)
Theorem store_stays_sound (o : oracle) (name : string) (m0 : t) (ss : list step) :
  all_safe ss (new_diagram o name m0) ->
  let m := do_steps ss (new_diagram o name m0) in
  consistent m /\
  exists v, diagram m = Some v /\ well_formed v /\
    Validation.errors (Validation.validation_summary (Validation.validate_diagram v)) = 0 /\
    Validation.valid (Validation.validation_summary (Validation.validate_diagram v)) = true.
Proof.
  intros Hsafe m.
  destruct (steps_sound ss _ (new_diagram_sound o name m0) Hsafe) as [[d Hd] Hc Hs _ _].
  fold m in Hd, Hc, Hs. split; [exact Hc|].
  exists (value_of m d). split; [unfold diagram; by rewrite Hd|].
  assert (Hw : well_formed (value_of m d)).
  { unfold well_formed. by destruct (live_value m d Hd) as [-> ->]. }
  split; [exact Hw|].
  pose proof (SummaryFacts.errors_are_dangling_ends (value_of m d)) as He.
  pose proof (proj2 (SummaryFacts.no_dangling_iff (value_of m d)) (well_formed_closed _ Hw)) as H0.
  assert (E : Validation.count Validation.is_error (Validation.validate_diagram (value_of m d)) = 0).
  { rewrite He. by destruct (Diagram.nodes (value_of m d)). }
  unfold Validation.validation_summary. cbn [Validation.errors Validation.valid].
  unfold Validation.count in E. by rewrite E.
Qed.

Lemma store_stays_sound_witness :
  consistent (do_steps example_steps (new_diagram Examples.example_oracle "Example" (init 100))).
Proof.
  apply (store_stays_sound Examples.example_oracle "Example" (init 100) example_steps).
  unfold example_steps. cbn [all_safe safe].
  repeat split; try (apply (bool_decide_eq_true_1 _); vm_compute; reflexivity).
Defined.

(** *** The two stacks *)

Lemma length_trim (max_history : Z) (h : list dict) :
  (0 <= max_history)%Z -> (Z.of_nat (length h) <= max_history + 1)%Z ->
  (Z.of_nat (length (trim max_history h)) <= max_history)%Z.
Proof.
  intros H0. unfold trim. destruct (Z.ltb_spec max_history (Z.of_nat (length h))); [|lia].
  destruct h; cbn [List.tl length] in *; lia.
Qed.

Lemma call_log (a : HistoryFacts.op) (m : t) :
  stack_room m ->
  _max_history (HistoryFacts.call a m).2 = _max_history m /\
  stack_room (HistoryFacts.call a m).2 /\
  ((HistoryFacts.call a m).1 = true -> _future (HistoryFacts.call a m).2 = []).
Proof.
  intros Hr. destruct (HistoryFacts.call a m).1 eqn:Hok;
    [|rewrite (call_fails a m Hok); by repeat split].
  destruct (_diagram m) as [d|] eqn:Hd.
  2:{ exfalso. destruct a; cbn [HistoryFacts.call] in Hok;
        unfold add_node, update_node, delete_node, add_edge, update_edge, delete_edge,
          bulk_update_tags, update_diagram_info, no_diagram in Hok;
        rewrite Hd in Hok; discriminate. }
  destruct (HistoryFacts.call_pushes a m d Hd Hok) as [L1 L2 L3 _].
  destruct (HistoryFacts.save_other m) as (_ & _ & _ & Hmax & _).
  pose proof (HistoryFacts.save_history m d Hd) as Hh.
  pose proof (HistoryFacts.save_future m d Hd) as Hf.
  unfold stack_room in *. rewrite L1, L2, L3, Hh, Hf, Hmax. cbn [length].
  split; [done|]. split; [|done].
  rewrite Nat.add_0_r. apply length_trim; [lia|]. rewrite length_app. cbn [length]. lia.
Qed.

Lemma undo_log (o : oracle) (m : t) :
  _max_history (undo o m).2 = _max_history m /\
  ((_history (undo o m).2 = _history m /\ _future (undo o m).2 = _future m) \/
   exists s s', _history m = _history (undo o m).2 ++ [s] /\
                _future (undo o m).2 = _future m ++ [s']).
Proof.
  unfold undo. destruct (_diagram m) as [d|]; [|by split; [|left]].
  destruct (last (_history m)) as [s|] eqn:Hl; [|by split; [|left]].
  destruct (last_split _ _ Hl) as [h Hh].
  destruct (_restore_from_snapshot o s) as [v|e].
  - cbn [snd].
    match goal with |- context [adopt ?v ?m0] =>
      destruct (HistoryFacts.restored v m0) as (_ & [R2 R3 R4 _])
    end.
    rewrite R2, R3, R4. cbn [set_history set_future _history _future _max_history].
    split; [done|]. right. exists s, (Diagram.to_json_dict (value_of m d)).
    by rewrite Hh, removelast_last.
  - cbn [snd set_history set_future _history _future _max_history].
    split; [done|]. right. exists s, (Diagram.to_json_dict (value_of m d)).
    by rewrite Hh, removelast_last.
Qed.

Lemma redo_log (o : oracle) (m : t) :
  _max_history (redo o m).2 = _max_history m /\
  ((_history (redo o m).2 = _history m /\ _future (redo o m).2 = _future m) \/
   exists s s', _future m = _future (redo o m).2 ++ [s] /\
                _history (redo o m).2 = _history m ++ [s']).
Proof.
  unfold redo. destruct (_diagram m) as [d|]; [|by split; [|left]].
  destruct (last (_future m)) as [s|] eqn:Hl; [|by split; [|left]].
  destruct (last_split _ _ Hl) as [h Hh].
  destruct (_restore_from_snapshot o s) as [v|e].
  - cbn [snd].
    match goal with |- context [adopt ?v ?m0] =>
      destruct (HistoryFacts.restored v m0) as (_ & [R2 R3 R4 _])
    end.
    rewrite R2, R3, R4. cbn [set_history set_future _history _future _max_history].
    split; [done|]. right. exists s, (Diagram.to_json_dict (value_of m d)).
    by rewrite Hh, removelast_last.
  - cbn [snd set_history set_future _history _future _max_history].
    split; [done|]. right. exists s, (Diagram.to_json_dict (value_of m d)).
    by rewrite Hh, removelast_last.
Qed.

Lemma step_log (s : step) (m : t) :
  stack_room m ->
  _max_history (do_step s m) = _max_history m /\ stack_room (do_step s m).
Proof.
  intros Hr. destruct s as [a|o|o]; cbn [do_step].
  - destruct (call_log a m Hr) as (? & ? & _). done.
  - destruct (undo_log o m) as [Hmax [[Hh Hf]|(s & s' & Hh & Hf)]];
      (split; [done|]); unfold stack_room in *; rewrite Hmax.
    + by rewrite Hh, Hf.
    + rewrite Hh, length_app in Hr. rewrite Hf, length_app. cbn [length] in *. lia.
  - destruct (redo_log o m) as [Hmax [[Hh Hf]|(s & s' & Hf & Hh)]];
      (split; [done|]); unfold stack_room in *; rewrite Hmax.
    + by rewrite Hh, Hf.
    + rewrite Hf, length_app in Hr. rewrite Hh, length_app. cbn [length] in *. lia.
Qed.

(** X7. The undo and redo stacks together never hold more than [max_history]
    snapshots: from a state where they do not, no sequence of calls, undos
    and redos makes them; a call that goes through empties the redo stack. *)
Theorem stacks_stay_bounded (ss : list step) (m : t) :
  (Z.of_nat (length (_history m) + length (_future m)) <= _max_history m)%Z ->
  let m' := do_steps ss m in
  _max_history m' = _max_history m /\
  (Z.of_nat (length (_history m') + length (_future m')) <= _max_history m)%Z /\
  forall a, (HistoryFacts.call a m').1 = true ->
            can_redo (HistoryFacts.call a m').2 = false.
Proof.
  intros Hr. cbv zeta.
  assert (H : _max_history (do_steps ss m) = _max_history m /\ stack_room (do_steps ss m)).
  { fold (stack_room m) in Hr. revert m Hr.
    induction ss as [|s ss IH]; intros m Hr; [done|].
    cbn [do_steps]. destruct (step_log s m Hr) as [Hmax Hr'].
    destruct (IH _ Hr') as [IH1 IH2]. by rewrite IH1. }
  destruct H as [Hmax Hroom]. split; [done|]. split.
  - unfold stack_room in Hroom. by rewrite Hmax in Hroom.
  - intros a Hok. destruct (call_log a _ Hroom) as (_ & _ & Hf).
    unfold can_redo. by rewrite (Hf Hok).
Qed.

Lemma stacks_stay_bounded_witness :
  let m := do_steps three_adds (new_diagram Examples.example_oracle "Example" (init 2)) in
  length (_history m) = 1 /\ length (_future m) = 1 /\
  (Z.of_nat (length (_history m) + length (_future m)) <= 2)%Z.
Proof.
  cbv zeta. split; [vm_compute; reflexivity|]. split; [vm_compute; reflexivity|].
  apply (stacks_stay_bounded three_adds
           (new_diagram Examples.example_oracle "Example" (init 2))).
  vm_compute. discriminate.
Defined.

(** *** Queries *)

Lemma lookup_all_spec {A} (index : gmap string A) (ids : gset string) (x : A) :
  x ∈ lookup_all index ids <-> exists i, i ∈ ids /\ index !! i = Some x.
Proof.
  unfold lookup_all. rewrite list_elem_of_omap. split.
  - intros (i & Hi%elem_of_elements & Hx). eauto.
  - intros (i & Hi & Hx). exists i. by rewrite elem_of_elements.
Qed.

Lemma by_tag_ids (tag : string) (m : t) (l : loc) :
  l ∈ get_nodes_by_tag tag m <-> exists i, i ∈ tag_ids m tag /\ _node_index m !! i = Some l.
Proof.
  unfold get_nodes_by_tag, tag_ids. destruct (_tag_index m !! tag) as [ids|]; cbn [default].
  - apply lookup_all_spec.
  - split; [by intros ?%elem_of_nil|]. by intros (i & ?%elem_of_empty & _).
Qed.

Lemma by_type_ids (ty : string) (m : t) (l : loc) :
  l ∈ get_nodes_by_type ty m <-> exists i, i ∈ type_ids m ty /\ _node_index m !! i = Some l.
Proof.
  unfold get_nodes_by_type, type_ids. destruct (_type_index m !! ty) as [ids|]; cbn [default].
  - apply lookup_all_spec.
  - split; [by intros ?%elem_of_nil|]. by intros (i & ?%elem_of_empty & _).
Qed.

Lemma for_node_ids (node_id : string) (m : t) (l : loc) :
  l ∈ get_edges_for_node node_id m
  <-> exists i, i ∈ incident_ids m node_id /\ _edge_index m !! i = Some l.
Proof.
  unfold get_edges_for_node, incident_ids.
  destruct (_edges_by_node m !! node_id) as [ids|]; cbn [default].
  - apply lookup_all_spec.
  - split; [by intros ?%elem_of_nil|]. by intros (i & ?%elem_of_empty & _).
Qed.

Lemma get_nodes_by_tag_spec (tag : string) (m : t) (l : loc) :
  consistent m ->
  l ∈ get_nodes_by_tag tag m <-> l ∈ nodes_of m /\ tag ∈ Node.tags (node_at m l).
Proof.
  intros Hc. destruct (proj1 (consistent_sides m) Hc) as [Hno _].
  rewrite by_tag_ids. split.
  - intros (i & Hi & Hl). apply (c_node_index m Hc) in Hl as [Hl <-].
    split; [done|]. by apply (tag_member _ _ _ _ _ l tag Hno Hl).
  - intros [Hl Ht]. exists (Node.id (node_at m l)). split.
    + by apply (tag_member _ _ _ _ _ l tag Hno Hl).
    + by apply (c_node_index m Hc).
Qed.

Lemma get_nodes_by_type_spec (ty : string) (m : t) (l : loc) :
  consistent m ->
  l ∈ get_nodes_by_type ty m <-> l ∈ nodes_of m /\ Node.type (node_at m l) = ty.
Proof.
  intros Hc. destruct (proj1 (consistent_sides m) Hc) as [Hno _].
  rewrite by_type_ids. split.
  - intros (i & Hi & Hl). apply (c_node_index m Hc) in Hl as [Hl <-].
    split; [done|]. by apply (type_member _ _ _ _ _ l ty Hno Hl).
  - intros [Hl Ht]. exists (Node.id (node_at m l)). split.
    + by apply (type_member _ _ _ _ _ l ty Hno Hl).
    + by apply (c_node_index m Hc).
Qed.

Lemma get_edges_for_node_spec (node_id : string) (m : t) (l : loc) :
  consistent m ->
  l ∈ get_edges_for_node node_id m
  <-> l ∈ edges_of m /\ (Edge.source (edge_at m l) = node_id \/
                         Edge.target (edge_at m l) = node_id).
Proof.
  intros Hc. rewrite for_node_ids, (c_incident m Hc). unfold ids_incident. split.
  - intros (i & (e & (l' & -> & Hl')%list_elem_of_fmap & Hinc & Hid)%elem_of_ids & Hl).
    apply (c_edge_index m Hc) in Hl as [Hl Hid'].
    assert (l' = l) as ->.
    { assert (H1 : _edge_index m !! i = Some l) by (by apply (c_edge_index m Hc)).
      assert (H2 : _edge_index m !! i = Some l') by (by apply (c_edge_index m Hc)).
      congruence. }
    done.
  - intros [Hl Hinc]. exists (Edge.id (edge_at m l)). split.
    + apply elem_of_ids. exists (edge_at m l). split; [|done].
      unfold live_edges. apply list_elem_of_fmap. by exists l.
    + by apply (c_edge_index m Hc).
Qed.

(** X8. The three index queries answer as a scan of the diagram would: when
    the indexes agree with the diagram, [get_nodes_by_tag] returns exactly
    the nodes of the diagram that carry the tag, [get_nodes_by_type] exactly
    those of the type, and [get_edges_for_node] exactly the edges that start
    or end at the node; for a key that no index knows the answer is the
    empty list. *)
Theorem index_queries_exact (m : t) :
  consistent m ->
  (forall tag l, l ∈ get_nodes_by_tag tag m
                 <-> l ∈ nodes_of m /\ tag ∈ Node.tags (node_at m l)) /\
  (forall ty l, l ∈ get_nodes_by_type ty m
                <-> l ∈ nodes_of m /\ Node.type (node_at m l) = ty) /\
  (forall node_id l, l ∈ get_edges_for_node node_id m
                     <-> l ∈ edges_of m /\ (Edge.source (edge_at m l) = node_id \/
                                            Edge.target (edge_at m l) = node_id)) /\
  (forall tag, _tag_index m !! tag = None -> get_nodes_by_tag tag m = []) /\
  (forall ty, _type_index m !! ty = None -> get_nodes_by_type ty m = []) /\
  (forall node_id, _edges_by_node m !! node_id = None -> get_edges_for_node node_id m = []).
Proof.
  intros Hc. split; [|split; [|split; [|split; [|split]]]].
  - intros tag l. by apply get_nodes_by_tag_spec.
  - intros ty l. by apply get_nodes_by_type_spec.
  - intros node_id l. by apply get_edges_for_node_spec.
  - intros tag H. unfold get_nodes_by_tag. by rewrite H.
  - intros ty H. unfold get_nodes_by_type. by rewrite H.
  - intros node_id H. unfold get_edges_for_node. by rewrite H.
Qed.

Lemma index_queries_exact_witness :
  (0 ∈ get_nodes_by_tag "front" Examples.abc_manager
   <-> 0 ∈ nodes_of Examples.abc_manager
       /\ "front" ∈ Node.tags (node_at Examples.abc_manager 0)) /\
  get_nodes_by_tag "nowhere" Examples.abc_manager = [].
Proof.
  destruct (index_queries_exact Examples.abc_manager abc_consistent)
    as (H1 & _ & _ & H4 & _).
  split; [apply H1|]. apply H4. vm_compute. reflexivity.
Defined.




End IndexFacts.

(** ** Named snapshots *)

Module SnapshotFacts.
Import Models Heap Manager Snapshots StoreFacts IndexFacts.

Definition abc_session : session :=
  {| manager := Examples.abc_manager; _file_path := Some "abc.json" |}.

Definition blank_session : session :=
  {| manager := Manager.init 100; _file_path := None |}.

Lemma get_put (name k : string) (v : entry) (s : snapshots) :
  get k (put name v s) = if String.eqb k name then Some v else get k s.
Proof.
  induction s as [|[k' v'] s IH]; cbn [put get].
  - done.
  - destruct (String.eqb_spec name k') as [->|Hne]; cbn [get].
    + by destruct (String.eqb_spec k k').
    + rewrite IH. destruct (String.eqb_spec k k') as [->|Hk]; [|done].
      by destruct (String.eqb_spec k' name) as [->|_].
Qed.

Lemma get_del (name k : string) (s : snapshots) :
  get k (del name s) = if String.eqb k name then None else get k s.
Proof.
  unfold del. induction s as [|[k' v'] s IH]; cbn [List.filter get].
  - by destruct (String.eqb k name).
  - destruct (String.eqb_spec name k') as [->|Hne]; cbn [negb get].
    + rewrite IH. destruct (String.eqb_spec k k'); done.
    + rewrite IH. destruct (String.eqb_spec k k') as [->|Hk]; [|done].
      by destruct (String.eqb_spec k' name) as [->|_].
Qed.

Lemma get_keys (name : string) (s : snapshots) :
  is_Some (get name s) <-> name ∈ map fst s.
Proof.
  induction s as [|[k v] s IH]; cbn [get map fst].
  - split; [by intros [? ?]|by intros ?%elem_of_nil].
  - rewrite elem_of_cons. destruct (String.eqb_spec name k) as [->|Hne].
    + split; [by left|by eexists].
    + rewrite IH. naive_solver.
Qed.

Lemma keys_put (name : string) (v : entry) (s : snapshots) :
  map fst (put name v s)
  = if bool_decide (name ∈ map fst s) then map fst s else map fst s ++ [name].
Proof.
  induction s as [|[k v'] s IH]; cbn [put map fst].
  - done.
  - destruct (String.eqb_spec name k) as [->|Hne]; cbn [map fst].
    + rewrite bool_decide_eq_true_2; [done|]. by left.
    + rewrite IH. destruct (bool_decide (name ∈ map fst s)) eqn:E.
      * apply bool_decide_eq_true_1 in E. rewrite bool_decide_eq_true_2; [done|]. by right.
      * apply bool_decide_eq_false_1 in E. rewrite bool_decide_eq_false_2; [done|].
        intros [?|?]%elem_of_cons; done.
Qed.

Lemma keys_list (s : snapshots) : map fst (list_snapshots s) = map fst s.
Proof.
  unfold list_snapshots. rewrite map_map. apply map_ext. by intros [k v].
Qed.

Lemma trim_snoc (max_history : Z) (h : list dict) (s : dict) :
  (0 < max_history)%Z -> exists h', trim max_history (h ++ [s]) = h' ++ [s].
Proof.
  intros Hmax. unfold trim.
  destruct (Z.ltb_spec max_history (Z.of_nat (length (h ++ [s])))) as [Hlt|_];
    [|by exists h].
  destruct h as [|a h]; cbn in *; [lia|]. by exists h.
Qed.

Lemma restore_eq (o : oracle) (name : string) (ss : session) (s : snapshots)
    (data : entry) (v : Diagram.value) :
  get name s = Some data ->
  Diagram.from_json_dict o (e_diagram data) = Ok v ->
  restore_snapshot o name ss s
  = (Ok (_diagram (reinstalled v (_save_to_history (manager ss)))),
     {| manager := reinstalled v (_save_to_history (manager ss));
        _file_path := if Edge.truthy (e_file_path data) then e_file_path data
                      else _file_path ss |}).
Proof. intros Hg Hv. unfold restore_snapshot. by rewrite Hg, Hv. Qed.

Lemma reinstalled_log (v : Diagram.value) (m : t) :
  _history (reinstalled v m) = _history m /\ _future (reinstalled v m) = _future m /\
  _max_history (reinstalled v m) = _max_history m.
Proof.
  destruct (HistoryFacts.restored v m) as (_ & [R2 R3 R4 _]). by unfold reinstalled.
Qed.

Lemma restore_snapshot_spec (o o' o'' : oracle) (name : string) (ss ss' : session)
    (s s' : snapshots) (d : Diagram.t loc loc) :
  _diagram (manager ss) = Some d ->
  get name s' = get name (create_snapshot o name ss s).2 ->
  let v := ModelsFacts.normalize (value_of (manager ss) d) in
  let r := restore_snapshot o' name ss' s' in
  r.1 = Ok (_diagram (manager r.2)) /\
  diagram (manager r.2) = Some v /\
  _dirty (manager r.2) = true /\
  _file_path r.2 = (if Edge.truthy (_file_path ss) then _file_path ss else _file_path ss') /\
  (NoDup (map Node.id (Diagram.nodes v)) -> NoDup (map Edge.id (Diagram.edges v)) ->
   consistent (manager r.2)) /\
  (_diagram (manager ss') = None ->
   _history (manager r.2) = _history (manager ss') /\
   _future (manager r.2) = _future (manager ss')) /\
  (forall d', _diagram (manager ss') = Some d' ->
   _future (manager r.2) = [] /\
   ((0 < _max_history (manager ss'))%Z ->
    diagram (undo o'' (manager r.2)).2
    = Some (ModelsFacts.normalize (value_of (manager ss') d')))).
Proof.
  intros Hd Hg v r.
  unfold create_snapshot in Hg. rewrite Hd in Hg. cbn [snd] in Hg.
  rewrite get_put, String.eqb_refl in Hg.
  pose proof (restore_eq o' name ss' s' _ _ Hg
                (ModelsFacts.from_to_json_dict o' (value_of (manager ss) d))) as E.
  cbn [e_diagram e_file_path] in E. fold v in E.
  subst r. rewrite E. cbn [fst snd manager _file_path].
  set (m0 := _save_to_history (manager ss')) in *.
  destruct (HistoryFacts.restored v m0) as (R1 & _). fold (reinstalled v m0) in R1.
  destruct (reinstalled_log v m0) as (L1 & L2 & L3).
  split; [done|]. split; [done|]. split.
  { unfold reinstalled. by rewrite notify_dirty, rebuild_dirty, set_dirty_dirty. }
  split; [done|]. split.
  { intros Hn He. by apply reinstalled_spec. }
  split.
  - intros Hnone. rewrite L1, L2. subst m0. unfold _save_to_history. by rewrite Hnone.
  - intros d' Hd'. destruct (HistoryFacts.same_log_save _ d' Hd') as (S1 & S2 & S3 & _).
    fold m0 in S1, S2, S3. split; [by rewrite L2|]. intros Hmax.
    destruct (trim_snoc _ (_history (manager ss'))
                (Diagram.to_json_dict (value_of (manager ss') d')) Hmax) as [h' Hh'].
    destruct (HistoryFacts.diagram_active _ _ R1) as (d1 & Hd1 & _).
    destruct (HistoryFacts.undo_step o'' (reinstalled v m0) d1 h'
                (value_of (manager ss') d') Hd1) as (U1 & _); [|done].
    by rewrite L1, S1.
Qed.

(** X11. A named snapshot restores the diagram it was taken from, through any
    manager: as long as the entry of that name is the one that
    [create_snapshot] wrote, [restore_snapshot] returns the diagram as it
    was when the snapshot was taken (an edge side that was the empty text
    reads back unset), whatever happened to either manager since; it marks
    the manager dirty, takes over the file path of the snapshot when it has
    one, and rebuilds the indexes, which agree with the diagram when ids are
    distinct.  A manager without a diagram opens the snapshot and pushes no
    history; one with a diagram empties its redo stack and, given room for
    one history entry, gets its own diagram back by [undo]. *)
Theorem snapshot_restores (o o' o'' : oracle) (name : string) (ss ss' : session)
    (s s' : snapshots) (d : Diagram.t loc loc) :
  _diagram (manager ss) = Some d ->
  get name s' = get name (create_snapshot o name ss s).2 ->
  let v := ModelsFacts.normalize (value_of (manager ss) d) in
  let r := restore_snapshot o' name ss' s' in
  r.1 = Ok (_diagram (manager r.2)) /\
  diagram (manager r.2) = Some v /\
  _dirty (manager r.2) = true /\
  _file_path r.2 = (if Edge.truthy (_file_path ss) then _file_path ss else _file_path ss') /\
  (NoDup (map Node.id (Diagram.nodes v)) -> NoDup (map Edge.id (Diagram.edges v)) ->
   consistent (manager r.2)) /\
  (_diagram (manager ss') = None ->
   _history (manager r.2) = _history (manager ss') /\
   _future (manager r.2) = _future (manager ss')) /\
  (forall d', _diagram (manager ss') = Some d' ->
   _future (manager r.2) = [] /\
   ((0 < _max_history (manager ss'))%Z ->
    diagram (undo o'' (manager r.2)).2
    = Some (ModelsFacts.normalize (value_of (manager ss') d')))).
Proof. apply restore_snapshot_spec. Qed.

Lemma snapshot_restores_witness :
  let s := (create_snapshot Examples.example_oracle "v1" abc_session []).2 in
  let r := restore_snapshot Examples.example_oracle "v1" blank_session s in
  diagram (manager r.2) = diagram Examples.abc_manager /\
  _file_path r.2 = Some "abc.json".
Proof.
  destruct (snapshot_restores Examples.example_oracle Examples.example_oracle
              Examples.example_oracle "v1" abc_session blank_session []
              (create_snapshot Examples.example_oracle "v1" abc_session []).2
              Examples.abc_diagram ltac:(vm_compute; reflexivity) eq_refl)
    as (_ & H2 & _ & H4 & _).
  cbv zeta. split; [|exact H4]. rewrite H2. vm_compute. reflexivity.
Defined.

(** X12. The snapshots are a dictionary by name.  [create_snapshot] raises
    without a diagram and then writes nothing; otherwise it overwrites the
    entry of the name in place or adds the name last, and touches no other
    entry.  [delete_snapshot] answers whether the name was there; after it
    [restore_snapshot] of that name returns [None] and leaves the manager
    as it is, and the other entries are as before. *)
Theorem snapshots_by_name (o : oracle) (name : string) (ss : session) (s : snapshots) :
  (_diagram (manager ss) = None -> create_snapshot o name ss s = (no_diagram, s)) /\
  (forall d, _diagram (manager ss) = Some d ->
     (create_snapshot o name ss s).1 = Ok true /\
     map fst (list_snapshots (create_snapshot o name ss s).2)
     = (if bool_decide (name ∈ map fst (list_snapshots s))
        then map fst (list_snapshots s) else map fst (list_snapshots s) ++ [name]) /\
     forall k, k <> name -> get k (create_snapshot o name ss s).2 = get k s) /\
  (delete_snapshot name s).1 = bool_decide (name ∈ map fst (list_snapshots s)) /\
  (forall o' ss', restore_snapshot o' name ss' (delete_snapshot name s).2 = (Ok None, ss')) /\
  (forall k, k <> name -> get k (delete_snapshot name s).2 = get k s).
Proof.
  rewrite !keys_list. split; [|split; [|split; [|split]]].
  - intros Hd. unfold create_snapshot. by rewrite Hd.
  - intros d Hd. unfold create_snapshot. rewrite Hd. cbn [fst snd].
    split; [done|]. split; [by rewrite keys_put|].
    intros k Hk. rewrite get_put. by destruct (String.eqb_spec k name).
  - unfold delete_snapshot. destruct (get name s) as [v|] eqn:Hg; cbn [fst].
    + symmetry. apply bool_decide_eq_true_2. apply get_keys. by rewrite Hg.
    + symmetry. apply bool_decide_eq_false_2. rewrite <- get_keys, Hg. by intros [? ?].
  - intros o' ss'. unfold restore_snapshot.
    assert (Hnone : get name (delete_snapshot name s).2 = None).
    { unfold delete_snapshot. destruct (get name s) as [v|] eqn:Hg; cbn [snd]; [|done].
      by rewrite get_del, String.eqb_refl. }
    by rewrite Hnone.
  - intros k Hk. unfold delete_snapshot. destruct (get name s) as [v|]; cbn [snd]; [|done].
    rewrite get_del. by destruct (String.eqb_spec k name).
Qed.

End SnapshotFacts.
